(** * StateServiceHumanSimulator: turn sequencer and edit applier

    A shallow embedding of
    [web-ui/src/simulation/simulators/StateServiceHumanSimulator.ts].

    The class is a set of [async] methods over one mutable object.  Here
    the object is the record [Simulator]; a method is a function from the
    object to an outcome (normal return or a raised exception) and the
    updated object.  Every [await] on a timer or on the network is a
    suspension point at which the host may run other code: the only such
    code modelled is an external call of [stop()].  What the host decides
    (random draws, inference answers, faults of the editing surface, the
    listener of the shutdown event) is read from an environment [Env]. *)

From Stdlib Require Import Bool Arith ZArith QArith Qround Qminmax List String Ascii Lia Lqa.
Import ListNotations.

Close Scope Q_scope.
Open Scope nat_scope.

Set Implicit Arguments.

(* ===================================================================== *)
(** * Strings as JavaScript uses them *)
(* ===================================================================== *)

Module Js.

Local Open Scope string_scope.

(** The line feed, ["\n"]. *)
Definition nl : ascii := Ascii.ascii_of_nat 10.

Definition nlS : string := String nl EmptyString.

(** White space in the sense of [String.prototype.trim], restricted to the
    single-byte characters: TAB, LF, VT, FF, CR and SPACE. *)
Definition isWhite (c : ascii) : bool :=
  let n := Ascii.nat_of_ascii c in
  (Nat.leb 9 n && Nat.leb n 13) || Nat.eqb n 32.

(** [s.trimStart()] *)
Fixpoint trimStart (s : string) : string :=
  match s with
  | EmptyString => EmptyString
  | String c r => if isWhite c then trimStart r else s
  end.

(** [s.trimEnd()] *)
Fixpoint trimEnd (s : string) : string :=
  match s with
  | EmptyString => EmptyString
  | String c r =>
      match trimEnd r with
      | EmptyString => if isWhite c then EmptyString else String c EmptyString
      | r' => String c r'
      end
  end.

(** [s.trim()] *)
Definition trim (s : string) : string := trimEnd (trimStart s).

(** [s.split(sep)] for a one-character separator: never the empty list. *)
Fixpoint split (sep : ascii) (s : string) : list string :=
  match s with
  | EmptyString => [EmptyString]
  | String c r =>
      if Ascii.eqb c sep then EmptyString :: split sep r
      else match split sep r with
           | h :: t => String c h :: t
           | [] => [String c EmptyString]
           end
  end.

(** [parts.join(sep)] *)
Definition join (sep : string) (parts : list string) : string :=
  String.concat sep parts.

(** [s.replace(/\n/g, ' ')] *)
Fixpoint replaceNl (s : string) : string :=
  match s with
  | EmptyString => EmptyString
  | String c r => String (if Ascii.eqb c nl then " "%char else c) (replaceNl r)
  end.

(** [s.split('')]: the characters one by one. *)
Definition chars (s : string) : list ascii := list_ascii_of_string s.

(** [s.substring(0, n)] *)
Definition prefix (n : nat) (s : string) : string := String.substring 0 n s.

(** [s.substring(n)] *)
Fixpoint suffix (n : nat) (s : string) : string :=
  match n, s with
  | O, _ => s
  | S _, EmptyString => EmptyString
  | S n', String _ r => suffix n' r
  end.

(** [s.startsWith(p)] *)
Fixpoint startsWith (p s : string) : bool :=
  match p, s with
  | EmptyString, _ => true
  | String _ _, EmptyString => false
  | String a p', String b s' => Ascii.eqb a b && startsWith p' s'
  end.

(** [s.includes(p)] *)
Fixpoint includes (p s : string) : bool :=
  startsWith p s ||
  match s with
  | EmptyString => false
  | String _ r => includes p r
  end.

End Js.

(* ===================================================================== *)
(** * The editing surface *)
(* ===================================================================== *)

(** [monaco.Position]: line and column, both counted from 1. *)
Record Position : Type := mkPosition {
  lineNumber : nat;
  column : nat
}.

(** The part of [monaco.editor.IStandaloneCodeEditor] the simulator uses:
    the model's lines and the cursor.  An attached editor always has a
    model and a cursor, and the model always has at least one line. *)
Record Editor : Type := mkEditor {
  lines : list string;
  cursor : Position
}.

Module Monaco.

Local Open Scope string_scope.

(** [model.getLineCount()] *)
Definition getLineCount (e : Editor) : nat := List.length (lines e).

(** [model.getLineContent(n)]: raises for a line that does not exist. *)
Definition getLineContent (e : Editor) (n : nat) : option string :=
  match n with
  | O => None
  | S k => nth_error (lines e) k
  end.

(** [model.getValue()] *)
Definition getValue (e : Editor) : string := Js.join Js.nlS (lines e).

(** Content of line [n], the empty string where the line is missing. *)
Definition lineOr (e : Editor) (n : nat) : string :=
  match getLineContent e n with Some l => l | None => EmptyString end.

(** [model.validatePosition(p)]: clamp into the document. *)
Definition validatePosition (e : Editor) (p : Position) : Position :=
  let ln := Nat.min (Nat.max 1 (lineNumber p)) (Nat.max 1 (getLineCount e)) in
  let len := String.length (lineOr e ln) in
  mkPosition ln (Nat.min (Nat.max 1 (column p)) (len + 1)).

(** [editor.setPosition(p)] *)
Definition setPosition (p : Position) (e : Editor) : Editor :=
  mkEditor (lines e) (validatePosition e p).

(** [model.getOffsetAt(p)] with ["\n"] line ends. *)
Definition getOffsetAt (e : Editor) (p : Position) : nat :=
  let q := validatePosition e p in
  fold_right (fun l acc => String.length l + 1 + acc) 0
             (firstn (lineNumber q - 1) (lines e))
  + (column q - 1).

(** Replace line [n] (counted from 1) by the lines [new]. *)
Definition spliceLine (n : nat) (new : list string) (ls : list string)
  : list string :=
  firstn (n - 1) ls ++ new ++ skipn n ls.

(** The lines that result from putting [pieces], the lines of an inserted
    text, between [before] and [after]. *)
Definition insertPieces (before after : string) (pieces : list string)
  : list string :=
  match pieces with
  | [] => [before ++ after]
  | [p] => [before ++ p ++ after]
  | p :: rest =>
      (before ++ p) :: removelast rest ++ [last rest EmptyString ++ after]
  end.

(** [editor.executeEdits(src, [{range, text}])] for a range inside one
    line: columns [c1] to [c2] of line [n] are replaced by [text]. *)
Definition executeEdits (n c1 c2 : nat) (text : string) (e : Editor) : Editor :=
  match getLineContent e n with
  | None => e
  | Some l =>
      let before := Js.prefix (c1 - 1) l in
      let after := Js.suffix (c2 - 1) l in
      let ls := spliceLine n (insertPieces before after (Js.split Js.nl text))
                           (lines e) in
      mkEditor ls (validatePosition (mkEditor ls (cursor e)) (cursor e))
  end.

(** [editor.trigger(src, 'type', {text: c})] for one character: the
    character is inserted at the cursor, a line feed splits the line, and
    the cursor ends up behind what was typed. *)
Definition typeChar (c : ascii) (e : Editor) : Editor :=
  let p := cursor e in
  let l := lineOr e (lineNumber p) in
  let before := Js.prefix (column p - 1) l in
  let after := Js.suffix (column p - 1) l in
  if Ascii.eqb c Js.nl then
    mkEditor (spliceLine (lineNumber p) [before; after] (lines e))
             (mkPosition (lineNumber p + 1) 1)
  else
    mkEditor (spliceLine (lineNumber p) [before ++ String c after] (lines e))
             (mkPosition (lineNumber p) (column p + 1)).

End Monaco.

(* ===================================================================== *)
(** * The shutdown handshake of [stop()] *)
(* ===================================================================== *)

(** The executor of the [completion] promise in [stop()], lines 173-212:
    its two local variables, the timer it arms, and counters for what it
    does to the outside ([resolve()], [clearTimeout], [console.warn]). *)
Module Handshake.

Definition HANDSHAKE_TIMEOUT_MS : Z := 2000.

Record State : Type := mkState {
  resolved : bool;            (* let resolved = false *)
  timeoutId : option Z;       (* let timeoutId = null; holds the delay armed *)
  armed : bool;               (* a timer set by setTimeout is still pending *)
  resolveCalls : nat;         (* how many times resolve() ran *)
  clearCalls : nat;           (* how many times clearTimeout ran *)
  warnings : nat              (* how many times console.warn ran *)
}.

Definition initial : State := mkState false None false 0 0 0.

(** [const resolveAndClear = () => { if (!resolved) { ... } }] *)
Definition resolveAndClear (h : State) : State :=
  if negb (resolved h) then
    match timeoutId h with
    | Some _ =>
        mkState true (timeoutId h) false (S (resolveCalls h))
                (S (clearCalls h)) (warnings h)
    | None =>
        mkState true (timeoutId h) (armed h) (S (resolveCalls h))
                (clearCalls h) (warnings h)
    end
  else h.

(** [const fallback = () => { if (!resolved) { console.warn(...);
    resolveAndClear(); } }] *)
Definition fallback (h : State) : State :=
  if negb (resolved h) then
    resolveAndClear
      (mkState (resolved h) (timeoutId h) (armed h) (resolveCalls h)
               (clearCalls h) (S (warnings h)))
  else h.

(** What the host does with [window.dispatchEvent(event)]: it raises, or
    it runs the listeners, which call [detail.resolve] some number of
    times before [dispatchEvent] returns. *)
Inductive Dispatch : Type :=
| DispatchRaises
| Delivered (syncAcks : nat).

(** What happens after the executor has returned: a listener calls
    [detail.resolve], or the 2000 ms of the timer have passed. *)
Inductive Late : Type :=
| Ack
| TimerFires.

Fixpoint iter (n : nat) (f : State -> State) (h : State) : State :=
  match n with
  | O => h
  | S k => iter k f (f h)
  end.

(** The [try { ... } catch (err) { ... }] of the executor. *)
Definition executor (d : Dispatch) : State :=
  match d with
  | DispatchRaises =>
      let h := initial in
      resolveAndClear
        (mkState (resolved h) (timeoutId h) (armed h) (resolveCalls h)
                 (clearCalls h) (S (warnings h)))
  | Delivered n =>
      let h := iter n resolveAndClear initial in
      mkState (resolved h) (Some HANDSHAKE_TIMEOUT_MS) true (resolveCalls h)
              (clearCalls h) (warnings h)
  end.

(** One later event.  The timer runs [fallback] only while it is armed,
    and is spent once it has fired. *)
Definition step (h : State) (ev : Late) : State :=
  match ev with
  | Ack => resolveAndClear h
  | TimerFires =>
      if armed h then
        fallback
          (mkState (resolved h) (timeoutId h) false (resolveCalls h)
                   (clearCalls h) (warnings h))
      else h
  end.

Definition run (d : Dispatch) (evs : list Late) : State :=
  fold_left step evs (executor d).

(** [await completion] returns once [resolve()] has run. *)
Definition completed (h : State) : bool := Nat.ltb 0 (resolveCalls h).

End Handshake.

(* ===================================================================== *)
(** * Numbers, configuration and construction *)
(* ===================================================================== *)

(** A JavaScript number that is read from the configuration: a finite
    value or [NaN].  Durations are in milliseconds. *)
Inductive num : Type :=
| NaN
| Fin (q : Q).

(** [typeof x === "number" && x >= bound]: the value when the test holds. *)
Definition numberAtLeast (bound : Q) (x : option num) : option Q :=
  match x with
  | Some (Fin q) => if Qle_bool bound q then Some q else None
  | _ => None
  end.

(** [typeof x === "number" && x > bound] *)
Definition numberAbove (bound : Q) (x : option num) : option Q :=
  match x with
  | Some (Fin q) => if Qle_bool q bound then None else Some q
  | _ => None
  end.

(** [x || dflt] for a number: [undefined], [NaN] and [0] give [dflt]. *)
Definition orElse (dflt : Q) (x : option num) : Q :=
  match x with
  | Some (Fin q) => if Qeq_bool q 0 then dflt else q
  | _ => dflt
  end.

(** [x || dflt] for a count. *)
Definition countOrElse (dflt : Z) (x : option Z) : Z :=
  match x with
  | Some z => if Z.eqb z 0 then dflt else z
  | None => dflt
  end.

Module Config.

(** Modelled from the spec: the declaration of [SimulationConfig] in
    [simulation/types.ts] is not among the sources.  The fields are the
    ones the class reads, all optional; counts are integers. *)
Record SimulationConfig : Type := mkConfig {
  problemDescription : option string;
  closeOnStop : bool;
  maxAssistantActions : option Z;
  humanFollowUpActions : option Z;
  maxActions : option Z;
  intervalMs : option num;
  durationMs : option num;
  assistantNoiseProbability : option num;
  assistantNoiseTopK : option num;
  assistantTemperature : option num;
  assistantEpsilon : option num;
  minActionDelayMs : option num;
  maxActionDelayMs : option num;
  postActionPauseMs : option num;
  minTypingDelayMs : option num;
  maxTypingDelayMs : option num
}.

(** The configuration [{}]. *)
Definition empty : SimulationConfig :=
  mkConfig None false None None None None None None None None None
           None None None None None.

End Config.

(** The private fields that only the constructor assigns. *)
Record Settings : Type := mkSettings {
  config : Config.SimulationConfig;
  problemDescription : option string;
  closeOnStop : bool;
  maxAssistantActions : option Z;
  humanFollowUpActions : Z;
  assistantNoiseProbability : Q;
  assistantNoiseTopK : Z;
  assistantTemperature : option Q;
  assistantEpsilon : option Q;
  minActionDelayMs : Q;
  maxActionDelayMs : Q;
  postActionPauseMs : Q;
  minTypingDelayMs : Q;
  maxTypingDelayMs : Q
}.

(** Lines 64-72. *)
Definition initAssistantLimit (c : Config.SimulationConfig) : option Z :=
  match Config.maxAssistantActions c with
  | Some n => Some (Z.max 0 n)
  | None => None
  end.

Definition initFollowUps (c : Config.SimulationConfig) : Z :=
  match Config.maxAssistantActions c with
  | Some _ =>
      Z.max 1 (match Config.humanFollowUpActions c with
               | Some provided => provided
               | None => 1
               end)
  | None =>
      match Config.humanFollowUpActions c with
      | Some provided => Z.max 0 provided
      | None =>
          match Config.maxActions c with
          | Some m => Z.max 0 m
          | None => 0
          end
      end
  end.

(** Lines 74-76. *)
Definition initNoiseProbability (c : Config.SimulationConfig) : Q :=
  match Config.assistantNoiseProbability c with
  | Some (Fin p) => Qmin (Qmax p 0) 1
  | _ => 0
  end%Q.

(** Lines 78-83. *)
Definition initNoiseTopK (c : Config.SimulationConfig) : Z :=
  match Config.assistantNoiseTopK c with
  | Some (Fin k) =>
      let candidate := Qfloor k in
      if Z.ltb 0 candidate then Z.min candidate 7 else 3
  | _ => 3
  end%Z.

(** [typeof x === "number" && x >= bound ? x : dflt] *)
Definition acceptAtLeast (bound dflt : Q) (x : option num) : Q :=
  match numberAtLeast bound x with
  | Some q => q
  | None => dflt
  end.

(** Lines 60-108. *)
Definition constructor (c : Config.SimulationConfig) : Settings :=
  let minAction := acceptAtLeast 0 350 (Config.minActionDelayMs c) in
  let minTyping := acceptAtLeast 0 45 (Config.minTypingDelayMs c) in
  mkSettings
    c
    (Config.problemDescription c)
    (Config.closeOnStop c)
    (initAssistantLimit c)
    (initFollowUps c)
    (initNoiseProbability c)
    (initNoiseTopK c)
    (numberAbove 0 (Config.assistantTemperature c))
    (numberAtLeast 0 (Config.assistantEpsilon c))
    minAction
    (acceptAtLeast minAction 900 (Config.maxActionDelayMs c))
    (acceptAtLeast 0 1400 (Config.postActionPauseMs c))
    minTyping
    (acceptAtLeast minTyping 130 (Config.maxTypingDelayMs c)).

(** [randomDelay(min, max)], with [u] the value of [Math.random()]. *)
Definition randomDelay (u : Q) (min max : Q) : Q :=
  if Qle_bool max min then min else (min + u * (max - min))%Q.

(* ===================================================================== *)
(** * The simulator object and its host *)
(* ===================================================================== *)

Inductive Actor : Type :=
| Human
| Assistant.

(** Modelled from the spec: [InferenceRequest] and [stateServiceClient]
    come from [services/stateService.ts], which is not among the sources.
    The request carries what the two turn methods put into it; the
    attribution log and the wall-clock timestamp are left out. *)
Record InferenceRequest : Type := mkRequest {
  text : string;
  author_attribution : Actor;
  req_timestep : Z;
  cursor_line : nat;
  cursor_column : nat;
  file_length : nat;
  cursorOffset : nat;
  sampleTopK : option Z;            (* assistantStrategyOverride + assistantTopK *)
  reqTemperature : option Q;
  reqEpsilon : option Q
}.

(** What an inference call gives back: it raises, it answers without
    [metadata.action], or it answers with
    [metadata.action = [actionIndex, targetLine]] and [response]. *)
Inductive Response : Type :=
| Rejected
| NoAction
| Action (actionIndex targetLine : Z) (response : string).

(** Commands sent to the editor. *)
Inductive EdCmd : Type :=
| CmdFocus
| CmdSetPosition (p : Position)
| CmdEdits (line fromColumn toColumn : nat) (text : string)
| CmdType (c : ascii).

(** What an observer of a run can see, in the order it happens. *)
Inductive Event : Type :=
| EvTurn (a : Actor)                       (* executeAction for that actor *)
| EvWait (ms : Q)                          (* a timer was awaited *)
| EvRequest (r : InferenceRequest)         (* an inference call was made *)
| EvPredicted (actionIndex line : Z)       (* 'predictedHumanAction' *)
| EvCommand (typing : bool) (c : EdCmd)    (* editor command, with isTyping *)
| EvStopping (h : Handshake.State)         (* 'zeroStyleSimulationStopping' *)
| EvClose                                  (* window.close() *)
| EvNavigateAway.                          (* location.href = "about:blank" *)

(** Modelled from the spec: [SimulationStats] is declared in
    [simulation/types.ts], which is not among the sources; the fields
    are those of the initialiser at lines 31-36 and of [stop()]. *)
Record SimulationStats : Type := mkStats {
  totalActions : nat;
  totalDurationMs : Q;
  episodesCreated : nat;
  agentSuggestionsReceived : nat;
  lastRunTime : option Q
}.

(** The host as far as the simulator can tell: the clock, the log of
    events, and how many suspensions, random draws and editor commands
    there have been. *)
Record World : Type := mkWorld {
  clock : Q;
  trace : list Event;
  suspensions : nat;
  draws : nat;
  commands : nat
}.

(** The fields of [StateServiceHumanSimulator]. *)
Record Simulator : Type := mkSimulator {
  settings : Settings;
  editor : option Editor;
  stats : SimulationStats;
  isRunning : bool;
  intervalId : option nat;
  startTime : Q;
  isProcessing : bool;
  isTyping : bool;
  timestep : Z;
  assistantActionsPerformed : nat;
  humanActionsPerformed : nat;
  world : World
}.

(** What the host decides. *)
Record Env : Type := mkEnv {
  random : nat -> Q;                  (* the n-th Math.random() *)
  stopRequested : nat -> bool;        (* stop() is called during suspension n *)
  editorFault : nat -> bool;          (* editor command n raises *)
  inference : InferenceRequest -> Response;
  latency : InferenceRequest -> Q;
  listener : nat -> Handshake.Dispatch * list Handshake.Late;
  closeRaises : bool                  (* window.close() raises *)
}.

Section Updates.

Variable s : Simulator.

Definition set_editor (e : option Editor) : Simulator :=
  mkSimulator (settings s) e (stats s) (isRunning s) (intervalId s)
    (startTime s) (isProcessing s) (isTyping s) (timestep s)
    (assistantActionsPerformed s) (humanActionsPerformed s) (world s).

Definition set_stats (st : SimulationStats) : Simulator :=
  mkSimulator (settings s) (editor s) st (isRunning s) (intervalId s)
    (startTime s) (isProcessing s) (isTyping s) (timestep s)
    (assistantActionsPerformed s) (humanActionsPerformed s) (world s).

Definition set_isRunning (b : bool) : Simulator :=
  mkSimulator (settings s) (editor s) (stats s) b (intervalId s)
    (startTime s) (isProcessing s) (isTyping s) (timestep s)
    (assistantActionsPerformed s) (humanActionsPerformed s) (world s).

Definition set_intervalId (i : option nat) : Simulator :=
  mkSimulator (settings s) (editor s) (stats s) (isRunning s) i
    (startTime s) (isProcessing s) (isTyping s) (timestep s)
    (assistantActionsPerformed s) (humanActionsPerformed s) (world s).

Definition set_startTime (t : Q) : Simulator :=
  mkSimulator (settings s) (editor s) (stats s) (isRunning s) (intervalId s)
    t (isProcessing s) (isTyping s) (timestep s)
    (assistantActionsPerformed s) (humanActionsPerformed s) (world s).

Definition set_isProcessing (b : bool) : Simulator :=
  mkSimulator (settings s) (editor s) (stats s) (isRunning s) (intervalId s)
    (startTime s) b (isTyping s) (timestep s)
    (assistantActionsPerformed s) (humanActionsPerformed s) (world s).

Definition set_isTyping (b : bool) : Simulator :=
  mkSimulator (settings s) (editor s) (stats s) (isRunning s) (intervalId s)
    (startTime s) (isProcessing s) b (timestep s)
    (assistantActionsPerformed s) (humanActionsPerformed s) (world s).

Definition set_timestep (t : Z) : Simulator :=
  mkSimulator (settings s) (editor s) (stats s) (isRunning s) (intervalId s)
    (startTime s) (isProcessing s) (isTyping s) t
    (assistantActionsPerformed s) (humanActionsPerformed s) (world s).

Definition set_assistantActionsPerformed (n : nat) : Simulator :=
  mkSimulator (settings s) (editor s) (stats s) (isRunning s) (intervalId s)
    (startTime s) (isProcessing s) (isTyping s) (timestep s)
    n (humanActionsPerformed s) (world s).

Definition set_humanActionsPerformed (n : nat) : Simulator :=
  mkSimulator (settings s) (editor s) (stats s) (isRunning s) (intervalId s)
    (startTime s) (isProcessing s) (isTyping s) (timestep s)
    (assistantActionsPerformed s) n (world s).

Definition set_world (w : World) : Simulator :=
  mkSimulator (settings s) (editor s) (stats s) (isRunning s) (intervalId s)
    (startTime s) (isProcessing s) (isTyping s) (timestep s)
    (assistantActionsPerformed s) (humanActionsPerformed s) w.

(** Append an event to the host's log. *)
Definition emit (ev : Event) : Simulator :=
  let w := world s in
  set_world (mkWorld (clock w) (trace w ++ [ev]) (suspensions w) (draws w)
                     (commands w)).

End Updates.

(** The object right after [new StateServiceHumanSimulator(config)]. *)
Definition create (c : Config.SimulationConfig) : Simulator :=
  mkSimulator (constructor c) None (mkStats 0 0 0 0 None) false None 0%Q
              false false 0%Z 0 0 (mkWorld 0 [] 0 0 0).

(** [setEditor(editor)] *)
Definition setEditor (e : option Editor) (s : Simulator) : Simulator :=
  set_editor s e.

(** [setInitialTimestep(timestep)] *)
Definition setInitialTimestep (t : Z) (s : Simulator) : Simulator :=
  set_timestep s (t + 1)%Z.

(** [getStats()] *)
Definition getStats (s : Simulator) : SimulationStats := stats s.

(* ===================================================================== *)
(** * Methods as computations *)
(* ===================================================================== *)

(** How a method ends. *)
Inductive Outcome (A : Type) : Type :=
| Returned (a : A)
| Raised.

Arguments Raised {A}.

(** A method body: it ends in an outcome and leaves the object changed,
    also when it raises. *)
Definition M (A : Type) : Type := Simulator -> Outcome A * Simulator.

Definition ret {A} (a : A) : M A := fun s => (Returned a, s).

Definition bind {A B} (m : M A) (k : A -> M B) : M B :=
  fun s =>
    match m s with
    | (Returned a, s1) => k a s1
    | (Raised, s1) => (Raised, s1)
    end.

Definition raise {A} : M A := fun s => (Raised, s).

(** [try { m } catch { h }] *)
Definition tryCatch {A} (m h : M A) : M A :=
  fun s =>
    match m s with
    | (Returned a, s1) => (Returned a, s1)
    | (Raised, s1) => h s1
    end.

(** [try { m } finally { f }] *)
Definition tryFinally {A} (m : M A) (f : M unit) : M A :=
  fun s =>
    match m s with
    | (r, s1) =>
        match f s1 with
        | (Returned _, s2) => (r, s2)
        | (Raised, s2) => (Raised, s2)
        end
    end.

(** Read the object. *)
Definition this : M Simulator := fun s => (Returned s, s).

(** Assign to the object. *)
Definition assign (f : Simulator -> Simulator) : M unit :=
  fun s => (Returned tt, f s).

(** [if (b) { m }] *)
Definition when (b : bool) (m : M unit) : M unit :=
  if b then m else ret tt.

Declare Scope method_scope.
Delimit Scope method_scope with method.

Notation "x <- m ;; k" := (bind m (fun x => k))
  (at level 61, m at next level, right associativity) : method_scope.
Notation "m ;; k" := (bind m (fun _ => k))
  (at level 61, right associativity) : method_scope.

Open Scope method_scope.

Section WithHost.

Variable env : Env.

(** [Date.now()] *)
Definition now : M Q := fun s => (Returned (clock (world s)), s).

(** [Math.random()] *)
Definition nextRandom : M Q :=
  fun s =>
    let w := world s in
    (Returned (random env (draws w)),
     set_world s (mkWorld (clock w) (trace w) (suspensions w) (S (draws w))
                          (commands w))).

(** [console.log] and the like leave no trace; the events of [Event] do. *)
Definition log (ev : Event) : M unit := assign (fun s => emit s ev).

(** ** stop(), lines 155-224 *)

(** Lines 160-169: what [stop()] does before its first [await]. *)
Definition stopSync (s : Simulator) : Simulator :=
  let t := clock (world s) in
  let s1 := set_isRunning s false in
  let s2 := set_isProcessing s1 false in
  let s3 := match intervalId s2 with
            | Some _ => set_intervalId s2 None
            | None => s2
            end in
  let st := stats s3 in
  set_stats s3
    (mkStats (totalActions st) (totalDurationMs st + (t - startTime s3))%Q
             (episodesCreated st) (agentSuggestionsReceived st) (Some t)).

(** Lines 216-223: what [stop()] does once the handshake has resolved. *)
Definition closeWindow : M unit :=
  s <- this ;;
  when (closeOnStop (settings s))
       (tryCatch (if closeRaises env then raise else log EvClose)
                 (log EvNavigateAway)).

(** The handshake of this call of [stop()]: the listener of the episode
    behaves as the host says, and in the end the timer's delay has passed. *)
Definition handshakeOf (s : Simulator) : Handshake.State :=
  let (d, later) := listener env (episodesCreated (stats s)) in
  Handshake.run d (later ++ [Handshake.TimerFires]).

Definition stop : M unit :=
  s <- this ;;
  if negb (isRunning s) then ret tt
  else
    assign stopSync ;;
    let h := handshakeOf s in
    log (EvStopping h) ;;
    (* await completion *)
    if Handshake.completed h then closeWindow else ret tt.

(** ** Suspension *)

(** [await] on a timer of [ms] milliseconds (a negative delay counts as
    none).  While the method is suspended the host may call [stop()]; what
    that call raises is not seen by the suspended method. *)
Definition suspend (ms : Q) : M unit :=
  fun s =>
    let w := world s in
    let s1 := set_world s (mkWorld (clock w + Qmax 0 ms)%Q
                                   (trace w ++ [EvWait ms])
                                   (S (suspensions w)) (draws w) (commands w)) in
    if stopRequested env (suspensions w)
    then (Returned tt, snd (stop s1))
    else (Returned tt, s1).

(** [simulateWait(durationMs)], lines 952-954 *)
Definition simulateWait (durationMs : Q) : M unit := suspend durationMs.

(** [randomDelay(min, max)], lines 577-580: [Math.random()] is called only
    when [max > min]. *)
Definition drawDelay (min max : Q) : M Q :=
  if Qle_bool max min then ret min
  else u <- nextRandom ;; ret (randomDelay u min max).

(** [humanlikeDelay()], lines 582-585 *)
Definition humanlikeDelay : M unit :=
  s <- this ;;
  delay <- drawDelay (minActionDelayMs (settings s))
                     (maxActionDelayMs (settings s)) ;;
  simulateWait delay.

(** ** Editor access *)

Definition applyCmd (c : EdCmd) (e : Editor) : Editor :=
  match c with
  | CmdFocus => e
  | CmdSetPosition p => Monaco.setPosition p e
  | CmdEdits n c1 c2 t => Monaco.executeEdits n c1 c2 t e
  | CmdType ch => Monaco.typeChar ch e
  end.

(** A call of a mutating method of [this.editor].  The call raises when
    there is no editor and when the host makes this command fail. *)
Definition command (c : EdCmd) : M unit :=
  fun s =>
    match editor s with
    | None => (Raised, s)
    | Some e =>
        let w := world s in
        let s1 := set_world s (mkWorld (clock w) (trace w) (suspensions w)
                                       (draws w) (S (commands w))) in
        if editorFault env (commands w) then (Raised, s1)
        else (Returned tt,
              emit (set_editor s1 (Some (applyCmd c e)))
                   (EvCommand (isTyping s) c))
    end.

(** [this.editor.getModel()!.getLineContent(n)] *)
Definition getLineContent (n : nat) : M string :=
  fun s =>
    match editor s with
    | None => (Raised, s)
    | Some e =>
        match Monaco.getLineContent e n with
        | Some l => (Returned l, s)
        | None => (Raised, s)
        end
    end.

(** [moveCursorToEndOfFile()], lines 868-878 *)
Definition moveCursorToEndOfFile : M unit :=
  s <- this ;;
  match editor s with
  | None => ret tt
  | Some e =>
      let lastLineNumber := Monaco.getLineCount e in
      lastLine <- getLineContent lastLineNumber ;;
      command (CmdSetPosition
                 (mkPosition lastLineNumber (String.length lastLine + 1)))
  end.

(** [simulateEditorClick()], lines 880-896 *)
Definition simulateEditorClick : M unit :=
  s <- this ;;
  match editor s with
  | None => ret tt
  | Some e =>
      command CmdFocus ;;
      let lastLineNumber := Monaco.getLineCount e in
      lastLine <- getLineContent lastLineNumber ;;
      command (CmdSetPosition
                 (mkPosition lastLineNumber (String.length lastLine + 1)))
  end.

(** ** Typing, lines 929-942 *)

(** The body of [for (const token of text.split(''))]. *)
Fixpoint typeEach (tokens : list ascii) : M unit :=
  match tokens with
  | [] => ret tt
  | token :: rest =>
      command (CmdType token) ;;
      s <- this ;;
      delay <- drawDelay (minTypingDelayMs (settings s))
                         (maxTypingDelayMs (settings s)) ;;
      suspend delay ;;
      typeEach rest
  end.

Definition simulateTypingWithDelay (txt : string) : M unit :=
  s <- this ;;
  match editor s with
  | None => ret tt
  | Some _ => typeEach (Js.chars txt)
  end.

(** The guarded typing that the source writes out four times (lines
    437-444, 450-457, 627-634 and 640-647):
    [if (!this.isTyping) { this.isTyping = true;
       try { await this.simulateTypingWithDelay(t) }
       finally { this.isTyping = false } }] *)
Definition typeUnderLock (txt : string) : M unit :=
  s <- this ;;
  when (negb (isTyping s))
       (assign (fun s => set_isTyping s true) ;;
        tryFinally (simulateTypingWithDelay txt)
                   (assign (fun s => set_isTyping s false))).

(** ** The edit applier, lines 587-865 *)

(** [getIndentationLevel(line)], lines 652-654 *)
Definition getIndentationLevel (line : string) : nat :=
  String.length line - String.length (Js.trimStart line).

(** [getIndentation(line)], lines 657-660 *)
Definition getIndentation (line : string) : string :=
  Js.prefix (getIndentationLevel line) line.

(** [lines.map((line, index) => index === 0 ? line.trim()
                                            : indentation + line)] *)
Definition indentLines (indentation : string) (ls : list string)
  : list string :=
  match ls with
  | [] => []
  | first :: rest =>
      Js.trim first :: map (fun line => (indentation ++ line)%string) rest
  end.

(** [formattedText] of lines 713-723 and, letter for letter, of lines
    773-783. *)
Definition formattedText (indentation responseText : string) : string :=
  Js.join Js.nlS (indentLines indentation (Js.split Js.nl responseText)).

(** [responseText.replace(/\n/g, ' ').trim()], lines 671 and 808 *)
Definition cleanText (responseText : string) : string :=
  Js.trim (Js.replaceNl responseText).

(** Action 1, [fillPartialLine], lines 663-683 *)
Definition fillPartialLine (responseText : string) (position : Position)
  : M unit :=
  s <- this ;;
  match editor s with
  | None => ret tt
  | Some _ =>
      if isTyping s then ret tt
      else
        assign (fun s => set_isTyping s true) ;;
        tryFinally
          (command (CmdSetPosition position) ;;
           simulateTypingWithDelay (cleanText responseText))
          (assign (fun s => set_isTyping s false))
  end.

(** Actions 2 and 3, [replaceAndAppendLine], lines 686-732 *)
Definition replaceAndAppendLine (responseText : string) (position : Position)
  : M unit :=
  s <- this ;;
  match editor s with
  | None => ret tt
  | Some _ =>
      if isTyping s then ret tt
      else
        assign (fun s => set_isTyping s true) ;;
        tryFinally
          (currentLine <- getLineContent (lineNumber position) ;;
           let indentation := getIndentation currentLine in
           command (CmdEdits (lineNumber position)
                             (String.length indentation + 1)
                             (String.length currentLine + 1) EmptyString) ;;
           command (CmdSetPosition
                      (mkPosition (lineNumber position)
                                  (String.length indentation + 1))) ;;
           simulateTypingWithDelay (formattedText indentation responseText))
          (assign (fun s => set_isTyping s false))
  end.

(** [targetLine < 1 || targetLine > model.getLineCount()] *)
Definition outOfBounds (targetLine : Z) (e : Editor) : bool :=
  (targetLine <? 1)%Z || (Z.of_nat (Monaco.getLineCount e) <? targetLine)%Z.

(** [this.editor.getPosition()] *)
Definition getPosition (e : Editor) : Position := cursor e.

(** Action 4, [editExistingLines], lines 735-794 *)
Definition editExistingLines (responseText : string) (targetLine : Z)
  : M unit :=
  s <- this ;;
  match editor s with
  | None => ret tt
  | Some e =>
      if isTyping s then ret tt
      else if outOfBounds targetLine e then
        replaceAndAppendLine responseText (getPosition e)
      else
        let target := Z.to_nat targetLine in
        assign (fun s => set_isTyping s true) ;;
        tryFinally
          (currentLine <- getLineContent target ;;
           let indentation := getIndentation currentLine in
           command (CmdEdits target
                             (String.length indentation + 1)
                             (String.length currentLine + 1) EmptyString) ;;
           command (CmdSetPosition
                      (mkPosition target (String.length indentation + 1))) ;;
           simulateTypingWithDelay (formattedText indentation responseText) ;;
           moveCursorToEndOfFile)
          (assign (fun s => set_isTyping s false))
  end.

(** [currentLine.trim() === '' ? `# ${c}` : ` # ${c}`], line 809 *)
Definition commentText (currentLine cleanComment : string) : string :=
  if String.eqb (Js.trim currentLine) EmptyString
  then ("# " ++ cleanComment)%string
  else (" # " ++ cleanComment)%string.

(** Action 5, [addInlineComment], lines 797-821 *)
Definition addInlineComment (responseText : string) (position : Position)
  : M unit :=
  s <- this ;;
  match editor s with
  | None => ret tt
  | Some _ =>
      if isTyping s then ret tt
      else
        assign (fun s => set_isTyping s true) ;;
        tryFinally
          (currentLine <- getLineContent (lineNumber position) ;;
           let cleanComment := cleanText responseText in
           command (CmdSetPosition
                      (mkPosition (lineNumber position)
                                  (String.length currentLine + 1))) ;;
           simulateTypingWithDelay (commentText currentLine cleanComment))
          (assign (fun s => set_isTyping s false))
  end.

(** [commentLines.map(line => `${indentation}# ${line.trim()}`)
       .join('\n') + '\n'], lines 851-854 *)
Definition formattedComment (indentation responseText : string) : string :=
  (Js.join Js.nlS
     (map (fun line => indentation ++ "# " ++ Js.trim line)
          (Js.split Js.nl responseText))
   ++ Js.nlS)%string.

(** Action 6, [addCommentAtLine], lines 824-865 *)
Definition addCommentAtLine (responseText : string) (targetLine : Z)
  : M unit :=
  s <- this ;;
  match editor s with
  | None => ret tt
  | Some e =>
      if isTyping s then ret tt
      else if outOfBounds targetLine e then
        addInlineComment responseText (getPosition e)
      else
        let target := Z.to_nat targetLine in
        assign (fun s => set_isTyping s true) ;;
        tryFinally
          (targetLineContent <- getLineContent target ;;
           let indentation := getIndentation targetLineContent in
           command (CmdSetPosition (mkPosition target 1)) ;;
           simulateTypingWithDelay (formattedComment indentation responseText) ;;
           moveCursorToEndOfFile)
          (assign (fun s => set_isTyping s false))
  end.

(** The [switch (actionIndex)] of [applyAction], lines 599-636. *)
Definition dispatchAction (actionIndex targetLine : Z) (responseText : string)
                          (currentPosition : Position) : M unit :=
  match actionIndex with
  | 0%Z => ret tt
  | 1%Z => fillPartialLine responseText currentPosition
  | 2%Z | 3%Z => replaceAndAppendLine responseText currentPosition
  | 4%Z => editExistingLines responseText targetLine
  | 5%Z => addInlineComment responseText currentPosition
  | 6%Z => addCommentAtLine responseText targetLine
  | _ => typeUnderLock responseText
  end.

(** [applyAction], lines 587-649 *)
Definition applyAction (actionIndex targetLine : Z) (responseText : string)
                       (currentPosition : Position) : M unit :=
  s <- this ;;
  match editor s with
  | None => ret tt
  | Some _ =>
      tryCatch
        (dispatchAction actionIndex targetLine responseText currentPosition)
        (typeUnderLock Js.nlS)
  end.

(** ** Turns, lines 333-575 *)

(** The problem block of lines 362-375 (and again 489-498): the text sent
    to the service, the length of the block put in front of it and the
    number of lines of that block. *)
Definition problemBlock (description : string) : string :=
  ("'''" ++ Js.nlS ++ "Problem: " ++ description ++ Js.nlS
   ++ "'''" ++ Js.nlS)%string.

Definition withProblemBlock (description : option string) (content : string)
  : string * nat * nat :=
  match description with
  | Some d =>
      if negb (String.eqb d EmptyString) && negb (Js.includes d content) then
        let block := problemBlock d in
        ((block ++ content)%string,
         String.length block,
         List.length (Js.split Js.nl block) - 1)
      else (content, 0, 0)
  | None => (content, 0, 0)
  end.

(** [problemBlockOffset > 0 ? Math.max(1, targetLine - problemBlockLines)
                            : targetLine], lines 417-420 *)
Definition adjustTargetLine (offset blockLines : nat) (targetLine : Z) : Z :=
  if Nat.ltb 0 offset then Z.max 1 (targetLine - Z.of_nat blockLines)
  else targetLine.

(** [await stateServiceClient.generateInference...(request)] *)
Definition callInference (request : InferenceRequest) : M Response :=
  log (EvRequest request) ;;
  suspend (latency env request) ;;
  match inference env request with
  | Rejected => raise
  | answer => ret answer
  end.

(** [shouldInjectAssistantNoise()], lines 573-575 *)
Definition shouldInjectAssistantNoise : M bool :=
  s <- this ;;
  let p := assistantNoiseProbability (settings s) in
  if Qle_bool p 0 then ret false
  else u <- nextRandom ;; ret (negb (Qle_bool p u)).

(** [generateAndApplyHumanAction()], lines 333-463 *)
Definition generateAndApplyHumanAction : M unit :=
  s <- this ;;
  match editor s with
  | None => ret tt
  | Some _ =>
      if isProcessing s then ret tt
      else
        tryFinally
          (tryCatch
             (assign (fun s => set_isProcessing s true) ;;
              humanlikeDelay ;;
              s <- this ;;
              match editor s with
              | None => raise
              | Some e =>
                  let position := getPosition e in
                  let '(fullFileContent, problemBlockOffset, problemBlockLines) :=
                    withProblemBlock (problemDescription (settings s))
                                     (Monaco.getValue e) in
                  let currentTimestep := timestep s in
                  assign (fun s => set_timestep s (timestep s + 1)%Z) ;;
                  answer <- callInference
                    (mkRequest fullFileContent Human currentTimestep
                       (lineNumber position + problemBlockLines)
                       (column position)
                       (String.length fullFileContent)
                       (Monaco.getOffsetAt e position + problemBlockOffset)
                       None None None) ;;
                  match answer with
                  | Action actionIndex targetLine responseText =>
                      let adjustedTargetLine :=
                        adjustTargetLine problemBlockOffset problemBlockLines
                                         targetLine in
                      log (EvPredicted actionIndex adjustedTargetLine) ;;
                      applyAction actionIndex adjustedTargetLine responseText
                                  position
                  | _ => typeUnderLock Js.nlS
                  end
              end)
             (typeUnderLock Js.nlS))
          (assign (fun s => set_isProcessing s false) ;;
           s <- this ;;
           simulateWait (postActionPauseMs (settings s)))
  end.

(** [this.assistantTemperature && this.assistantTemperature > 0] *)
Definition positive (x : option Q) : option Q :=
  match x with
  | Some q => if Qle_bool q 0 then None else Some q
  | None => None
  end.

(** [this.assistantEpsilon !== null && this.assistantEpsilon >= 0] *)
Definition nonNegative (x : option Q) : option Q :=
  match x with
  | Some q => if Qle_bool 0 q then Some q else None
  | None => None
  end.

(** [generateAndApplyAssistantAction()], lines 465-571 *)
Definition generateAndApplyAssistantAction : M unit :=
  s <- this ;;
  match editor s with
  | None => ret tt
  | Some _ =>
      if isProcessing s then ret tt
      else
        tryFinally
          (tryCatch
             (assign (fun s => set_isProcessing s true) ;;
              humanlikeDelay ;;
              s <- this ;;
              match editor s with
              | None => raise
              | Some e =>
                  let position := getPosition e in
                  let '(fullFileContent, problemBlockOffset, problemBlockLines) :=
                    withProblemBlock (problemDescription (settings s))
                                     (Monaco.getValue e) in
                  let currentTimestep := timestep s in
                  assign (fun s => set_timestep s (timestep s + 1)%Z) ;;
                  explorationEnabled <- shouldInjectAssistantNoise ;;
                  let topK :=
                    if explorationEnabled
                    then Some (Z.max 1 (Z.min (assistantNoiseTopK (settings s)) 7))
                    else None in
                  answer <- callInference
                    (mkRequest fullFileContent Assistant currentTimestep
                       (lineNumber position + problemBlockLines)
                       (column position)
                       (String.length fullFileContent)
                       (Monaco.getOffsetAt e position + problemBlockOffset)
                       topK
                       (positive (assistantTemperature (settings s)))
                       (nonNegative (assistantEpsilon (settings s)))) ;;
                  match answer with
                  | Action actionIndex targetLine responseText =>
                      applyAction actionIndex
                        (adjustTargetLine problemBlockOffset problemBlockLines
                                          targetLine)
                        responseText position
                  | _ => ret tt
                  end
              end)
             (ret tt))
          (assign (fun s => set_isProcessing s false) ;;
           s <- this ;;
           simulateWait (postActionPauseMs (settings s)))
  end.

(** ** executeAction, lines 301-331 *)

(** Modelled from the spec: [SimulationAction] is declared in
    [simulation/types.ts], which is not among the sources; the variants
    are the cases of the [switch] in [executeAction], each with the part
    of the payload that case reads. *)
Inductive SimulationAction : Type :=
| StateServiceHuman
| StateServiceAssistant
| TypeText (payloadText : option string)
| CursorMove (payloadPosition : option Position)
| Wait (payloadDurationMs : option Q).

(** [simulateTyping(text)], lines 898-927 *)
Definition simulateTyping (txt : string) : M unit :=
  s <- this ;;
  match editor s with
  | None => ret tt
  | Some e =>
      let position := getPosition e in
      command (CmdEdits (lineNumber position) (column position)
                        (column position) txt) ;;
      let pieces := Js.split Js.nl txt in
      let newPosition :=
        if Nat.ltb 1 (List.length pieces)
        then mkPosition (lineNumber position + (List.length pieces - 1))
                        (String.length (last pieces EmptyString) + 1)
        else mkPosition (lineNumber position)
                        (column position + String.length txt) in
      command (CmdSetPosition newPosition)
  end.

(** [simulateCursorMove(position)], lines 944-950 *)
Definition simulateCursorMove (position : Position) : M unit :=
  s <- this ;;
  match editor s with
  | None => ret tt
  | Some _ => command (CmdSetPosition position)
  end.

Definition bumpTotalActions (s : Simulator) : Simulator :=
  let st := stats s in
  set_stats s (mkStats (S (totalActions st)) (totalDurationMs st)
                       (episodesCreated st) (agentSuggestionsReceived st)
                       (lastRunTime st)).

Definition executeAction (action : SimulationAction) : M unit :=
  s <- this ;;
  match editor s with
  | None => ret tt
  | Some _ =>
      match action with
      | StateServiceHuman =>
          log (EvTurn Human) ;; generateAndApplyHumanAction
      | StateServiceAssistant =>
          log (EvTurn Assistant) ;; generateAndApplyAssistantAction
      | TypeText (Some t) =>
          when (negb (String.eqb t EmptyString)) (simulateTyping t)
      | CursorMove (Some p) => simulateCursorMove p
      | Wait (Some d) => when (negb (Qeq_bool d 0)) (simulateWait d)
      | _ => ret tt
      end ;;
      assign bumpTotalActions
  end.

(** ** The paired schedule, lines 256-299 *)

Inductive Flow : Type :=
| Next
| Break.

(** [for (let i = first; i < first + n && this.isRunning; i += 1) body],
    where the body may [break]. *)
Fixpoint forWhileRunning (n : nat) (i : Z) (body : Z -> M Flow) : M unit :=
  match n with
  | O => ret tt
  | S n' =>
      s <- this ;;
      if isRunning s then
        flow <- body i ;;
        match flow with
        | Break => ret tt
        | Next => forWhileRunning n' (i + 1)%Z body
        end
      else ret tt
  end.

(** [if (!this.isRunning) break;] followed by the rest of the body. *)
Definition breakUnlessRunning (rest : M Flow) : M Flow :=
  s <- this ;;
  if negb (isRunning s) then ret Break else rest.

(** Lines 257-259. *)
Definition sequenceIntervalMs (s : Simulator) : Q :=
  orElse 2500 (Config.intervalMs (config (settings s))).

Definition sequenceAssistantLimit (s : Simulator) : Z :=
  match maxAssistantActions (settings s) with
  | Some n => n
  | None => 0%Z
  end.

Definition sequenceFollowUpHumans (s : Simulator) : Z :=
  Z.max 1 (humanFollowUpActions (settings s)).

(** [intervalMs > 0] *)
Definition isPositive (q : Q) : bool := negb (Qle_bool q 0).

(** Lines 264-276: one human turn and one assistant turn. *)
Definition pairBody (intervalMs : Q) (assistantLimit followUpHumans : Z)
                    (i : Z) : M Flow :=
  executeAction StateServiceHuman ;;
  assign (fun s => set_humanActionsPerformed s (S (humanActionsPerformed s))) ;;
  breakUnlessRunning
    (when (isPositive intervalMs) (simulateWait intervalMs) ;;
     breakUnlessRunning
       (executeAction StateServiceAssistant ;;
        assign (fun s => set_assistantActionsPerformed s
                           (S (assistantActionsPerformed s))) ;;
        breakUnlessRunning
          (when (isPositive intervalMs
                 && ((i <? assistantLimit - 1)%Z || (0 <? followUpHumans)%Z))
                (simulateWait intervalMs) ;;
           ret Next))).

(** Lines 281-286: one follow-up human turn. *)
Definition followUpBody (intervalMs : Q) (followUpHumans : Z) (j : Z)
  : M Flow :=
  executeAction StateServiceHuman ;;
  assign (fun s => set_humanActionsPerformed s (S (humanActionsPerformed s))) ;;
  breakUnlessRunning
    (when (isPositive intervalMs && (j <? followUpHumans - 1)%Z)
          (simulateWait intervalMs) ;;
     ret Next).

(** [runSequence], lines 261-296, with the three constants of lines
    257-259 read when [startZeroStyleSequence] is entered. *)
Definition runSequence (intervalMs : Q) (assistantLimit followUpHumans : Z)
  : M unit :=
  tryFinally
    (tryCatch
       (forWhileRunning (Z.to_nat assistantLimit) 0
                        (pairBody intervalMs assistantLimit followUpHumans) ;;
        s <- this ;;
        when (isRunning s)
             (forWhileRunning (Z.to_nat followUpHumans) 0
                              (followUpBody intervalMs followUpHumans)))
       (ret tt))
    (s <- this ;; when (isRunning s) stop).

(** [startZeroStyleSequence()].  The source starts [runSequence] and
    returns; here the sequence is followed to its end. *)
Definition startZeroStyleSequence : M unit :=
  s <- this ;;
  runSequence (sequenceIntervalMs s) (sequenceAssistantLimit s)
              (sequenceFollowUpHumans s).

(** ** The free-running schedule, lines 226-254 *)

(** The callback given to [setInterval], with its counter [actionCount]. *)
Definition periodicTick (actionCount : Z) : M Z :=
  s <- this ;;
  let maxActions := countOrElse 50 (Config.maxActions (config (settings s))) in
  let duration := orElse 300000 (Config.durationMs (config (settings s))) in
  if negb (isRunning s) || match editor s with None => true | Some _ => false end
  then stop ;; ret actionCount
  else if (maxActions <=? actionCount)%Z
          || Qle_bool duration (clock (world s) - startTime s)
  then stop ;; ret actionCount
  else executeAction StateServiceHuman ;; ret (actionCount + 1)%Z.

(** [startPeriodicHumanSimulation()]: the timer is armed; its ticks are
    calls of [periodicTick] by the host. *)
Definition startPeriodicHumanSimulation : M unit :=
  assign (fun s => set_intervalId s (Some 1)).

(** ** start(), lines 132-153 *)

Definition start : M unit :=
  s <- this ;;
  match editor s with
  | None => ret tt
  | Some _ =>
      if isRunning s then ret tt
      else
        assign (fun s => set_isRunning s true) ;;
        t <- now ;;
        assign (fun s => set_startTime s t) ;;
        assign (fun s =>
                  let st := stats s in
                  set_stats s (mkStats (totalActions st) (totalDurationMs st)
                                       (S (episodesCreated st))
                                       (agentSuggestionsReceived st)
                                       (lastRunTime st))) ;;
        simulateEditorClick ;;
        s <- this ;;
        match maxAssistantActions (settings s) with
        | Some n =>
            if (0 <? n)%Z then startZeroStyleSequence
            else startPeriodicHumanSimulation
        | None => startPeriodicHumanSimulation
        end
  end.

End WithHost.

(* ===================================================================== *)
(** * Invariants, observations and concrete inputs *)
(* ===================================================================== *)

(** What holds of the executor's variables at every moment: [resolve()]
    has run once if [resolved] is set and never otherwise, and while the
    handshake is unresolved its timer is armed under a recorded id. *)
Definition consistent (h : Handshake.State) : Prop :=
  Handshake.resolveCalls h = (if Handshake.resolved h then 1 else 0)
  /\ (Handshake.resolved h = false ->
      Handshake.armed h = true /\ Handshake.timeoutId h <> None).



(** ** What a log shows *)

(** The editor commands of a log, oldest first. *)
Definition commandsIn (tr : list Event) : list EdCmd :=
  flat_map (fun ev => match ev with EvCommand _ c => [c] | _ => [] end) tr.

(** The turns of a log, oldest first. *)
Definition turnsIn (tr : list Event) : list Actor :=
  flat_map (fun ev => match ev with EvTurn a => [a] | _ => [] end) tr.

(** The characters typed in a log, oldest first. *)
Definition typedIn (tr : list Event) : list ascii :=
  flat_map (fun ev => match ev with
                      | EvCommand _ (CmdType c) => [c]
                      | _ => []
                      end) tr.

(** An event that is no editor command issued without the typing lock. *)
Definition underLock (ev : Event) : Prop :=
  match ev with
  | EvCommand typing _ => typing = true
  | _ => True
  end.

(** The events [stop()] adds to the log. *)
Definition stopEvent (ev : Event) : Prop :=
  match ev with
  | EvStopping _ | EvClose | EvNavigateAway => True
  | _ => False
  end.

(** ** Relations between the object before and after a method *)

(** [m] relates every object to what it leaves behind by [R], whether it
    returns or raises. *)
Definition sound (R : Simulator -> Simulator -> Prop) {A} (m : M A) : Prop :=
  forall s, R s (snd (m s)).





(** Nothing the typing looks at has changed: the editor, the lock, the
    settings, the count of editor commands and the commands in the log. *)
Definition sameDesk (s s' : Simulator) : Prop :=
  editor s' = editor s
  /\ isTyping s' = isTyping s
  /\ settings s' = settings s
  /\ commands (world s') = commands (world s)
  /\ commandsIn (trace (world s')) = commandsIn (trace (world s)).

(** ** The typing-path operations of the edit applier *)

Inductive EditOp : Type :=
| FillPartialLine (responseText : string) (position : Position)
| ReplaceAndAppendLine (responseText : string) (position : Position)
| EditExistingLines (responseText : string) (targetLine : Z)
| AddInlineComment (responseText : string) (position : Position)
| AddCommentAtLine (responseText : string) (targetLine : Z)
| FallbackTyping (responseText : string)
| ApplyAction (actionIndex targetLine : Z) (responseText : string)
              (currentPosition : Position).

Definition runEditOp (env : Env) (op : EditOp) : M unit :=
  match op with
  | FillPartialLine t p => fillPartialLine env t p
  | ReplaceAndAppendLine t p => replaceAndAppendLine env t p
  | EditExistingLines t n => editExistingLines env t n
  | AddInlineComment t p => addInlineComment env t p
  | AddCommentAtLine t n => addCommentAtLine env t n
  | FallbackTyping t => typeUnderLock env t
  | ApplyAction i n t p => applyAction env i n t p
  end.

(** ** Concrete hosts, documents and objects *)

(** A host in which nothing goes wrong: no call of [stop()] from outside,
    no editor fault, every inference without an action, a listener that
    never acknowledges. *)
Definition quietHost : Env :=
  mkEnv (fun _ => 0%Q) (fun _ => false) (fun _ => false) (fun _ => NoAction)
        (fun _ => 0%Q) (fun _ => (Handshake.Delivered 0, [])) false.

(** A host whose service answers every request with the given action. *)
Definition answeringHost (actionIndex targetLine : Z) (response : string)
  : Env :=
  mkEnv (fun _ => 0%Q) (fun _ => false) (fun _ => false)
        (fun _ => Action actionIndex targetLine response)
        (fun _ => 0%Q) (fun _ => (Handshake.Delivered 0, [])) false.

(** A host whose editor fails at command [k]. *)
Definition faultyHost (k : nat) : Env :=
  mkEnv (fun _ => 0%Q) (fun _ => false) (fun n => Nat.eqb n k)
        (fun _ => NoAction)
        (fun _ => 0%Q) (fun _ => (Handshake.Delivered 0, [])) false.

(** A host whose editor fails at every command. *)
Definition brokenEditorHost : Env :=
  mkEnv (fun _ => 0%Q) (fun _ => false) (fun _ => true) (fun _ => NoAction)
        (fun _ => 0%Q) (fun _ => (Handshake.Delivered 0, [])) false.

(** A host that calls [stop()] during suspension [k]. *)
Definition stoppingHost (k : nat) : Env :=
  mkEnv (fun _ => 0%Q) (fun n => Nat.eqb n k) (fun _ => false)
        (fun _ => NoAction)
        (fun _ => 0%Q) (fun _ => (Handshake.Delivered 1, [])) false.

(** The document ["def f():\n    pass\n"] with the cursor at (2, 9). *)
Definition sampleEditor : Editor :=
  mkEditor ["def f():"; "    pass"; EmptyString]%string (mkPosition 2 9).

(** A fresh simulator with the sample document attached. *)
Definition sampleSimulator : Simulator :=
  setEditor (Some sampleEditor) (create Config.empty).

(** The same while a typing animation is under way. *)
Definition typingSimulator : Simulator := set_isTyping sampleSimulator true.

(** The same while a turn is in flight. *)
Definition busySimulator : Simulator :=
  set_isProcessing (set_isRunning sampleSimulator true) true.

(** The configuration [{ maxAssistantActions: n, humanFollowUpActions: m }]. *)
Definition pairedConfig (n m : Z) : Config.SimulationConfig :=
  Config.mkConfig None false (Some n) (Some m) None None None None None
                  None None None None None None None.

(** A simulator built from [pairedConfig n m], with the sample document
    attached, that [start()] has just set running. *)
Definition pairedSimulator (n m : Z) : Simulator :=
  set_isRunning (setEditor (Some sampleEditor) (create (pairedConfig n m))) true.

(** The editor after the characters [cs] have been typed one by one. *)
Definition typeAll (cs : list ascii) (e : Editor) : Editor :=
  fold_left (fun e c => Monaco.typeChar c e) cs e.

(** The editor once line [n] has been cut back to [indentation] and the
    cursor put right behind it. *)
Definition clearedAt (n : nat) (indentation : string) (e : Editor) : Editor :=
  mkEditor (Monaco.spliceLine n [indentation] (lines e))
           (mkPosition n (String.length indentation + 1)).

(** Following the spec's words for REPLACE_AND_APPEND: the payload "with
    its first line trimmed of leading whitespace and subsequent lines
    re-indented to match the original line's indentation". *)
Definition specFormattedText (indentation responseText : string) : string :=
  Js.join Js.nlS
    (match Js.split Js.nl responseText with
     | [] => []
     | first :: rest =>
         Js.trimStart first
         :: map (fun line => (indentation ++ line)%string) rest
     end).


(** [n] human-then-assistant pairs followed by [m] human turns. *)
Definition pairedTurns (n m : nat) : list Actor :=
  List.concat (repeat [Human; Assistant] n) ++ repeat Human m.

(* ===================================================================== *)
(** * Further notions used to state what the code does *)
(* ===================================================================== *)

(** The editor whose cursor stands between [before] and [after] on one
    line, with the lines [above] in front of that line and [below] behind
    it. *)
Definition editorAt (above : list string) (before after : string)
                    (below : list string) : Editor :=
  mkEditor (above ++ (before ++ after)%string :: below)
           (mkPosition (S (List.length above)) (S (String.length before))).

(** The editor [editorAt above before after below] once a text with the
    lines [pieces] has been put in at the cursor. *)
Definition insertedAt (above : list string) (before after : string)
                      (below : list string) (pieces : list string) : Editor :=
  match pieces with
  | [] => editorAt above before after below
  | [p] => editorAt above (before ++ p) after below
  | p :: rest =>
      editorAt (above ++ (before ++ p)%string :: removelast rest)
               (last rest EmptyString) after below
  end.

(** The cursor is on an existing line, at a column of that line or right
    behind its end. *)
Definition validCursor (e : Editor) : Prop :=
  exists line,
    Monaco.getLineContent e (lineNumber (cursor e)) = Some line
    /\ 1 <= column (cursor e) <= String.length line + 1.

(** The string contains a line feed. *)
Fixpoint hasNl (s : string) : bool :=
  match s with
  | EmptyString => false
  | String c r => Ascii.eqb c Js.nl || hasNl r
  end.

(** Every character of the string is white space. *)
Fixpoint allWhite (s : string) : bool :=
  match s with
  | EmptyString => true
  | String c r => Js.isWhite c && allWhite r
  end.

(** The end of the document: the last line, behind its last character. *)
Definition endOfFile (e : Editor) : Position :=
  mkPosition (Monaco.getLineCount e)
             (String.length (Monaco.lineOr e (Monaco.getLineCount e)) + 1).

(** The position [simulateTyping] computes for the cursor, lines 912-923. *)
Definition positionAfter (position : Position) (txt : string) : Position :=
  let pieces := Js.split Js.nl txt in
  if Nat.ltb 1 (List.length pieces)
  then mkPosition (lineNumber position + (List.length pieces - 1))
                  (String.length (last pieces EmptyString) + 1)
  else mkPosition (lineNumber position)
                  (column position + String.length txt).

(** The text of the lines [above], each followed by a line feed. *)
Definition textAbove (above : list string) : string :=
  fold_right (fun l acc => (l ++ Js.nlS ++ acc)%string) EmptyString above.

(** The text of the lines [below], each preceded by a line feed. *)
Definition textBelow (below : list string) : string :=
  fold_right (fun l acc => (Js.nlS ++ l ++ acc)%string) EmptyString below.

(** The lines that take the place of a line indented by [indentation]
    when the payload [responseText] replaces its content: the first
    payload line trimmed, every payload line behind the indentation. *)
Definition replacementLines (indentation responseText : string) : list string :=
  match Js.split Js.nl responseText with
  | [] => []
  | first :: rest =>
      (indentation ++ Js.trim first)%string
      :: map (fun l => (indentation ++ l)%string) rest
  end.

(** The comment lines [addCommentAtLine] puts in front of a line
    indented by [indentation]. *)
Definition commentLines (indentation responseText : string) : list string :=
  map (fun l => (indentation ++ "# " ++ Js.trim l)%string)
      (Js.split Js.nl responseText).

(** The inference requests of a log, oldest first. *)
Definition requestsIn (tr : list Event) : list InferenceRequest :=
  flat_map (fun ev => match ev with EvRequest r => [r] | _ => [] end) tr.

(** What no step inside the application of an action changes: the
    settings, the presence of an editor, the timestep, the counters of
    the sequence, the turns and requests in the log, the count of
    actions and of episodes, and the start time. *)
Definition insideAction (s s' : Simulator) : Prop :=
  settings s' = settings s
  /\ (editor s <> None -> editor s' <> None)
  /\ timestep s' = timestep s
  /\ humanActionsPerformed s' = humanActionsPerformed s
  /\ assistantActionsPerformed s' = assistantActionsPerformed s
  /\ turnsIn (trace (world s')) = turnsIn (trace (world s))
  /\ requestsIn (trace (world s')) = requestsIn (trace (world s))
  /\ totalActions (stats s') = totalActions (stats s)
  /\ episodesCreated (stats s') = episodesCreated (stats s)
  /\ startTime s' = startTime s.

(** The processing lock is free afterwards if it was free before. *)
Definition keepsProcessingFree (s s' : Simulator) : Prop :=
  isProcessing s = false -> isProcessing s' = false.

(** Turns have been added to the log, and the count of actions has grown
    by their number. *)
Definition countsTurns (s s' : Simulator) : Prop :=
  exists t,
    turnsIn (trace (world s')) = turnsIn (trace (world s)) ++ t
    /\ totalActions (stats s') = totalActions (stats s) + List.length t.

(** The action that asks for a turn of the given actor. *)
Definition actionOf (actor : Actor) : SimulationAction :=
  match actor with
  | Human => StateServiceHuman
  | Assistant => StateServiceAssistant
  end.

(** [stats.episodesCreated += 1], line 139 *)
Definition bumpEpisodes (s : Simulator) : Simulator :=
  let st := stats s in
  set_stats s (mkStats (totalActions st) (totalDurationMs st)
                       (S (episodesCreated st)) (agentSuggestionsReceived st)
                       (lastRunTime st)).

(** What no step inside a turn changes: the settings, the presence of an
    editor, the counters of the sequence, the turns in the log, the
    count of actions and of episodes, and the start time. *)
Definition insideTurn (s s' : Simulator) : Prop :=
  settings s' = settings s
  /\ (editor s <> None -> editor s' <> None)
  /\ humanActionsPerformed s' = humanActionsPerformed s
  /\ assistantActionsPerformed s' = assistantActionsPerformed s
  /\ turnsIn (trace (world s')) = turnsIn (trace (world s))
  /\ totalActions (stats s') = totalActions (stats s)
  /\ episodesCreated (stats s') = episodesCreated (stats s)
  /\ startTime s' = startTime s.

(** From a running simulator with an editor, [m] attempts the turns
    [turns] and returns [a] with the simulator still running, or it is
    cut short (it raises, or the simulator has been stopped) after some
    of these turns, in their order. *)
Definition cutShort (turns : list Actor) {A} (a : A) (m : M A) : Prop :=
  forall s,
    isRunning s = true ->
    editor s <> None ->
    editor (snd (m s)) <> None
    /\ exists t,
         turnsIn (trace (world (snd (m s)))) = turnsIn (trace (world s)) ++ t
         /\ ((fst (m s) = Returned a
              /\ isRunning (snd (m s)) = true
              /\ t = turns)
             \/ ((fst (m s) = Raised \/ isRunning (snd (m s)) = false)
                 /\ exists rest, t ++ rest = turns)).

(** From a stopped simulator, [m] attempts no turn and leaves the
    simulator stopped. *)
Definition idle {A} (m : M A) : Prop :=
  forall s,
    isRunning s = false ->
    editor s <> None ->
    isRunning (snd (m s)) = false
    /\ editor (snd (m s)) <> None
    /\ turnsIn (trace (world (snd (m s)))) = turnsIn (trace (world s)).

(** The settings are as they were and the clock has not gone back. *)
Definition keepsPace (s s' : Simulator) : Prop :=
  settings s' = settings s
  /\ (clock (world s) <= clock (world s'))%Q.

(* ===================================================================== *)
(** * The model on concrete inputs *)
(* ===================================================================== *)

Module StringTests.
Import Js.
Local Open Scope string_scope.

Example trim_both_ends : trim "  a b  " = "a b".
Proof. reflexivity. Qed.

Example trimStart_keeps_tail : trimStart "  a b  " = "a b  ".
Proof. reflexivity. Qed.

Example split_empty : split nl EmptyString = [EmptyString].
Proof. reflexivity. Qed.

Example split_two : split nl ("ab" ++ nlS ++ "c") = ["ab"; "c"].
Proof. reflexivity. Qed.

Example split_trailing : split nl ("ab" ++ nlS) = ["ab"; EmptyString].
Proof. reflexivity. Qed.

Example type_newline :
  Monaco.typeChar nl (mkEditor ["abcd"] (mkPosition 1 3))
  = mkEditor ["ab"; "cd"] (mkPosition 2 1).
Proof. reflexivity. Qed.

End StringTests.

(* ===================================================================== *)
(** * Construction: clamping of the configuration *)
(* ===================================================================== *)

Section Construction.

Local Open Scope Q_scope.







End Construction.






(* ===================================================================== *)
(** * The shutdown handshake resolves once, and always *)
(* ===================================================================== *)

Section HandshakeFacts.

Import Handshake.

Lemma resolveAndClear_resolved (h : State) :
  resolved (resolveAndClear h) = true.
Proof.
  unfold resolveAndClear.
  destruct (resolved h) eqn:Hr; cbn; [assumption|].
  destruct (timeoutId h); reflexivity.
Qed.

Lemma resolveAndClear_calls (h : State) :
  resolveCalls (resolveAndClear h)
  = if resolved h then resolveCalls h else S (resolveCalls h).
Proof.
  unfold resolveAndClear.
  destruct (resolved h); cbn; [reflexivity|].
  destruct (timeoutId h); reflexivity.
Qed.

Lemma resolveAndClear_disarms (h : State) :
  resolved h = false -> timeoutId h <> None ->
  armed (resolveAndClear h) = false.
Proof.
  intros Hr Ht. unfold resolveAndClear. rewrite Hr. cbn.
  destruct (timeoutId h); [reflexivity | congruence].
Qed.

Lemma resolveAndClear_idle (h : State) :
  resolved h = true -> resolveAndClear h = h.
Proof. intros Hr. unfold resolveAndClear. rewrite Hr. reflexivity. Qed.

Lemma fallback_idle (h : State) :
  resolved h = true -> fallback h = h.
Proof. intros Hr. unfold fallback. rewrite Hr. reflexivity. Qed.

Lemma iter_resolveAndClear_resolved (n : nat) (h : State) :
  resolved h = true -> iter n resolveAndClear h = h.
Proof.
  revert h. induction n as [|n IH]; intros h Hr; cbn; [reflexivity|].
  rewrite (resolveAndClear_idle h Hr). apply IH. assumption.
Qed.

Lemma iter_resolveAndClear_initial (n : nat) :
  iter n resolveAndClear initial
  = match n with
    | O => initial
    | S _ => mkState true None false 1 0 0
    end.
Proof.
  destruct n as [|n]; [reflexivity|].
  cbn. apply iter_resolveAndClear_resolved. reflexivity.
Qed.

Lemma executor_consistent (d : Dispatch) : consistent (executor d).
Proof.
  destruct d as [|n]; cbn.
  - split; [reflexivity | discriminate].
  - rewrite iter_resolveAndClear_initial.
    destruct n; cbn; (split; [reflexivity | intros Hr; split; [reflexivity || discriminate Hr | discriminate || discriminate Hr]]).
Qed.

(** Case analysis on the executor's variables and on the event. *)
Ltac by_cases h ev :=
  destruct h as [r t a n c w]; unfold consistent in *; cbn in *;
  destruct ev; destruct r; destruct a; destruct t;
  unfold step, fallback, resolveAndClear; cbn in *;
  repeat match goal with
         | H : _ /\ _ |- _ => destruct H
         | H : ?x = ?x -> _ |- _ => specialize (H eq_refl)
         | |- _ /\ _ => split
         | |- _ -> _ => intro
         end;
  try reflexivity; try assumption; try discriminate; try congruence; try lia.

Lemma step_consistent (h : State) (ev : Late) :
  consistent h -> consistent (step h ev).
Proof. intros Hc. by_cases h ev. Qed.

Lemma fold_step_consistent (evs : list Late) (h : State) :
  consistent h -> consistent (fold_left step evs h).
Proof.
  revert h. induction evs as [|ev evs IH]; intros h Hc; cbn; [assumption|].
  apply IH, step_consistent, Hc.
Qed.

Lemma run_consistent (d : Dispatch) (evs : list Late) :
  consistent (run d evs).
Proof. apply fold_step_consistent, executor_consistent. Qed.

(** Any event that finds the handshake unresolved resolves it and leaves
    no timer armed. *)
Lemma step_resolves (h : State) (ev : Late) :
  consistent h -> resolved h = false ->
  resolved (step h ev) = true /\ armed (step h ev) = false.
Proof. intros Hc Hr. by_cases h ev. Qed.

Lemma step_keeps_resolved (h : State) (ev : Late) :
  consistent h -> resolved h = true -> resolved (step h ev) = true.
Proof. intros Hc Hr. by_cases h ev. Qed.

Lemma fold_step_keeps_resolved (evs : list Late) (h : State) :
  consistent h -> resolved h = true ->
  resolved (fold_left step evs h) = true.
Proof.
  revert h. induction evs as [|ev evs IH]; intros h Hc Hr; cbn; [assumption|].
  apply IH; [apply step_consistent, Hc | apply step_keeps_resolved; assumption].
Qed.

(** Once the timer's delay has passed the handshake is resolved. *)
Lemma resolved_after_timer (d : Dispatch) (before after : list Late) :
  resolved (run d (before ++ TimerFires :: after)) = true.
Proof.
  unfold run. rewrite fold_left_app. cbn [fold_left].
  pose proof (run_consistent d before) as Hc. unfold run in Hc.
  apply fold_step_keeps_resolved; [apply step_consistent, Hc|].
  destruct (resolved (fold_left step before (executor d))) eqn:Hr.
  - apply step_keeps_resolved; assumption.
  - apply step_resolves; assumption.
Qed.

Lemma completed_after_timer (d : Dispatch) (before after : list Late) :
  resolveCalls (run d (before ++ TimerFires :: after)) = 1
  /\ completed (run d (before ++ TimerFires :: after)) = true.
Proof.
  pose proof (run_consistent d (before ++ TimerFires :: after)) as [Hcalls _].
  rewrite resolved_after_timer in Hcalls.
  unfold completed. rewrite Hcalls. split; reflexivity.
Qed.

End HandshakeFacts.

(** C10: whatever the listener does during dispatch and whatever comes
    later, in whatever order (acknowledgments, the timer, both),
    [resolve()] has run at most once; an acknowledgment or timer that
    finds the handshake unresolved resolves it and leaves no timer
    pending; and once the 2000 ms have passed [resolve()] has run exactly
    once, so [await completion] returns. *)
Theorem handshake_resolves_once
        (d : Handshake.Dispatch) (evs : list Handshake.Late) :
  Handshake.resolveCalls (Handshake.run d evs) <= 1
  /\ (forall ev,
        Handshake.resolved (Handshake.run d evs) = false ->
        Handshake.resolveCalls (Handshake.run d (evs ++ [ev])) = 1
        /\ Handshake.armed (Handshake.run d (evs ++ [ev])) = false)
  /\ (forall after,
        Handshake.resolveCalls
          (Handshake.run d (evs ++ Handshake.TimerFires :: after)) = 1
        /\ Handshake.completed
             (Handshake.run d (evs ++ Handshake.TimerFires :: after)) = true).
Proof.
  pose proof (run_consistent d evs) as Hc.
  split; [|split].
  - destruct Hc as [Hc _]. rewrite Hc.
    destruct (Handshake.resolved (Handshake.run d evs)); lia.
  - intros ev Hr.
    assert (Hs : Handshake.run d (evs ++ [ev])
                 = Handshake.step (Handshake.run d evs) ev).
    { unfold Handshake.run. rewrite fold_left_app. reflexivity. }
    rewrite Hs.
    destruct (step_resolves ev Hc Hr) as [Hres Harm].
    split; [|assumption].
    destruct (step_consistent ev Hc) as [Hcalls _].
    rewrite Hcalls, Hres. reflexivity.
  - intros after. apply completed_after_timer.
Qed.

Lemma handshake_resolves_once_witness :
  Handshake.resolved (Handshake.run (Handshake.Delivered 0) []) = false
  /\ Handshake.resolveCalls
       (Handshake.run (Handshake.Delivered 0) ([] ++ [Handshake.Ack])) = 1
  /\ Handshake.armed
       (Handshake.run (Handshake.Delivered 0) ([] ++ [Handshake.Ack])) = false.
Proof.
  split; [reflexivity|].
  exact (proj1 (proj2 (handshake_resolves_once (Handshake.Delivered 0) []))
           Handshake.Ack eq_refl).
Defined.

(** Both the listener and the timer fire, in either order: the listener
    acknowledges during dispatch and the timer, armed afterwards, fires
    two seconds later; or the timer fires first and the listener
    acknowledges late. *)
Example both_fire_resolve_once :
  Handshake.resolveCalls
    (Handshake.run (Handshake.Delivered 1) [Handshake.TimerFires]) = 1
  /\ Handshake.resolveCalls
       (Handshake.run (Handshake.Delivered 0)
                      [Handshake.TimerFires; Handshake.Ack]) = 1
  /\ Handshake.resolveCalls
       (Handshake.run (Handshake.Delivered 0)
                      [Handshake.Ack; Handshake.TimerFires]) = 1.
Proof. repeat split. Qed.

(** An acknowledgment during dispatch comes before the timer is armed:
    the timer is then armed all the same and stays pending until it
    fires, without effect. *)
Example timer_armed_after_early_ack :
  Handshake.armed (Handshake.run (Handshake.Delivered 1) []) = true
  /\ Handshake.run (Handshake.Delivered 1) [Handshake.TimerFires]
     = Handshake.mkState true (Some Handshake.HANDSHAKE_TIMEOUT_MS) false 1 0 0.
Proof. split; reflexivity. Qed.

(* ===================================================================== *)
(** * stop() *)
(* ===================================================================== *)

Lemma stop_when_not_running (env : Env) (s : Simulator) :
  isRunning s = false -> stop env s = (Returned tt, s).
Proof.
  intros Hr. unfold stop, bind, this. rewrite Hr. reflexivity.
Qed.

Lemma closeWindow_returns (env : Env) (s : Simulator) :
  exists s', closeWindow env s = (Returned tt, s')
             /\ (s' = s \/ s' = emit s EvClose \/ s' = emit s EvNavigateAway).
Proof.
  unfold closeWindow, bind, this, when, tryCatch, log, assign, raise, ret.
  destruct (closeOnStop (settings s)); [|eauto].
  destruct (closeRaises env); eauto.
Qed.

(** What [stop()] leaves behind when the simulator was running: the
    state of [stopSync] with the events of the handshake and of the
    closing of the window added to the log. *)
Lemma stop_when_running (env : Env) (s : Simulator) :
  isRunning s = true ->
  exists s',
    stop env s = (Returned tt, s')
    /\ let s1 := emit (stopSync s) (EvStopping (handshakeOf env s)) in
       s' = s1 \/ s' = emit s1 EvClose \/ s' = emit s1 EvNavigateAway.
Proof.
  intros Hr. unfold stop, bind, this. rewrite Hr.
  cbn -[Handshake.completed handshakeOf stopSync closeWindow].
  destruct (Handshake.completed (handshakeOf env s)).
  - apply closeWindow_returns.
  - unfold ret. eauto.
Qed.

Lemma isRunning_emit (s : Simulator) (ev : Event) :
  isRunning (emit s ev) = isRunning s.
Proof. reflexivity. Qed.

Lemma isRunning_stopSync (s : Simulator) : isRunning (stopSync s) = false.
Proof. unfold stopSync. cbn. destruct (intervalId s); reflexivity. Qed.

Lemma stop_returns (env : Env) (s : Simulator) :
  fst (stop env s) = Returned tt.
Proof.
  destruct (isRunning s) eqn:Hr.
  - destruct (stop_when_running env s Hr) as (s' & -> & _). reflexivity.
  - rewrite stop_when_not_running by assumption. reflexivity.
Qed.

Lemma stop_leaves_not_running (env : Env) (s : Simulator) :
  isRunning (snd (stop env s)) = false.
Proof.
  destruct (isRunning s) eqn:Hr.
  - destruct (stop_when_running env s Hr) as (s' & -> & Hs'). cbn in *.
    destruct Hs' as [-> | [-> | ->]];
      rewrite ?isRunning_emit; apply isRunning_stopSync.
  - rewrite stop_when_not_running by assumption. assumption.
Qed.

(** C8: a call of [stop()] on a simulator that is not running returns at
    once and changes nothing; hence a second call of [stop()], under
    whatever host, leaves the object exactly as the first call left it:
    running flag, timer, statistics and all the rest. *)
Theorem stop_idempotent (env env' : Env) (s : Simulator) :
  (isRunning s = false -> stop env s = (Returned tt, s))
  /\ stop env' (snd (stop env s)) = (Returned tt, snd (stop env s)).
Proof.
  split.
  - apply stop_when_not_running.
  - apply stop_when_not_running, stop_leaves_not_running.
Qed.

Lemma stop_idempotent_witness :
  isRunning sampleSimulator = false
  /\ stop quietHost sampleSimulator = (Returned tt, sampleSimulator).
Proof.
  split; [reflexivity|].
  exact (proj1 (stop_idempotent quietHost quietHost sampleSimulator) eq_refl).
Defined.

(** The handshake of a call of [stop()] always resolves: the branch of
    [stop] in which [await completion] never returns is never taken. *)
Lemma stop_handshake_completes (env : Env) (s : Simulator) :
  Handshake.completed (handshakeOf env s) = true.
Proof.
  unfold handshakeOf. destruct (listener env (episodesCreated (stats s))) as [d later].
  apply (completed_after_timer d later []).
Qed.

(** Stopping a running simulator: the interval timer is cleared, the
    elapsed time is added to the statistics, and a second call changes
    nothing. *)
Example stop_running_sample :
  let s1 := snd (stop quietHost busySimulator) in
  isRunning s1 = false
  /\ isProcessing s1 = false
  /\ intervalId s1 = None
  /\ stop quietHost s1 = (Returned tt, s1).
Proof. vm_compute. repeat split. Qed.

(* ===================================================================== *)
(** * Reasoning about methods *)
(* ===================================================================== *)

(** A relation that holds between an object and itself and composes
    along sequencing holds across every control structure. *)
Section Relational.

Variable R : Simulator -> Simulator -> Prop.
Hypothesis R_refl : forall s, R s s.
Hypothesis R_trans : forall s1 s2 s3, R s1 s2 -> R s2 s3 -> R s1 s3.

Lemma sound_ret {A} (a : A) : sound R (ret a).
Proof. intros s. apply R_refl. Qed.

Lemma sound_raise {A} : sound R (@raise A).
Proof. intros s. apply R_refl. Qed.

Lemma sound_this : sound R this.
Proof. intros s. apply R_refl. Qed.

Lemma sound_bind {A B} (m : M A) (k : A -> M B) :
  sound R m -> (forall a, sound R (k a)) -> sound R (bind m k).
Proof.
  intros Hm Hk s. unfold bind.
  specialize (Hm s). destruct (m s) as [[a|] s1]; cbn in *.
  - eapply R_trans; [exact Hm | apply Hk].
  - exact Hm.
Qed.

Lemma sound_tryCatch {A} (m h : M A) :
  sound R m -> sound R h -> sound R (tryCatch m h).
Proof.
  intros Hm Hh s. unfold tryCatch.
  specialize (Hm s). destruct (m s) as [[a|] s1]; cbn in *.
  - exact Hm.
  - eapply R_trans; [exact Hm | apply Hh].
Qed.

Lemma sound_tryFinally {A} (m : M A) (f : M unit) :
  sound R m -> sound R f -> sound R (tryFinally m f).
Proof.
  intros Hm Hf s. unfold tryFinally.
  specialize (Hm s). destruct (m s) as [r s1]; cbn in *.
  specialize (Hf s1). destruct (f s1) as [[u|] s2]; cbn in *;
    eapply R_trans; eassumption.
Qed.

Lemma sound_when (b : bool) (m : M unit) :
  sound R m -> sound R (when b m).
Proof. intros Hm. destruct b; [exact Hm | apply sound_ret]. Qed.

Lemma sound_assign (f : Simulator -> Simulator) :
  (forall s, R s (f s)) -> sound R (assign f).
Proof. intros Hf s. apply Hf. Qed.

End Relational.

(** Take a method apart along its control structure. *)
Ltac sound_step Hrefl Htrans :=
  match goal with
  | |- sound _ (bind _ _) => apply sound_bind; [exact Htrans | | intro]
  | |- sound _ (ret _) => apply sound_ret; exact Hrefl
  | |- sound _ raise => apply sound_raise; exact Hrefl
  | |- sound _ this => apply sound_this; exact Hrefl
  | |- sound _ (tryCatch _ _) => apply sound_tryCatch; [exact Htrans | |]
  | |- sound _ (tryFinally _ _) => apply sound_tryFinally; [exact Htrans | |]
  | |- sound _ (when _ _) => apply sound_when; [exact Hrefl |]
  | |- sound _ (match ?x with _ => _ end) => destruct x
  | |- sound _ (let '(_, _) := ?x in _) => destruct x
  end.

Lemma sound_weaken (R R' : Simulator -> Simulator -> Prop) {A} (m : M A) :
  (forall s s', R s s' -> R' s s') -> sound R m -> sound R' m.
Proof. intros Hw Hm s. apply Hw, Hm. Qed.

(** ** Reading the log *)

Lemma commandsIn_app (a b : list Event) :
  commandsIn (a ++ b) = commandsIn a ++ commandsIn b.
Proof. apply flat_map_app. Qed.

Lemma turnsIn_app (a b : list Event) :
  turnsIn (a ++ b) = turnsIn a ++ turnsIn b.
Proof. apply flat_map_app. Qed.

Lemma typedIn_app (a b : list Event) :
  typedIn (a ++ b) = typedIn a ++ typedIn b.
Proof. apply flat_map_app. Qed.

(** ** What stop() and a suspension leave alone *)

Lemma stop_effect (env : Env) (s : Simulator) :
  let s' := snd (stop env s) in
  editor s' = editor s
  /\ isTyping s' = isTyping s
  /\ settings s' = settings s
  /\ commands (world s') = commands (world s)
  /\ humanActionsPerformed s' = humanActionsPerformed s
  /\ assistantActionsPerformed s' = assistantActionsPerformed s
  /\ exists new, trace (world s') = trace (world s) ++ new
                 /\ Forall stopEvent new.
Proof.
  destruct (isRunning s) eqn:Hr.
  - destruct (stop_when_running env s Hr) as (s' & -> & Hs'). cbn in Hs'.
    assert (Hsync : forall s0, s0 = stopSync s -> 
              editor s0 = editor s /\ isTyping s0 = isTyping s
              /\ settings s0 = settings s
              /\ commands (world s0) = commands (world s)
              /\ humanActionsPerformed s0 = humanActionsPerformed s
              /\ assistantActionsPerformed s0 = assistantActionsPerformed s
              /\ trace (world s0) = trace (world s)).
    { intros s0 ->. unfold stopSync. cbn.
      destruct (intervalId s); cbn; repeat split. }
    destruct (Hsync _ eq_refl) as (He & Ht & Hset & Hc & Hh & Ha & Htr).
    cbn [snd].
    destruct Hs' as [-> | [-> | ->]]; cbn -[stopSync]; rewrite ?Htr;
      repeat (split; [assumption|]).
    + exists [EvStopping (handshakeOf env s)]. split; [reflexivity|].
      repeat constructor.
    + exists [EvStopping (handshakeOf env s); EvClose].
      rewrite <- app_assoc. split; [reflexivity|]. repeat constructor.
    + exists [EvStopping (handshakeOf env s); EvNavigateAway].
      rewrite <- app_assoc. split; [reflexivity|]. repeat constructor.
  - rewrite stop_when_not_running by assumption. cbn.
    repeat (split; [reflexivity|]).
    exists []. rewrite app_nil_r. split; [reflexivity | constructor].
Qed.


Lemma stopEvent_no_command (new : list Event) :
  Forall stopEvent new -> commandsIn new = [].
Proof.
  induction 1 as [|ev new Hev _ IH]; [reflexivity|].
  destruct ev; cbn in *; try tauto; assumption.
Qed.

Lemma stopEvent_no_turn (new : list Event) :
  Forall stopEvent new -> turnsIn new = [].
Proof.
  induction 1 as [|ev new Hev _ IH]; [reflexivity|].
  destruct ev; cbn in *; try tauto; assumption.
Qed.

(** A suspension always returns; it adds the wait and, when the host
    stops the simulator meanwhile, the events of [stop()]. *)
Lemma suspend_effect (env : Env) (ms : Q) (s : Simulator) :
  let s' := snd (suspend env ms s) in
  fst (suspend env ms s) = Returned tt
  /\ editor s' = editor s
  /\ isTyping s' = isTyping s
  /\ settings s' = settings s
  /\ commands (world s') = commands (world s)
  /\ humanActionsPerformed s' = humanActionsPerformed s
  /\ assistantActionsPerformed s' = assistantActionsPerformed s
  /\ exists new, trace (world s') = trace (world s) ++ EvWait ms :: new
                 /\ Forall stopEvent new.
Proof.
  unfold suspend.
  destruct (stopRequested env (suspensions (world s))).
  - cbn [fst snd].
    match goal with
    | |- context [stop env ?s1] =>
        destruct (stop_effect env s1) as (He & Ht & Hset & Hc & Hh & Ha & new & Htr & Hnew)
    end.
    cbn in *.
    repeat (split; [assumption || reflexivity|]).
    exists new. rewrite Htr, <- app_assoc. split; [reflexivity | assumption].
  - cbn. repeat (split; [reflexivity|]).
    exists []. split; [reflexivity | constructor].
Qed.

(* ===================================================================== *)
(** * The typing lock *)
(* ===================================================================== *)

Lemma bind_this {A} (k : Simulator -> M A) (s : Simulator) :
  bind this k s = k s s.
Proof. reflexivity. Qed.

Section TypingLock.

Variable env : Env.





(** *** The steps of a typing operation keep a held lock *)











(** *** Acquire, work, release *)











End TypingLock.


(** The editor fails at the third command of a replace-and-append, the
    first keystroke: the operation raises and the lock is free; inside
    [applyAction] the failure is caught and a line feed is typed, again
    under the lock. *)
Example lock_released_on_exception :
  let '(r, s') := replaceAndAppendLine (faultyHost 2) "ab" (mkPosition 2 9)
                                       sampleSimulator in
  r = Raised /\ isTyping s' = false
  /\ commandsIn (trace (world s'))
     = [CmdEdits 2 5 9 EmptyString; CmdSetPosition (mkPosition 2 5)].
Proof. vm_compute. repeat split. Qed.

Example lock_released_after_catch :
  let '(r, s') := applyAction (faultyHost 2) 2 0 "ab" (mkPosition 2 9)
                              sampleSimulator in
  r = Returned tt /\ isTyping s' = false
  /\ typedIn (trace (world s')) = [Js.nl]
  /\ Forall underLock (trace (world s')).
Proof.
  vm_compute. repeat split. repeat constructor.
Qed.

(** An operation asked for while the lock is held is refused outright. *)
Example refused_while_typing :
  runEditOp quietHost (FillPartialLine "ab" (mkPosition 2 9)) typingSimulator
  = (Returned tt, typingSimulator).
Proof. reflexivity. Qed.

(* ===================================================================== *)
(** * The edit applier: redirection, fallback, replace-and-append *)
(* ===================================================================== *)

Lemma outOfBounds_true (targetLine : Z) (e : Editor) :
  (targetLine < 1 \/ Z.of_nat (Monaco.getLineCount e) < targetLine)%Z ->
  outOfBounds targetLine e = true.
Proof.
  intros H. unfold outOfBounds. apply orb_true_iff.
  destruct H; [left | right]; apply Z.ltb_lt; assumption.
Qed.

Lemma editExistingLines_out_of_bounds
      (env : Env) (txt : string) (targetLine : Z) (s : Simulator) (e : Editor) :
  editor s = Some e ->
  outOfBounds targetLine e = true ->
  editExistingLines env txt targetLine s
  = replaceAndAppendLine env txt (cursor e) s.
Proof.
  intros He Hout. unfold editExistingLines. rewrite bind_this, He, Hout.
  destruct (isTyping s) eqn:Hlock; [|reflexivity].
  unfold replaceAndAppendLine. rewrite bind_this, He, Hlock. reflexivity.
Qed.

Lemma addCommentAtLine_out_of_bounds
      (env : Env) (txt : string) (targetLine : Z) (s : Simulator) (e : Editor) :
  editor s = Some e ->
  outOfBounds targetLine e = true ->
  addCommentAtLine env txt targetLine s
  = addInlineComment env txt (cursor e) s.
Proof.
  intros He Hout. unfold addCommentAtLine. rewrite bind_this, He, Hout.
  destruct (isTyping s) eqn:Hlock; [|reflexivity].
  unfold addInlineComment. rewrite bind_this, He, Hlock. reflexivity.
Qed.

(** C3: on a document of [lineCount] lines, [editExistingLines] with a
    target line below 1 or above [lineCount] (such as [lineCount + 5])
    does exactly what [replaceAndAppendLine] does at the editor's current
    cursor, and [addCommentAtLine] with such a target does exactly what
    [addInlineComment] does at the cursor; so action 4 is applied as
    action 2 at the cursor and action 6 as action 5 at the cursor. *)
Theorem out_of_bounds_redirection
        (env : Env) (txt : string) (targetLine : Z) (p : Position)
        (s : Simulator) (e : Editor) :
  editor s = Some e ->
  (targetLine < 1 \/ Z.of_nat (Monaco.getLineCount e) < targetLine)%Z ->
  editExistingLines env txt targetLine s
  = replaceAndAppendLine env txt (cursor e) s
  /\ addCommentAtLine env txt targetLine s
     = addInlineComment env txt (cursor e) s
  /\ applyAction env 4 targetLine txt p s
     = applyAction env 2 targetLine txt (cursor e) s
  /\ applyAction env 6 targetLine txt p s
     = applyAction env 5 targetLine txt (cursor e) s.
Proof.
  intros He Hout. apply outOfBounds_true in Hout.
  repeat split.
  - apply editExistingLines_out_of_bounds; assumption.
  - apply addCommentAtLine_out_of_bounds; assumption.
  - unfold applyAction. rewrite !bind_this, He. unfold tryCatch.
    cbn [dispatchAction].
    rewrite (editExistingLines_out_of_bounds env txt targetLine s He Hout).
    reflexivity.
  - unfold applyAction. rewrite !bind_this, He. unfold tryCatch.
    cbn [dispatchAction].
    rewrite (addCommentAtLine_out_of_bounds env txt targetLine s He Hout).
    reflexivity.
Qed.

Lemma out_of_bounds_redirection_witness :
  editor sampleSimulator = Some sampleEditor
  /\ (Z.of_nat (Monaco.getLineCount sampleEditor) < 3 + 5)%Z
  /\ editExistingLines quietHost "return 1" (3 + 5) sampleSimulator
     = replaceAndAppendLine quietHost "return 1" (cursor sampleEditor)
                            sampleSimulator.
Proof.
  assert (Hout : (Z.of_nat (Monaco.getLineCount sampleEditor) < 3 + 5)%Z)
    by reflexivity.
  split; [reflexivity | split; [exact Hout |]].
  exact (proj1 (@out_of_bounds_redirection quietHost "return 1" (3 + 5)
                  (mkPosition 1 1) sampleSimulator sampleEditor eq_refl
                  (or_intror Hout))).
Defined.

(** The redirected edit on the sample document: line 2, where the cursor
    is, is rewritten, and the cursor stays behind what was typed. *)
Example out_of_bounds_edit_sample :
  editor (snd (applyAction quietHost 4 (3 + 5) "return 1" (mkPosition 2 9)
                           sampleSimulator))
  = Some (mkEditor ["def f():"; "    return 1"; EmptyString]%string
                   (mkPosition 2 13)).
Proof. vm_compute. reflexivity. Qed.

(** ** Typing when the editor accepts every command *)

Section NoFaults.

Variable env : Env.
Hypothesis no_fault : forall k, editorFault env k = false.

Lemma command_effect (c : EdCmd) (s : Simulator) (e : Editor) :
  editor s = Some e ->
  exists s',
    command env c s = (Returned tt, s')
    /\ editor s' = Some (applyCmd c e)
    /\ isTyping s' = isTyping s
    /\ settings s' = settings s
    /\ trace (world s') = trace (world s) ++ [EvCommand (isTyping s) c].
Proof.
  intros He. unfold command. rewrite He, no_fault.
  eexists. split; [reflexivity|]. cbn. repeat split.
Qed.

Lemma drawDelay_effect (min max : Q) (s : Simulator) :
  exists d s',
    drawDelay env min max s = (Returned d, s')
    /\ editor s' = editor s
    /\ isTyping s' = isTyping s
    /\ settings s' = settings s
    /\ trace (world s') = trace (world s).
Proof.
  unfold drawDelay. destruct (Qle_bool max min).
  - exists min, s. repeat split.
  - unfold bind, nextRandom, ret. cbn. eexists. eexists.
    split; [reflexivity|]. cbn. repeat split.
Qed.

Lemma typeEach_effect (tokens : list ascii) :
  forall (s : Simulator) (e : Editor),
    editor s = Some e ->
    exists s',
      typeEach env tokens s = (Returned tt, s')
      /\ editor s' = Some (typeAll tokens e)
      /\ isTyping s' = isTyping s
      /\ settings s' = settings s
      /\ commandsIn (trace (world s'))
         = commandsIn (trace (world s)) ++ map CmdType tokens.
Proof.
  induction tokens as [|token rest IH]; intros s e He.
  - exists s. cbn. rewrite app_nil_r. repeat split. assumption.
  - cbn [typeEach].
    destruct (command_effect (CmdType token) s He)
      as (s1 & Hrun1 & He1 & Ht1 & Hset1 & Htr1).
    unfold bind at 1. rewrite Hrun1. rewrite bind_this.
    destruct (drawDelay_effect (minTypingDelayMs (settings s1))
                               (maxTypingDelayMs (settings s1)) s1)
      as (d & s2 & Hrun2 & He2 & Ht2 & Hset2 & Htr2).
    unfold bind at 1. rewrite Hrun2.
    destruct (suspend_effect env d s2)
      as (Hret & He3 & Ht3 & Hset3 & _ & _ & _ & new & Htr3 & Hnew).
    unfold bind at 1.
    destruct (suspend env d s2) as [r3 s3]. cbn [fst snd] in *. subst r3.
    assert (He3' : editor s3 = Some (applyCmd (CmdType token) e)) by congruence.
    destruct (IH s3 _ He3') as (s' & Hrun & He' & Ht' & Hset' & Htr').
    exists s'. split; [exact Hrun|].
    split; [exact He'|].
    split; [congruence|].
    split; [congruence|].
    rewrite Htr', Htr3, Htr2, Htr1.
    rewrite !commandsIn_app. cbn [commandsIn flat_map].
    change (flat_map _ new) with (commandsIn new).
    rewrite (stopEvent_no_command Hnew). cbn.
    rewrite app_nil_r, <- app_assoc. reflexivity.
Qed.

Lemma simulateTypingWithDelay_effect (txt : string) (s : Simulator) (e : Editor) :
  editor s = Some e ->
  exists s',
    simulateTypingWithDelay env txt s = (Returned tt, s')
    /\ editor s' = Some (typeAll (Js.chars txt) e)
    /\ isTyping s' = isTyping s
    /\ settings s' = settings s
    /\ commandsIn (trace (world s'))
       = commandsIn (trace (world s)) ++ map CmdType (Js.chars txt).
Proof.
  intros He. unfold simulateTypingWithDelay. rewrite bind_this, He.
  apply typeEach_effect. assumption.
Qed.

(** The guarded typing with the lock free: the text is typed, character
    by character, and the lock is free again. *)
Lemma typeUnderLock_effect (txt : string) (s : Simulator) (e : Editor) :
  editor s = Some e ->
  isTyping s = false ->
  exists s',
    typeUnderLock env txt s = (Returned tt, s')
    /\ editor s' = Some (typeAll (Js.chars txt) e)
    /\ isTyping s' = false
    /\ settings s' = settings s
    /\ commandsIn (trace (world s'))
       = commandsIn (trace (world s)) ++ map CmdType (Js.chars txt).
Proof.
  intros He Hfree. unfold typeUnderLock. rewrite bind_this, Hfree.
  cbn [negb when]. unfold bind at 1. unfold assign at 1.
  assert (He1 : editor (set_isTyping s true) = Some e) by exact He.
  destruct (simulateTypingWithDelay_effect txt _ He1)
    as (s1 & Hrun & He' & Ht & Hset & Htr).
  unfold tryFinally. rewrite Hrun. cbn.
  eexists. split; [reflexivity|]. cbn. repeat split; assumption.
Qed.

End NoFaults.

(** An index outside 0..6 reaches the [default] case. *)
Lemma dispatchAction_unknown
      (env : Env) (i n : Z) (txt : string) (p : Position) :
  (i < 0 \/ 6 < i)%Z ->
  dispatchAction env i n txt p = typeUnderLock env txt.
Proof.
  intros H. destruct i as [|q|q]; [lia| |reflexivity].
  do 3 (try (destruct q as [q|q|]; try reflexivity; try lia)).
Qed.

(** C4, as the claim states it, fails: while a typing animation holds
    the typing lock, a response with the unknown action index 7 and the
    payload ["x"] types nothing, so it is not true that for every state
    with an editor and a sound host the payload is typed. *)
Lemma unknown_action_types_payload_counterexample :
  ~ (forall (env : Env) (i n : Z) (txt : string) (p : Position)
            (s : Simulator),
        (forall k, editorFault env k = false) ->
        editor s <> None ->
        (i < 0 \/ 6 < i)%Z ->
        typedIn (trace (world (snd (applyAction env i n txt p s))))
        = typedIn (trace (world s)) ++ Js.chars txt).
Proof.
  intros H.
  assert (He : editor typingSimulator <> None) by discriminate.
  specialize (H quietHost 7%Z 1%Z "x"%string (mkPosition 2 9) typingSimulator
                (fun _ => eq_refl) He (or_intror eq_refl)).
  vm_compute in H. discriminate H.
Qed.

(** With the typing lock held, the unknown index 7 leaves the object
    exactly as NO_OP (index 0) does. *)
Example unknown_action_as_no_op :
  applyAction quietHost 7 1 "x" (mkPosition 2 9) typingSimulator
  = applyAction quietHost 0 1 "x" (mkPosition 2 9) typingSimulator.
Proof. reflexivity. Qed.

(** C4, amended: a response whose action index is outside 0..6 always
    takes the guarded raw-typing path with the unchanged payload, never
    the NO_OP case.  That path refuses to type while the typing lock is
    held, and then nothing at all changes; with the lock free and an
    editor that accepts the keystrokes, the editor commands it issues are
    exactly the characters of the payload, one [type] command each, in
    order, and the lock is free afterwards. *)
Theorem unknown_action_fallback
        (env : Env) (i n : Z) (txt : string) (p : Position)
        (s : Simulator) (e : Editor) :
  editor s = Some e ->
  (i < 0 \/ 6 < i)%Z ->
  applyAction env i n txt p s
  = tryCatch (typeUnderLock env txt) (typeUnderLock env Js.nlS) s
  /\ (isTyping s = true -> applyAction env i n txt p s = (Returned tt, s))
  /\ (isTyping s = false ->
      (forall k, editorFault env k = false) ->
      exists s',
        applyAction env i n txt p s = (Returned tt, s')
        /\ commandsIn (trace (world s'))
           = commandsIn (trace (world s)) ++ map CmdType (Js.chars txt)
        /\ editor s' = Some (typeAll (Js.chars txt) e)
        /\ isTyping s' = false).
Proof.
  intros He Hi.
  assert (Hpath : applyAction env i n txt p s
                  = tryCatch (typeUnderLock env txt)
                             (typeUnderLock env Js.nlS) s).
  { unfold applyAction. rewrite bind_this, He.
    rewrite (dispatchAction_unknown env n txt p Hi). reflexivity. }
  split; [exact Hpath | split].
  - intros Hheld. rewrite Hpath. unfold tryCatch, typeUnderLock.
    rewrite bind_this, Hheld. reflexivity.
  - intros Hfree Hnf. rewrite Hpath. unfold tryCatch.
    destruct (@typeUnderLock_effect env Hnf txt s e He Hfree)
      as (s' & Hrun & He' & Ht' & _ & Htr).
    rewrite Hrun. exists s'. repeat split; assumption.
Qed.

Lemma unknown_action_fallback_witness :
  editor sampleSimulator = Some sampleEditor
  /\ (6 < 7)%Z
  /\ isTyping sampleSimulator = false
  /\ exists s',
      applyAction quietHost 7 1 "ab" (mkPosition 2 9) sampleSimulator
      = (Returned tt, s')
      /\ commandsIn (trace (world s'))
         = commandsIn (trace (world sampleSimulator))
           ++ map CmdType (Js.chars "ab")
      /\ editor s' = Some (typeAll (Js.chars "ab") sampleEditor)
      /\ isTyping s' = false.
Proof.
  assert (Hi : (6 < 7)%Z) by reflexivity.
  split; [reflexivity | split; [exact Hi | split; [reflexivity |]]].
  exact (proj2 (proj2 (@unknown_action_fallback quietHost 7 1 "ab"
                         (mkPosition 2 9) sampleSimulator sampleEditor
                         eq_refl (or_intror Hi)))
               eq_refl (fun _ => eq_refl)).
Defined.

(** ** Indentation *)

Lemma append_empty_r (s : string) : (s ++ EmptyString)%string = s.
Proof. induction s as [|c r IH]; cbn; [reflexivity | rewrite IH; reflexivity]. Qed.

Lemma trimStart_length (s : string) :
  String.length (Js.trimStart s) <= String.length s.
Proof.
  induction s as [|c r IH]; cbn; [lia|].
  destruct (Js.isWhite c); cbn; lia.
Qed.

Lemma prefix_length (n : nat) (s : string) :
  n <= String.length s -> String.length (Js.prefix n s) = n.
Proof.
  unfold Js.prefix. revert s.
  induction n as [|n IH]; intros s Hn.
  - destruct s; reflexivity.
  - destruct s as [|c r]; cbn in *; [lia|].
    rewrite IH by lia. reflexivity.
Qed.

Lemma suffix_all (s : string) : Js.suffix (String.length s) s = EmptyString.
Proof. induction s as [|c r IH]; cbn; [reflexivity | exact IH]. Qed.

(** A line is its indentation followed by the line without its leading
    white space. *)
Lemma indentation_split (line : string) :
  (getIndentation line ++ Js.trimStart line)%string = line.
Proof.
  unfold getIndentation, getIndentationLevel, Js.prefix.
  induction line as [|c r IH]; [reflexivity|].
  cbn [Js.trimStart]. destruct (Js.isWhite c) eqn:Hw.
  - pose proof (trimStart_length r) as Hle.
    replace (String.length (String c r) - String.length (Js.trimStart r))
      with (S (String.length r - String.length (Js.trimStart r)))
      by (cbn [String.length]; lia).
    cbn. rewrite IH. reflexivity.
  - rewrite Nat.sub_diag. reflexivity.
Qed.

Lemma indentation_length (line : string) :
  String.length (getIndentation line) = getIndentationLevel line.
Proof.
  unfold getIndentation. apply prefix_length.
  unfold getIndentationLevel. lia.
Qed.

Lemma isWhite_trimStart_indentation (line : string) :
  Js.trimStart (getIndentation line) = EmptyString.
Proof.
  unfold getIndentation, getIndentationLevel, Js.prefix.
  induction line as [|c r IH]; [reflexivity|].
  cbn [Js.trimStart]. destruct (Js.isWhite c) eqn:Hw.
  - pose proof (trimStart_length r) as Hle.
    replace (String.length (String c r) - String.length (Js.trimStart r))
      with (S (String.length r - String.length (Js.trimStart r)))
      by (cbn [String.length]; lia).
    cbn. rewrite Hw. exact IH.
  - rewrite Nat.sub_diag. reflexivity.
Qed.

(** ** Clearing a line behind its indentation *)

Lemma getLineContent_valid (e : Editor) (n : nat) (line : string) :
  Monaco.getLineContent e n = Some line ->
  1 <= n <= Monaco.getLineCount e.
Proof.
  unfold Monaco.getLineContent, Monaco.getLineCount.
  destruct n as [|k]; [discriminate|].
  intros H. assert (k < List.length (lines e)).
  { apply nth_error_Some. congruence. }
  lia.
Qed.

Lemma spliceLine_length (n : nat) (l : string) (ls : list string) :
  1 <= n <= List.length ls ->
  List.length (Monaco.spliceLine n [l] ls) = List.length ls.
Proof.
  intros Hn. unfold Monaco.spliceLine.
  rewrite !length_app, length_firstn, length_skipn. cbn. lia.
Qed.

Lemma spliceLine_same (n : nat) (l : string) (ls : list string) :
  1 <= n <= List.length ls ->
  nth_error (Monaco.spliceLine n [l] ls) (n - 1) = Some l.
Proof.
  intros Hn. unfold Monaco.spliceLine.
  rewrite nth_error_app2 by (rewrite length_firstn; lia).
  rewrite length_firstn.
  replace (n - 1 - Nat.min (n - 1) (List.length ls)) with 0 by lia.
  reflexivity.
Qed.

Lemma spliceLine_same_S (k : nat) (l : string) (ls : list string) :
  S k <= List.length ls ->
  nth_error (Monaco.spliceLine (S k) [l] ls) k = Some l.
Proof.
  intros Hk. replace k with (S k - 1) at 2 by lia.
  apply spliceLine_same. lia.
Qed.

Lemma spliceLine_other (n k : nat) (l : string) (ls : list string) :
  1 <= n <= List.length ls -> k <> n - 1 ->
  nth_error (Monaco.spliceLine n [l] ls) k = nth_error ls k.
Proof.
  intros Hn Hk. unfold Monaco.spliceLine.
  destruct (Nat.lt_ge_cases k (n - 1)) as [Hlt|Hge].
  - rewrite nth_error_app1 by (rewrite length_firstn; lia).
    rewrite nth_error_firstn.
    destruct (Nat.ltb_spec k (n - 1)); [reflexivity | lia].
  - rewrite nth_error_app2 by (rewrite length_firstn; lia).
    rewrite length_firstn.
    replace (Nat.min (n - 1) (List.length ls)) with (n - 1) by lia.
    destruct (k - (n - 1)) as [|j] eqn:Hj; [lia|].
    cbn. rewrite nth_error_skipn. f_equal. lia.
Qed.

(** In the cleared editor the line is the indentation, the other lines
    are as they were, and the cursor is right behind the indentation. *)
Lemma clearedAt_line (n : nat) (line : string) (e : Editor) :
  Monaco.getLineContent e n = Some line ->
  Monaco.getLineContent (clearedAt n (getIndentation line) e) n
  = Some (getIndentation line)
  /\ (forall k, k <> n ->
        Monaco.getLineContent (clearedAt n (getIndentation line) e) k
        = Monaco.getLineContent e k)
  /\ cursor (clearedAt n (getIndentation line) e)
     = mkPosition n (String.length (getIndentation line) + 1).
Proof.
  intros Hline. pose proof (getLineContent_valid e n Hline) as Hn.
  unfold Monaco.getLineCount in Hn.
  repeat split.
  - unfold Monaco.getLineContent, clearedAt. cbn [lines].
    destruct n as [|k]; [lia|].
    apply spliceLine_same_S. lia.
  - intros k Hk. unfold Monaco.getLineContent, clearedAt. cbn [lines].
    destruct k as [|j]; [reflexivity|].
    apply spliceLine_other; [assumption | lia].
Qed.

(** The two commands of lines 698-710 produce the cleared editor. *)
Lemma clear_commands (n : nat) (line : string) (e : Editor) :
  Monaco.getLineContent e n = Some line ->
  let indentation := getIndentation line in
  applyCmd (CmdSetPosition (mkPosition n (String.length indentation + 1)))
           (applyCmd (CmdEdits n (String.length indentation + 1)
                               (String.length line + 1) EmptyString) e)
  = clearedAt n indentation e.
Proof.
  intros Hline indentation.
  pose proof (getLineContent_valid e n Hline) as Hn.
  unfold Monaco.getLineCount in Hn.
  cbn [applyCmd]. unfold Monaco.executeEdits. rewrite Hline.
  rewrite !Nat.add_sub. cbn [Js.split Monaco.insertPieces].
  assert (Hcut : (Js.prefix (String.length indentation) line
                  ++ EmptyString ++ Js.suffix (String.length line) line)%string
                 = indentation).
  { rewrite suffix_all. cbn. rewrite append_empty_r.
    unfold indentation at 1. rewrite indentation_length. reflexivity. }
  rewrite Hcut.
  unfold Monaco.setPosition, clearedAt. cbn [lines]. f_equal.
  unfold Monaco.validatePosition at 1.
  cbn [lineNumber column lines Monaco.getLineCount].
  unfold Monaco.getLineCount. cbn [lines].
  rewrite spliceLine_length by assumption.
  replace (Nat.min (Nat.max 1 n) (Nat.max 1 (List.length (lines e))))
    with n by lia.
  unfold Monaco.lineOr, Monaco.getLineContent. cbn [lines].
  destruct n as [|k]; [lia|].
  rewrite spliceLine_same_S by lia.
  f_equal. lia.
Qed.

(** ** Replace and append *)

(** C2, as the claim states it, fails: the first line of the payload is
    trimmed at both ends, not only of its leading white space.  With the
    payload ["x "] on the sample document the single character ["x"] is
    typed, not ["x "]; so it is not true that what is typed is the
    payload with its first line trimmed of leading white space only (and
    the later lines re-indented). *)
Lemma replace_and_append_leading_trim_counterexample :
  ~ (forall (env : Env) (txt : string) (p : Position) (s : Simulator)
            (e : Editor) (line : string),
        (forall k, editorFault env k = false) ->
        editor s = Some e ->
        isTyping s = false ->
        Monaco.getLineContent e (lineNumber p) = Some line ->
        typedIn (trace (world (snd (replaceAndAppendLine env txt p s))))
        = typedIn (trace (world s))
          ++ Js.chars (specFormattedText (getIndentation line) txt)).
Proof.
  intros H.
  specialize (H quietHost "x "%string (mkPosition 2 9) sampleSimulator
                sampleEditor "    pass"%string
                (fun _ => eq_refl) eq_refl eq_refl eq_refl).
  vm_compute in H. discriminate H.
Qed.

(** C2, amended: when the typing lock is free (otherwise the action is
    refused) and the editor accepts the commands, REPLACE_AND_APPEND at a
    position on an existing line first cuts that line back to its
    leading indentation, leaving the other lines alone, and puts the
    cursor right behind the indentation; from there it types, character
    by character, the payload with its first line trimmed of white space
    at both ends and every later line prefixed with the indentation of
    the original line; the lock is free afterwards.  The indentation is
    the part of the line in front of its first character that is not
    white space. *)
Theorem replace_and_append_effect
        (env : Env) (txt : string) (p : Position) (s : Simulator)
        (e : Editor) (line : string) :
  (forall k, editorFault env k = false) ->
  editor s = Some e ->
  isTyping s = false ->
  Monaco.getLineContent e (lineNumber p) = Some line ->
  let n := lineNumber p in
  let indentation := getIndentation line in
  let cleared := clearedAt n indentation e in
  let typed :=
    Js.join Js.nlS
      (match Js.split Js.nl txt with
       | [] => []
       | first :: rest =>
           Js.trim first :: map (fun l => (indentation ++ l)%string) rest
       end) in
  (indentation ++ Js.trimStart line)%string = line
  /\ Monaco.getLineContent cleared n = Some indentation
  /\ (forall k, k <> n ->
        Monaco.getLineContent cleared k = Monaco.getLineContent e k)
  /\ cursor cleared = mkPosition n (String.length indentation + 1)
  /\ exists s',
      replaceAndAppendLine env txt p s = (Returned tt, s')
      /\ commandsIn (trace (world s'))
         = commandsIn (trace (world s))
           ++ CmdEdits n (String.length indentation + 1)
                       (String.length line + 1) EmptyString
           :: CmdSetPosition (mkPosition n (String.length indentation + 1))
           :: map CmdType (Js.chars typed)
      /\ editor s' = Some (typeAll (Js.chars typed) cleared)
      /\ isTyping s' = false.
Proof.
  intros Hnf He Hfree Hline. cbv zeta.
  destruct (clearedAt_line (lineNumber p) e Hline) as (Hc1 & Hc2 & Hc3).
  split; [apply indentation_split|].
  split; [exact Hc1|]. split; [exact Hc2|]. split; [exact Hc3|].
  unfold replaceAndAppendLine. rewrite bind_this, He, Hfree.
  unfold bind at 1. unfold assign at 1. unfold tryFinally.
  set (s0 := set_isTyping s true).
  assert (He0 : editor s0 = Some e) by exact He.
  unfold bind at 1. unfold getLineContent at 1. rewrite He0, Hline.
  destruct (@command_effect env Hnf
              (CmdEdits (lineNumber p)
                        (String.length (getIndentation line) + 1)
                        (String.length line + 1) EmptyString) s0 e He0)
    as (s1 & Hrun1 & He1 & Ht1 & _ & Htr1).
  unfold bind at 1. rewrite Hrun1.
  destruct (@command_effect env Hnf
              (CmdSetPosition
                 (mkPosition (lineNumber p)
                             (String.length (getIndentation line) + 1)))
              s1 _ He1)
    as (s2 & Hrun2 & He2 & Ht2 & _ & Htr2).
  unfold bind at 1. rewrite Hrun2.
  rewrite (clear_commands (lineNumber p) e Hline) in He2.
  destruct (@simulateTypingWithDelay_effect env Hnf
              (formattedText (getIndentation line) txt) s2 _ He2)
    as (s3 & Hrun3 & He3 & Ht3 & _ & Htr3).
  rewrite Hrun3. unfold assign. cbn [fst snd].
  eexists. split; [reflexivity|].
  cbn [editor isTyping world set_isTyping].
  split; [|split; [exact He3 | reflexivity]].
  rewrite Htr3, Htr2, Htr1, !commandsIn_app. cbn [commandsIn flat_map app].
  rewrite <- !app_assoc. reflexivity.
Qed.

Lemma replace_and_append_effect_witness :
  editor sampleSimulator = Some sampleEditor
  /\ isTyping sampleSimulator = false
  /\ Monaco.getLineContent sampleEditor 2 = Some "    pass"%string
  /\ Monaco.getLineContent
       (clearedAt 2 (getIndentation "    pass") sampleEditor) 2
     = Some (getIndentation "    pass").
Proof.
  split; [reflexivity | split; [reflexivity | split; [reflexivity |]]].
  exact (proj1 (proj2 (@replace_and_append_effect quietHost "  x  "
                         (mkPosition 2 9) sampleSimulator sampleEditor
                         "    pass" (fun _ => eq_refl) eq_refl eq_refl
                         eq_refl))).
Defined.

(** The payload ["  x  \ny"] at (2, 9) of the sample document: the first
    line loses the white space at both ends, the second gets the four
    spaces of the original line. *)
Example replace_and_append_sample :
  editor (snd (applyAction quietHost 2 0 ("  x  " ++ Js.nlS ++ "y")
                           (mkPosition 2 9) sampleSimulator))
  = Some (mkEditor ["def f():"; "    x"; "    y"; EmptyString]%string
                   (mkPosition 3 6)).
Proof. vm_compute. reflexivity. Qed.

(** The end-to-end scenario of the specification: EDIT_EXISTING_LINES on
    line 2 with the payload ["return 1"]. *)
Example edit_existing_lines_sample :
  editor (snd (applyAction quietHost 4 2 "return 1" (mkPosition 2 9)
                           sampleSimulator))
  = Some (mkEditor ["def f():"; "    return 1"; EmptyString]%string
                   (mkPosition 3 1)).
Proof. vm_compute. reflexivity. Qed.

(* ===================================================================== *)
(** * A turn dropped on the processing lock *)
(* ===================================================================== *)

(** C5, as the claim states it, fails: a human turn that finds the
    processing lock held is dropped by [generateAndApplyHumanAction], yet
    [executeAction] goes on to increment [stats.totalActions]; so it is
    not true that a dropped turn leaves the statistics as they were. *)
Lemma dropped_turn_stats_counterexample :
  ~ (forall (env : Env) (s : Simulator),
        editor s <> None ->
        isProcessing s = true ->
        totalActions (stats (snd (executeAction env StateServiceHuman s)))
        = totalActions (stats s)).
Proof.
  intros H.
  assert (Hs : editor busySimulator <> None) by discriminate.
  specialize (H quietHost busySimulator Hs eq_refl).
  vm_compute in H. discriminate H.
Qed.

(** C5, amended: a human or assistant turn that finds the processing
    lock held returns at once: no delay, no inference call, no editor
    command, and the document, the cursor, the timestep, both locks and
    the running flag are as before.  The statistics do change:
    [executeAction] increments [totalActions] by one, exactly as for a
    turn that was carried out; the only other trace is the record that
    the turn was attempted. *)
Theorem dropped_turn_effect (env : Env) (s : Simulator) (e : Editor) :
  editor s = Some e ->
  isProcessing s = true ->
  executeAction env StateServiceHuman s
  = (Returned tt, bumpTotalActions (emit s (EvTurn Human)))
  /\ executeAction env StateServiceAssistant s
     = (Returned tt, bumpTotalActions (emit s (EvTurn Assistant)))
  /\ totalActions (stats (bumpTotalActions (emit s (EvTurn Human))))
     = S (totalActions (stats s)).
Proof.
  intros He Hp. repeat split.
  - unfold executeAction. rewrite bind_this, He.
    unfold bind at 1. unfold bind at 1. unfold log, assign.
    unfold generateAndApplyHumanAction. rewrite bind_this.
    cbn [editor emit set_world isProcessing]. rewrite He, Hp. reflexivity.
  - unfold executeAction. rewrite bind_this, He.
    unfold bind at 1. unfold bind at 1. unfold log, assign.
    unfold generateAndApplyAssistantAction. rewrite bind_this.
    cbn [editor emit set_world isProcessing]. rewrite He, Hp. reflexivity.
Qed.

Lemma dropped_turn_effect_witness :
  editor busySimulator = Some sampleEditor
  /\ isProcessing busySimulator = true
  /\ executeAction quietHost StateServiceHuman busySimulator
     = (Returned tt, bumpTotalActions (emit busySimulator (EvTurn Human))).
Proof.
  split; [reflexivity | split; [reflexivity |]].
  exact (proj1 (@dropped_turn_effect quietHost busySimulator sampleEditor
                  eq_refl eq_refl)).
Defined.

(** A tick of the free-running schedule that meets a turn in flight is
    counted like any other: the statistics and the tick counter both go
    up. *)
Example dropped_tick_is_counted :
  let '(r, s') := periodicTick quietHost 7 busySimulator in
  r = Returned 8%Z
  /\ totalActions (stats s') = S (totalActions (stats busySimulator))
  /\ editor s' = editor busySimulator
  /\ timestep s' = timestep busySimulator.
Proof. vm_compute. repeat split. Qed.

(* ===================================================================== *)
(** * The paired schedule *)
(* ===================================================================== *)

Section Schedule.

Variable env : Env.
Hypothesis no_stop : forall k, stopRequested env k = false.
Hypothesis no_fault : forall k, editorFault env k = false.




(** *** Inside a turn nothing the schedule looks at changes *)



















(** *** A turn returns *)








(** *** Steps of the sequence *)













Lemma concat_repeat_singleton {A} (x : A) (n : nat) :
  List.concat (repeat [x] n) = repeat x n.
Proof. induction n as [|n IH]; cbn; [reflexivity | rewrite IH; reflexivity]. Qed.



End Schedule.




(** The whole of [start()] on a fresh simulator configured for two pairs
    and no follow-up: human, assistant, human, assistant, human. *)
Example start_paired_sample :
  let s' := snd (start quietHost
                   (setEditor (Some sampleEditor) (create (pairedConfig 2 0)))) in
  turnsIn (trace (world s')) = [Human; Assistant; Human; Assistant; Human]
  /\ humanActionsPerformed s' = 3
  /\ assistantActionsPerformed s' = 2
  /\ totalActions (stats s') = 5
  /\ isRunning s' = false.
Proof. vm_compute. repeat split. Qed.

(** An editor that fails at every command: the fallback typing of the
    first human turn raises, the sequence catches the exception and the
    simulator stops itself after that one attempt. *)
Example editor_fault_ends_sequence :
  let '(r, s') := startZeroStyleSequence brokenEditorHost (pairedSimulator 2 1) in
  r = Returned tt
  /\ turnsIn (trace (world s')) = [Human]
  /\ isRunning s' = false.
Proof. vm_compute. repeat split. Qed.

(** A call of [stop()] during the pause after the first assistant turn:
    the sequence breaks off after one pair. *)
Example stop_interrupts_sequence :
  let '(r, s') := startZeroStyleSequence (stoppingHost 7) (pairedSimulator 2 1) in
  r = Returned tt
  /\ turnsIn (trace (world s')) = [Human; Assistant]
  /\ isRunning s' = false.
Proof. vm_compute. repeat split. Qed.

(** A human turn whose inference answers with EDIT_EXISTING_LINES on
    line 2: the answer is applied and the turn is counted. *)
Example human_turn_sample :
  let '(r, s') := executeAction (answeringHost 4 2 "return 1")
                                StateServiceHuman sampleSimulator in
  r = Returned tt
  /\ editor s'
     = Some (mkEditor ["def f():"; "    return 1"; EmptyString]%string
                      (mkPosition 3 1))
  /\ totalActions (stats s') = 1
  /\ isProcessing s' = false
  /\ timestep s' = 1%Z.
Proof. vm_compute. repeat split. Qed.

(* ===================================================================== *)
(** * Typing seen as insertion *)
(* ===================================================================== *)

Lemma length_append (a b : string) :
  String.length (a ++ b) = String.length a + String.length b.
Proof. induction a as [|c r IH]; cbn; [reflexivity | rewrite IH; reflexivity]. Qed.

Lemma append_assoc (a b c : string) :
  ((a ++ b) ++ c)%string = (a ++ (b ++ c))%string.
Proof. induction a as [|x r IH]; cbn; [reflexivity | rewrite IH; reflexivity]. Qed.

Lemma prefix_append (b a : string) :
  Js.prefix (String.length b) (b ++ a) = b.
Proof.
  unfold Js.prefix. induction b as [|c r IH]; cbn.
  - destruct a; reflexivity.
  - rewrite IH. reflexivity.
Qed.

Lemma suffix_append (b a : string) :
  Js.suffix (String.length b) (b ++ a) = a.
Proof. induction b as [|c r IH]; cbn; [reflexivity | exact IH]. Qed.

Lemma prefix_suffix (n : nat) (s : string) :
  (Js.prefix n s ++ Js.suffix n s)%string = s.
Proof.
  unfold Js.prefix. revert s. induction n as [|n IH]; intros s.
  - destruct s; reflexivity.
  - destruct s as [|c r]; cbn; [reflexivity | rewrite IH; reflexivity].
Qed.

Lemma split_nonempty (sep : ascii) (s : string) : Js.split sep s <> [].
Proof.
  induction s as [|c r IH]; cbn; [discriminate|].
  destruct (Ascii.eqb c sep); [discriminate|].
  destruct (Js.split sep r); discriminate.
Qed.

Lemma concat_cons (sep x y : string) (ys : list string) :
  String.concat sep (x :: y :: ys)
  = (x ++ sep ++ String.concat sep (y :: ys))%string.
Proof. reflexivity. Qed.

(** Splitting at line feeds and joining with line feeds gives the text
    back. *)
Lemma join_split (s : string) : Js.join Js.nlS (Js.split Js.nl s) = s.
Proof.
  unfold Js.join. induction s as [|c r IH]; [reflexivity|].
  cbn [Js.split]. pose proof (split_nonempty Js.nl r) as Hne.
  destruct (Ascii.eqb c Js.nl) eqn:Hc.
  - apply Ascii.eqb_eq in Hc. subst c.
    destruct (Js.split Js.nl r) as [|h tl]; [congruence|].
    rewrite concat_cons, IH. reflexivity.
  - destruct (Js.split Js.nl r) as [|h tl]; [congruence|].
    destruct tl as [|h2 tl].
    + cbn in *. rewrite IH. reflexivity.
    + rewrite concat_cons. rewrite concat_cons in IH.
      cbn [append]. rewrite IH. reflexivity.
Qed.

Lemma split_without_nl (s : string) :
  hasNl s = false -> Js.split Js.nl s = [s].
Proof.
  induction s as [|c r IH]; [reflexivity|].
  cbn [hasNl Js.split]. intros H. apply orb_false_iff in H as [Hc Hr].
  rewrite Hc, (IH Hr). reflexivity.
Qed.

(** ** The editor around its cursor *)

Lemma spliceLine_middle (above below new : list string) (line : string) :
  Monaco.spliceLine (S (List.length above)) new (above ++ line :: below)
  = above ++ new ++ below.
Proof.
  unfold Monaco.spliceLine.
  rewrite Nat.sub_succ, Nat.sub_0_r.
  rewrite firstn_app, firstn_all, Nat.sub_diag. cbn [firstn].
  rewrite app_nil_r. f_equal. f_equal.
  rewrite skipn_app, skipn_all2 by lia.
  replace (S (List.length above) - List.length above) with 1 by lia.
  reflexivity.
Qed.

Lemma lineOr_editorAt (above below : list string) (before after : string)
      (c : Position) :
  Monaco.lineOr (mkEditor (above ++ (before ++ after)%string :: below) c)
                (S (List.length above))
  = (before ++ after)%string.
Proof.
  unfold Monaco.lineOr, Monaco.getLineContent. cbn [lines].
  rewrite nth_error_app2 by lia. rewrite Nat.sub_diag. reflexivity.
Qed.

Lemma typeChar_editorAt (c : ascii) (above below : list string)
      (before after : string) :
  Monaco.typeChar c (editorAt above before after below)
  = if Ascii.eqb c Js.nl
    then editorAt (above ++ [before]) EmptyString after below
    else editorAt above (before ++ String c EmptyString) after below.
Proof.
  unfold Monaco.typeChar, editorAt.
  cbn [cursor lineNumber column lines].
  rewrite lineOr_editorAt.
  rewrite Nat.sub_succ, Nat.sub_0_r, prefix_append, suffix_append.
  rewrite !spliceLine_middle.
  destruct (Ascii.eqb c Js.nl).
  - f_equal.
    + rewrite <- app_assoc. reflexivity.
    + rewrite length_app. cbn. f_equal; lia.
  - f_equal.
    + rewrite append_assoc. reflexivity.
    + rewrite length_append. cbn. f_equal; lia.
Qed.

Lemma typeAll_cons (c : ascii) (cs : list ascii) (e : Editor) :
  typeAll (c :: cs) e = typeAll cs (Monaco.typeChar c e).
Proof. reflexivity. Qed.

Lemma chars_String (c : ascii) (r : string) :
  Js.chars (String c r) = c :: Js.chars r.
Proof. reflexivity. Qed.

(** Typing a text character by character puts its lines in at the
    cursor. *)
Lemma typeAll_editorAt (txt : string) :
  forall (above below : list string) (before after : string),
    typeAll (Js.chars txt) (editorAt above before after below)
    = insertedAt above before after below (Js.split Js.nl txt).
Proof.
  induction txt as [|c r IH]; intros above below before after.
  - cbn. rewrite append_empty_r. reflexivity.
  - rewrite chars_String, typeAll_cons, typeChar_editorAt.
    cbn [Js.split].
    pose proof (split_nonempty Js.nl r) as Hne.
    destruct (Ascii.eqb c Js.nl).
    + rewrite IH.
      destruct (Js.split Js.nl r) as [|q qs]; [congruence|].
      destruct qs as [|q2 qs]; cbn [insertedAt removelast last append].
      * rewrite append_empty_r. reflexivity.
      * rewrite append_empty_r, <- app_assoc. reflexivity.
    + rewrite IH.
      destruct (Js.split Js.nl r) as [|q qs]; [congruence|].
      destruct qs as [|q2 qs]; cbn [insertedAt];
        rewrite append_assoc; reflexivity.
Qed.

Lemma length_removelast {A} (l : list A) :
  List.length (removelast l) = List.length l - 1.
Proof.
  induction l as [|x l IH]; [reflexivity|].
  destruct l as [|y l]; [reflexivity|].
  cbn [removelast List.length] in *. rewrite IH. lia.
Qed.

Lemma validatePosition_editorAt (above below : list string)
      (before after : string) (c : Position) :
  Monaco.validatePosition
    (mkEditor (above ++ (before ++ after)%string :: below) c)
    (mkPosition (S (List.length above)) (S (String.length before)))
  = mkPosition (S (List.length above)) (S (String.length before)).
Proof.
  unfold Monaco.validatePosition. cbn [lineNumber column].
  unfold Monaco.getLineCount. cbn [lines]. rewrite length_app. cbn [List.length].
  replace (Nat.min (Nat.max 1 (S (List.length above)))
                   (Nat.max 1 (List.length above + S (List.length below))))
    with (S (List.length above)) by lia.
  rewrite lineOr_editorAt, length_append. f_equal. lia.
Qed.

(** Every editor with a valid cursor is an editor around its cursor. *)
Lemma editorAt_of_valid (e : Editor) (line : string) :
  Monaco.getLineContent e (lineNumber (cursor e)) = Some line ->
  1 <= column (cursor e) <= String.length line + 1 ->
  e = editorAt (firstn (lineNumber (cursor e) - 1) (lines e))
               (Js.prefix (column (cursor e) - 1) line)
               (Js.suffix (column (cursor e) - 1) line)
               (skipn (lineNumber (cursor e)) (lines e)).
Proof.
  destruct e as [ls [l c]]. cbn [cursor lineNumber column lines].
  unfold Monaco.getLineContent. cbn [lines].
  destruct l as [|k]; [discriminate|].
  intros Hline Hc.
  destruct (nth_error_split ls k Hline) as (l1 & l2 & -> & Hlen).
  unfold editorAt. rewrite prefix_suffix.
  rewrite Nat.sub_succ, Nat.sub_0_r. subst k.
  rewrite firstn_app, firstn_all, Nat.sub_diag. cbn [firstn].
  rewrite app_nil_r.
  rewrite skipn_app, skipn_all2 by lia.
  replace (S (List.length l1) - List.length l1) with 1 by lia.
  cbn [skipn app].
  rewrite prefix_length by lia.
  f_equal. f_equal. lia.
Qed.

(** One edit at the cursor followed by the cursor move of
    [simulateTyping] puts the lines of the text in at the cursor. *)
Lemma bulk_insert_editorAt (txt : string) (above below : list string)
      (before after : string) :
  let e := editorAt above before after below in
  Monaco.setPosition
    (positionAfter (cursor e) txt)
    (Monaco.executeEdits (lineNumber (cursor e)) (column (cursor e))
                         (column (cursor e)) txt e)
  = insertedAt above before after below (Js.split Js.nl txt).
Proof.
  cbv zeta. unfold positionAfter, Monaco.executeEdits, editorAt.
  cbn [cursor lineNumber column lines].
  assert (Hget : Monaco.getLineContent
                   (mkEditor (above ++ (before ++ after)%string :: below)
                             (mkPosition (S (List.length above))
                                         (S (String.length before))))
                   (S (List.length above)) = Some (before ++ after)%string).
  { unfold Monaco.getLineContent. cbn [lines].
    rewrite nth_error_app2 by lia. rewrite Nat.sub_diag. reflexivity. }
  rewrite Hget.
  rewrite Nat.sub_succ, Nat.sub_0_r, prefix_append, suffix_append.
  rewrite spliceLine_middle.
  pose proof (join_split txt) as Hjoin. unfold Js.join in Hjoin.
  pose proof (split_nonempty Js.nl txt) as Hne.
  destruct (Js.split Js.nl txt) as [|p rest]; [congruence|].
  destruct rest as [|q rest].
  - cbn in Hjoin. subst p.
    cbn [Monaco.insertPieces List.length Nat.ltb Nat.leb insertedAt].
    unfold Monaco.setPosition, editorAt. cbn [lines app].
    rewrite <- append_assoc.
    replace (S (String.length before) + String.length txt)
      with (S (String.length (before ++ txt)))
      by (rewrite length_append; lia).
    rewrite validatePosition_editorAt. reflexivity.
  - cbn [Monaco.insertPieces insertedAt].
    unfold Monaco.setPosition, editorAt. cbn [lines].
    assert (Hlines :
              above ++ ((before ++ p)%string :: removelast (q :: rest)
                        ++ [(last (q :: rest) EmptyString ++ after)%string])
                    ++ below
              = (above ++ (before ++ p)%string :: removelast (q :: rest))
                  ++ (last (q :: rest) EmptyString ++ after)%string :: below).
    { rewrite <- !app_assoc. cbn [app]. rewrite <- app_assoc. reflexivity. }
    rewrite Hlines.
    assert (Hpos :
              (if Nat.ltb 1 (List.length (p :: q :: rest))
               then mkPosition (S (List.length above)
                                + (List.length (p :: q :: rest) - 1))
                               (String.length
                                  (last (p :: q :: rest) EmptyString) + 1)
               else mkPosition (S (List.length above))
                               (S (String.length before) + String.length txt))
              = mkPosition
                  (S (List.length (above ++ (before ++ p)%string
                                         :: removelast (q :: rest))))
                  (S (String.length (last (q :: rest) EmptyString)))).
    { cbn [List.length Nat.ltb Nat.leb].
      rewrite length_app. cbn [List.length].
      rewrite length_removelast. cbn [List.length last].
      f_equal; lia. }
    rewrite Hpos, validatePosition_editorAt. reflexivity.
Qed.

Lemma bulk_insert_valid (e : Editor) (txt : string) :
  validCursor e ->
  Monaco.setPosition
    (positionAfter (cursor e) txt)
    (Monaco.executeEdits (lineNumber (cursor e)) (column (cursor e))
                         (column (cursor e)) txt e)
  = typeAll (Js.chars txt) e.
Proof.
  intros (line & Hline & Hc).
  pose proof (editorAt_of_valid e Hline Hc) as Heq.
  revert Heq.
  generalize (firstn (lineNumber (cursor e) - 1) (lines e)),
             (Js.prefix (column (cursor e) - 1) line),
             (Js.suffix (column (cursor e) - 1) line),
             (skipn (lineNumber (cursor e)) (lines e)).
  intros above before after below Heq.
  clear Hline Hc. subst e.
  rewrite typeAll_editorAt. apply bulk_insert_editorAt.
Qed.

Lemma validCursor_editorAt (above below : list string) (before after : string) :
  validCursor (editorAt above before after below).
Proof.
  exists (before ++ after)%string. unfold editorAt.
  cbn [cursor lineNumber column]. split.
  - unfold Monaco.getLineContent. cbn [lines].
    rewrite nth_error_app2 by lia. rewrite Nat.sub_diag. reflexivity.
  - rewrite length_append. lia.
Qed.

Lemma validCursor_insertedAt (above below pieces : list string)
      (before after : string) :
  validCursor (insertedAt above before after below pieces).
Proof.
  destruct pieces as [|p [|q rest]]; cbn [insertedAt];
    apply validCursor_editorAt.
Qed.

(** Typing keeps the cursor valid. *)
Lemma validCursor_typeAll (e : Editor) (txt : string) :
  validCursor e -> validCursor (typeAll (Js.chars txt) e).
Proof.
  intros (line & Hline & Hc).
  pose proof (editorAt_of_valid e Hline Hc) as Heq.
  rewrite Heq, typeAll_editorAt. apply validCursor_insertedAt.
Qed.

(** X1.  With an editor that accepts its commands and a cursor inside
    the document, [simulateTyping] (one edit, then a computed cursor
    position) and [simulateTypingWithDelay] (one keystroke per
    character) leave the same document and the same cursor, and the
    cursor is again inside the document. *)
Theorem typing_at_once_or_by_keystroke
        (env : Env) (txt : string) (s : Simulator) (e : Editor) :
  (forall k, editorFault env k = false) ->
  editor s = Some e ->
  validCursor e ->
  exists s1 s2 e',
    simulateTyping env txt s = (Returned tt, s1)
    /\ simulateTypingWithDelay env txt s = (Returned tt, s2)
    /\ editor s1 = Some e'
    /\ editor s2 = Some e'
    /\ e' = typeAll (Js.chars txt) e
    /\ validCursor e'.
Proof.
  intros Hnf He Hvalid.
  destruct (@simulateTypingWithDelay_effect env Hnf txt s e He)
    as (s2 & Hrun2 & He2 & _).
  unfold simulateTyping. rewrite bind_this, He.
  destruct (@command_effect env Hnf
              (CmdEdits (lineNumber (getPosition e)) (column (getPosition e))
                        (column (getPosition e)) txt) s e He)
    as (s0 & Hrun0 & He0 & _).
  unfold bind at 1. rewrite Hrun0.
  match goal with
  | |- context [command env (CmdSetPosition ?p) s0] =>
      destruct (@command_effect env Hnf (CmdSetPosition p) s0 _ He0)
        as (s1 & Hrun1 & He1 & _)
  end.
  rewrite Hrun1.
  exists s1, s2, (typeAll (Js.chars txt) e).
  split; [reflexivity|]. split; [exact Hrun2|].
  split; [|split; [exact He2 | split; [reflexivity |]]].
  - rewrite He1. f_equal. cbn [applyCmd].
    apply (bulk_insert_valid txt Hvalid).
  - apply validCursor_typeAll. exact Hvalid.
Qed.

Lemma typing_at_once_or_by_keystroke_witness :
  editor sampleSimulator = Some sampleEditor
  /\ validCursor sampleEditor
  /\ exists s1 s2 e',
      simulateTyping quietHost ("a" ++ Js.nlS ++ "b") sampleSimulator
      = (Returned tt, s1)
      /\ simulateTypingWithDelay quietHost ("a" ++ Js.nlS ++ "b")
                                 sampleSimulator
         = (Returned tt, s2)
      /\ editor s1 = Some e'
      /\ editor s2 = Some e'
      /\ e' = typeAll (Js.chars ("a" ++ Js.nlS ++ "b")) sampleEditor
      /\ validCursor e'.
Proof.
  assert (Hvalid : validCursor sampleEditor).
  { exists "    pass"%string. split; [reflexivity | cbn; lia]. }
  split; [reflexivity | split; [exact Hvalid |]].
  exact (@typing_at_once_or_by_keystroke quietHost ("a" ++ Js.nlS ++ "b")
           sampleSimulator sampleEditor (fun _ => eq_refl) eq_refl Hvalid).
Defined.

(** ** The text of the document *)

Lemma concat_cons_nonempty (sep h : string) (tl : list string) :
  tl <> [] ->
  String.concat sep (h :: tl) = (h ++ sep ++ String.concat sep tl)%string.
Proof. destruct tl as [|y ys]; [congruence | reflexivity]. Qed.

Lemma join_cons_below (x : string) (below : list string) :
  Js.join Js.nlS (x :: below) = (x ++ textBelow below)%string.
Proof.
  unfold Js.join. revert x. induction below as [|y below IH]; intros x.
  - cbn. rewrite append_empty_r. reflexivity.
  - rewrite concat_cons, IH. reflexivity.
Qed.

Lemma join_around (above below : list string) (x : string) :
  Js.join Js.nlS (above ++ x :: below)
  = (textAbove above ++ x ++ textBelow below)%string.
Proof.
  induction above as [|p above IH].
  - apply join_cons_below.
  - unfold Js.join in *. cbn [app textAbove fold_right].
    rewrite concat_cons_nonempty by (destruct above; discriminate).
    rewrite IH, !append_assoc. reflexivity.
Qed.

Lemma textAbove_app (a b : list string) :
  textAbove (a ++ b) = (textAbove a ++ textAbove b)%string.
Proof.
  induction a as [|x a IH]; [reflexivity|].
  cbn [app textAbove fold_right]. fold (textAbove (a ++ b)).
  fold (textAbove a). rewrite IH, !append_assoc. reflexivity.
Qed.

Lemma join_last (pieces : list string) :
  pieces <> [] ->
  Js.join Js.nlS pieces
  = (textAbove (removelast pieces) ++ last pieces EmptyString)%string.
Proof.
  intros Hne.
  rewrite (app_removelast_last EmptyString Hne) at 1.
  rewrite join_around. cbn. rewrite append_empty_r. reflexivity.
Qed.

Lemma getValue_editorAt (above below : list string) (before after : string) :
  Monaco.getValue (editorAt above before after below)
  = ((textAbove above ++ before) ++ after ++ textBelow below)%string.
Proof.
  unfold Monaco.getValue, editorAt. cbn [lines].
  rewrite join_around, !append_assoc. reflexivity.
Qed.

Lemma getValue_insertedAt (above below pieces : list string)
      (before after : string) :
  pieces <> [] ->
  Monaco.getValue (insertedAt above before after below pieces)
  = ((textAbove above ++ before) ++ Js.join Js.nlS pieces
     ++ after ++ textBelow below)%string.
Proof.
  intros Hne. destruct pieces as [|p rest]; [congruence|].
  destruct rest as [|q rest].
  - cbn [insertedAt]. rewrite getValue_editorAt. cbn.
    rewrite !append_assoc. reflexivity.
  - cbn [insertedAt]. rewrite getValue_editorAt.
    rewrite textAbove_app. cbn [textAbove fold_right].
    fold (textAbove (removelast (q :: rest))).
    unfold Js.join. rewrite concat_cons.
    fold (Js.join Js.nlS (q :: rest)).
    rewrite (@join_last (q :: rest)) by discriminate.
    rewrite !append_assoc. reflexivity.
Qed.

Lemma length_textAbove (above : list string) :
  String.length (textAbove above)
  = fold_right (fun l acc => String.length l + 1 + acc) 0 above.
Proof.
  induction above as [|x above IH]; [reflexivity|].
  cbn [textAbove fold_right]. fold (textAbove above).
  rewrite !length_append, IH. cbn. lia.
Qed.

Lemma getOffsetAt_editorAt (above below : list string) (before after : string) :
  let e := editorAt above before after below in
  Monaco.getOffsetAt e (cursor e)
  = String.length (textAbove above ++ before).
Proof.
  cbv zeta. unfold Monaco.getOffsetAt, editorAt. cbn [cursor lines].
  rewrite validatePosition_editorAt. cbn [lineNumber column lines].
  rewrite Nat.sub_succ, !Nat.sub_0_r.
  rewrite firstn_app, firstn_all, Nat.sub_diag. cbn [firstn].
  rewrite app_nil_r, length_append, length_textAbove. lia.
Qed.

(** Typing a text puts it into the text of the document at the offset
    of the cursor, and moves the offset of the cursor behind it. *)
Lemma getValue_typeAll (e : Editor) (txt : string) :
  validCursor e ->
  let offset := Monaco.getOffsetAt e (cursor e) in
  let e' := typeAll (Js.chars txt) e in
  Monaco.getValue e'
  = (Js.prefix offset (Monaco.getValue e) ++ txt
     ++ Js.suffix offset (Monaco.getValue e))%string
  /\ Monaco.getOffsetAt e' (cursor e') = offset + String.length txt.
Proof.
  intros (line & Hline & Hc).
  pose proof (editorAt_of_valid e Hline Hc) as Heq.
  revert Heq.
  generalize (firstn (lineNumber (cursor e) - 1) (lines e)),
             (Js.prefix (column (cursor e) - 1) line),
             (Js.suffix (column (cursor e) - 1) line),
             (skipn (lineNumber (cursor e)) (lines e)).
  intros above before after below Heq.
  clear Hline Hc. subst e. cbv zeta.
  rewrite typeAll_editorAt, getOffsetAt_editorAt, getValue_editorAt.
  rewrite prefix_append, suffix_append.
  pose proof (split_nonempty Js.nl txt) as Hne.
  split.
  - rewrite getValue_insertedAt by assumption.
    rewrite join_split. reflexivity.
  - pose proof (join_split txt) as Hjoin.
    destruct (Js.split Js.nl txt) as [|p rest]; [congruence|].
    destruct rest as [|q rest]; cbn [insertedAt].
    + cbn in Hjoin. subst p. rewrite getOffsetAt_editorAt.
      rewrite !length_append. lia.
    + rewrite getOffsetAt_editorAt, textAbove_app.
      cbn [textAbove fold_right].
      fold (textAbove (removelast (q :: rest))).
      rewrite <- Hjoin. unfold Js.join. rewrite concat_cons.
      fold (Js.join Js.nlS (q :: rest)).
      rewrite (@join_last (q :: rest)) by discriminate.
      rewrite !length_append. cbn [String.length Js.nlS]. lia.
Qed.

(** X2.  With an editor that accepts its commands and a cursor inside
    the document, [simulateTypingWithDelay], whatever calls of [stop()]
    come in between, leaves the text of the document with the typed
    text put in at the offset of the cursor and nothing else changed,
    and the cursor right behind the typed text. *)
Theorem typing_inserts_at_cursor
        (env : Env) (txt : string) (s : Simulator) (e : Editor) :
  (forall k, editorFault env k = false) ->
  editor s = Some e ->
  validCursor e ->
  let offset := Monaco.getOffsetAt e (cursor e) in
  exists s' e',
    simulateTypingWithDelay env txt s = (Returned tt, s')
    /\ editor s' = Some e'
    /\ Monaco.getValue e'
       = (Js.prefix offset (Monaco.getValue e) ++ txt
          ++ Js.suffix offset (Monaco.getValue e))%string
    /\ Monaco.getOffsetAt e' (cursor e') = offset + String.length txt.
Proof.
  intros Hnf He Hvalid. cbv zeta.
  destruct (@simulateTypingWithDelay_effect env Hnf txt s e He)
    as (s' & Hrun & He' & _).
  exists s', (typeAll (Js.chars txt) e).
  split; [exact Hrun | split; [exact He' |]].
  apply (getValue_typeAll txt Hvalid).
Qed.

Lemma typing_inserts_at_cursor_witness :
  editor sampleSimulator = Some sampleEditor
  /\ validCursor sampleEditor
  /\ exists s' e',
      simulateTypingWithDelay quietHost "ab" sampleSimulator = (Returned tt, s')
      /\ editor s' = Some e'
      /\ Monaco.getValue e'
         = (Js.prefix (Monaco.getOffsetAt sampleEditor (cursor sampleEditor))
                      (Monaco.getValue sampleEditor)
            ++ "ab"
            ++ Js.suffix (Monaco.getOffsetAt sampleEditor (cursor sampleEditor))
                         (Monaco.getValue sampleEditor))%string
      /\ Monaco.getOffsetAt e' (cursor e')
         = Monaco.getOffsetAt sampleEditor (cursor sampleEditor)
           + String.length "ab".
Proof.
  assert (Hvalid : validCursor sampleEditor).
  { exists "    pass"%string. split; [reflexivity | cbn; lia]. }
  split; [reflexivity | split; [exact Hvalid |]].
  exact (@typing_inserts_at_cursor quietHost "ab" sampleSimulator sampleEditor
           (fun _ => eq_refl) eq_refl Hvalid).
Defined.

(* ===================================================================== *)
(** * What each edit operation does to the document *)
(* ===================================================================== *)

Lemma getLineContent_of_valid (e : Editor) (n : nat) :
  1 <= n <= Monaco.getLineCount e ->
  exists line, Monaco.getLineContent e n = Some line.
Proof.
  unfold Monaco.getLineCount, Monaco.getLineContent. intros Hn.
  destruct n as [|k]; [lia|].
  destruct (nth_error (lines e) k) eqn:Hk; [eauto|].
  apply nth_error_None in Hk. lia.
Qed.

Lemma validatePosition_valid (e : Editor) (n c : nat) (line : string) :
  Monaco.getLineContent e n = Some line ->
  1 <= c <= String.length line + 1 ->
  Monaco.validatePosition e (mkPosition n c) = mkPosition n c.
Proof.
  intros Hline Hc. pose proof (getLineContent_valid e n Hline) as Hn.
  unfold Monaco.validatePosition. cbn [lineNumber column].
  replace (Nat.min (Nat.max 1 n) (Nat.max 1 (Monaco.getLineCount e)))
    with n by lia.
  unfold Monaco.lineOr. rewrite Hline. f_equal. lia.
Qed.

(** Moving the cursor to a column of an existing line. *)
Lemma setPosition_editorAt (e : Editor) (n c : nat) (line : string) :
  Monaco.getLineContent e n = Some line ->
  1 <= c <= String.length line + 1 ->
  Monaco.setPosition (mkPosition n c) e
  = editorAt (firstn (n - 1) (lines e)) (Js.prefix (c - 1) line)
             (Js.suffix (c - 1) line) (skipn n (lines e)).
Proof.
  intros Hline Hc. unfold Monaco.setPosition.
  rewrite (validatePosition_valid e n Hline Hc).
  apply (@editorAt_of_valid (mkEditor (lines e) (mkPosition n c)) line);
    assumption.
Qed.

Lemma prefix_all (s : string) : Js.prefix (String.length s) s = s.
Proof.
  rewrite <- (append_empty_r s) at 2. apply prefix_append.
Qed.

Lemma lines_insertedAt (above below pieces : list string)
      (before after : string) :
  pieces <> [] ->
  lines (insertedAt above before after below pieces)
  = above ++ Monaco.insertPieces before after pieces ++ below.
Proof.
  intros Hne. destruct pieces as [|p [|q rest]]; [congruence | |].
  - cbn [insertedAt Monaco.insertPieces]. unfold editorAt. cbn [lines app].
    rewrite append_assoc. reflexivity.
  - cbn [insertedAt Monaco.insertPieces]. unfold editorAt. cbn [lines].
    rewrite <- !app_assoc. cbn [app]. rewrite <- app_assoc. reflexivity.
Qed.

Lemma spliceLine_eq (n : nat) (new ls : list string) :
  Monaco.spliceLine n new ls = firstn (n - 1) ls ++ new ++ skipn n ls.
Proof. reflexivity. Qed.

(** The cleared editor of a replace is an editor around its cursor. *)
Lemma clearedAt_editorAt (n : nat) (line indentation : string) (e : Editor) :
  Monaco.getLineContent e n = Some line ->
  clearedAt n indentation e
  = editorAt (firstn (n - 1) (lines e)) indentation EmptyString
             (skipn n (lines e)).
Proof.
  intros Hline. pose proof (getLineContent_valid e n Hline) as Hn.
  unfold Monaco.getLineCount in Hn.
  unfold clearedAt, editorAt, Monaco.spliceLine. rewrite append_empty_r.
  cbn [app]. f_equal. rewrite length_firstn. f_equal; lia.
Qed.

(** ** Moving the cursor to the end *)

Lemma validatePosition_endOfFile (e : Editor) :
  lines e <> [] ->
  Monaco.validatePosition e (endOfFile e) = endOfFile e.
Proof.
  intros Hne. unfold endOfFile.
  assert (Hcount : 1 <= Monaco.getLineCount e).
  { unfold Monaco.getLineCount. destruct (lines e); [congruence | cbn; lia]. }
  destruct (@getLineContent_of_valid e (Monaco.getLineCount e)) as [l Hl];
    [lia|].
  unfold Monaco.lineOr. rewrite Hl.
  apply (validatePosition_valid e _ Hl). lia.
Qed.

Section Operations.

Variable env : Env.
Hypothesis no_fault : forall k, editorFault env k = false.

Lemma moveCursorToEndOfFile_effect (s : Simulator) (e : Editor) :
  editor s = Some e ->
  lines e <> [] ->
  exists s',
    moveCursorToEndOfFile env s = (Returned tt, s')
    /\ editor s' = Some (mkEditor (lines e) (endOfFile e))
    /\ isTyping s' = isTyping s.
Proof.
  intros He Hne. unfold moveCursorToEndOfFile. rewrite bind_this, He.
  assert (Hcount : 1 <= Monaco.getLineCount e).
  { unfold Monaco.getLineCount. destruct (lines e); [congruence | cbn; lia]. }
  destruct (@getLineContent_of_valid e (Monaco.getLineCount e)) as [l Hl];
    [lia|].
  unfold bind at 1. unfold getLineContent. rewrite He, Hl.
  destruct (@command_effect env no_fault
              (CmdSetPosition (mkPosition (Monaco.getLineCount e)
                                          (String.length l + 1))) s e He)
    as (s' & Hrun & He' & Ht & _).
  rewrite Hrun. exists s'. split; [reflexivity|]. split; [|exact Ht].
  rewrite He'. cbn [applyCmd]. unfold Monaco.setPosition. f_equal. f_equal.
  pose proof (validatePosition_endOfFile e Hne) as Hend.
  unfold endOfFile, Monaco.lineOr in *. rewrite Hl in *. exact Hend.
Qed.

(** The section [isTyping = true; try { body } finally { isTyping =
    false }] when [body] returns. *)
Lemma lock_section_returns (body : M unit) (s s1 : Simulator) :
  body (set_isTyping s true) = (Returned tt, s1) ->
  (assign (fun s => set_isTyping s true) ;;
   tryFinally body (assign (fun s => set_isTyping s false))) s
  = (Returned tt, set_isTyping s1 false).
Proof.
  intros Hbody. unfold bind, assign, tryFinally. rewrite Hbody. reflexivity.
Qed.

End Operations.

(** ** Line feeds in strings *)

Lemma hasNl_append (a b : string) :
  hasNl (a ++ b) = hasNl a || hasNl b.
Proof.
  induction a as [|c r IH]; [reflexivity|].
  cbn. rewrite IH, orb_assoc. reflexivity.
Qed.

Lemma hasNl_trimStart (s : string) :
  hasNl s = false -> hasNl (Js.trimStart s) = false.
Proof.
  induction s as [|c r IH]; [reflexivity|].
  cbn [Js.trimStart]. intros H.
  destruct (Js.isWhite c); [|exact H].
  cbn in H. apply orb_false_iff in H as [_ Hr]. auto.
Qed.

Lemma hasNl_trimEnd (s : string) :
  hasNl s = false -> hasNl (Js.trimEnd s) = false.
Proof.
  induction s as [|c r IH]; [reflexivity|].
  cbn [Js.trimEnd hasNl]. intros H.
  apply orb_false_iff in H as [Hc Hr]. specialize (IH Hr).
  destruct (Js.trimEnd r) as [|c' r'].
  - destruct (Js.isWhite c); [reflexivity|].
    cbn [hasNl]. rewrite Hc. reflexivity.
  - cbn [hasNl] in *. rewrite Hc. exact IH.
Qed.

Lemma hasNl_trim (s : string) : hasNl s = false -> hasNl (Js.trim s) = false.
Proof. intros H. apply hasNl_trimEnd, hasNl_trimStart, H. Qed.

Lemma hasNl_replaceNl (s : string) : hasNl (Js.replaceNl s) = false.
Proof.
  induction s as [|c r IH]; [reflexivity|].
  cbn [Js.replaceNl hasNl]. rewrite IH.
  destruct (Ascii.eqb c Js.nl) eqn:Hc; [reflexivity|].
  rewrite Hc. reflexivity.
Qed.

Lemma hasNl_cleanText (s : string) : hasNl (cleanText s) = false.
Proof. apply hasNl_trim, hasNl_replaceNl. Qed.

Lemma hasNl_prefix (n : nat) (s : string) :
  hasNl s = false -> hasNl (Js.prefix n s) = false.
Proof.
  intros H. rewrite <- (prefix_suffix n s), hasNl_append in H.
  apply orb_false_iff in H. tauto.
Qed.

Lemma hasNl_getIndentation (line : string) :
  hasNl line = false -> hasNl (getIndentation line) = false.
Proof. apply hasNl_prefix. Qed.

Lemma split_pieces_without_nl (s : string) :
  Forall (fun p => hasNl p = false) (Js.split Js.nl s).
Proof.
  induction s as [|c r IH]; [repeat constructor|].
  cbn [Js.split]. pose proof (split_nonempty Js.nl r) as Hne.
  destruct (Ascii.eqb c Js.nl) eqn:Hc.
  - constructor; [reflexivity | exact IH].
  - destruct (Js.split Js.nl r) as [|h tl]; [congruence|].
    inversion IH as [|? ? Hh Htl]; subst.
    constructor; [|exact Htl]. cbn [hasNl]. rewrite Hc. exact Hh.
Qed.

Lemma split_append_nl (a b : string) :
  Js.split Js.nl (a ++ String Js.nl b)
  = Js.split Js.nl a ++ Js.split Js.nl b.
Proof.
  induction a as [|c r IH].
  - cbn [append Js.split]. rewrite Ascii.eqb_refl. reflexivity.
  - cbn [append Js.split]. rewrite IH.
    pose proof (split_nonempty Js.nl r) as Hne.
    destruct (Ascii.eqb c Js.nl); [reflexivity|].
    destruct (Js.split Js.nl r) as [|h tl]; [congruence | reflexivity].
Qed.

(** Joining lines without line feeds and splitting again gives the
    lines back. *)
Lemma split_join (ls : list string) :
  ls <> [] ->
  Forall (fun p => hasNl p = false) ls ->
  Js.split Js.nl (Js.join Js.nlS ls) = ls.
Proof.
  unfold Js.join. induction ls as [|x ls IH]; [congruence|].
  intros _ Hall. inversion Hall as [|? ? Hx Hls]; subst.
  destruct ls as [|y ls].
  - cbn [String.concat]. apply split_without_nl, Hx.
  - rewrite concat_cons. change (Js.nlS ++ String.concat Js.nlS (y :: ls))%string
      with (String Js.nl (String.concat Js.nlS (y :: ls))).
    rewrite split_append_nl, (split_without_nl _ Hx), IH;
      [reflexivity | discriminate | exact Hls].
Qed.

Lemma insertPieces_whole_lines (before : string) (x : string) (xs : list string) :
  Monaco.insertPieces before EmptyString (x :: xs)
  = (before ++ x)%string :: xs.
Proof.
  destruct xs as [|y ys].
  - cbn. rewrite append_empty_r. reflexivity.
  - cbn [Monaco.insertPieces]. rewrite append_empty_r.
    rewrite <- (app_removelast_last EmptyString) by discriminate.
    reflexivity.
Qed.

(** ** Replacing the content of a line *)

Lemma formattedText_pieces (indentation txt : string) :
  hasNl indentation = false ->
  Monaco.insertPieces indentation EmptyString
    (Js.split Js.nl (formattedText indentation txt))
  = replacementLines indentation txt.
Proof.
  intros Hind. unfold formattedText, replacementLines, indentLines.
  pose proof (split_nonempty Js.nl txt) as Hne.
  pose proof (split_pieces_without_nl txt) as Hall.
  destruct (Js.split Js.nl txt) as [|first rest]; [congruence|].
  inversion Hall as [|? ? Hfirst Hrest]; subst.
  rewrite split_join.
  - apply insertPieces_whole_lines.
  - discriminate.
  - constructor; [apply hasNl_trim, Hfirst|].
    apply Forall_map. revert Hrest. apply Forall_impl.
    intros l Hl. rewrite hasNl_append, Hind, Hl. reflexivity.
Qed.

Lemma replacementLines_nonempty (indentation txt : string) :
  replacementLines indentation txt <> [].
Proof.
  unfold replacementLines. pose proof (split_nonempty Js.nl txt) as Hne.
  destruct (Js.split Js.nl txt); [congruence | discriminate].
Qed.

Lemma insertedAt_cursor_whole_lines (above below : list string)
      (before : string) (x : string) (xs : list string) :
  cursor (insertedAt above before EmptyString below (x :: xs))
  = mkPosition (S (List.length above) + List.length xs)
               (String.length
                  (last (Monaco.insertPieces before EmptyString (x :: xs))
                        EmptyString) + 1).
Proof.
  rewrite insertPieces_whole_lines.
  destruct xs as [|y ys].
  - cbn [insertedAt last List.length]. unfold editorAt. cbn [cursor].
    f_equal; lia.
  - cbn [insertedAt]. unfold editorAt. cbn [cursor].
    rewrite length_app. cbn [List.length]. rewrite length_removelast.
    cbn [List.length last]. f_equal; lia.
Qed.

(** The document after the content of line [n] has been cleared to its
    indentation and the formatted payload typed: line [n] has given way
    to the replacement lines, and the cursor is behind the last of them. *)
Lemma typeAll_replacement (e : Editor) (n : nat) (line txt : string) :
  Monaco.getLineContent e n = Some line ->
  hasNl line = false ->
  let indentation := getIndentation line in
  let e' := typeAll (Js.chars (formattedText indentation txt))
                    (clearedAt n indentation e) in
  lines e' = firstn (n - 1) (lines e)
             ++ replacementLines indentation txt
             ++ skipn n (lines e)
  /\ cursor e'
     = mkPosition (n + (List.length (replacementLines indentation txt) - 1))
                  (String.length
                     (last (replacementLines indentation txt) EmptyString) + 1).
Proof.
  intros Hline Hnl. cbv zeta.
  pose proof (getLineContent_valid e n Hline) as Hn.
  unfold Monaco.getLineCount in Hn.
  pose proof (hasNl_getIndentation line Hnl) as Hind.
  rewrite (@clearedAt_editorAt n line (getIndentation line) e Hline).
  rewrite typeAll_editorAt.
  pose proof (split_nonempty Js.nl (formattedText (getIndentation line) txt))
    as Hne.
  split.
  - rewrite lines_insertedAt by assumption.
    rewrite formattedText_pieces by assumption. reflexivity.
  - pose proof (@formattedText_pieces (getIndentation line) txt Hind) as Hpieces.
    destruct (Js.split Js.nl (formattedText (getIndentation line) txt))
      as [|x xs]; [congruence|].
    rewrite insertedAt_cursor_whole_lines, Hpieces.
    rewrite insertPieces_whole_lines in Hpieces. rewrite <- Hpieces.
    cbn [List.length]. rewrite length_firstn. f_equal. lia.
Qed.

Lemma typeAll_lines_nonempty (e : Editor) (txt : string) :
  validCursor e -> lines (typeAll (Js.chars txt) e) <> [].
Proof.
  intros Hvalid.
  destruct (validCursor_typeAll txt Hvalid) as (line & Hline & _).
  intros Hnil. unfold Monaco.getLineContent in Hline. rewrite Hnil in Hline.
  destruct (lineNumber (cursor (typeAll (Js.chars txt) e))) as [|[|k]];
    discriminate.
Qed.

Lemma validCursor_clearedAt (e : Editor) (n : nat) (line indentation : string) :
  Monaco.getLineContent e n = Some line ->
  validCursor (clearedAt n indentation e).
Proof.
  intros Hline. rewrite (@clearedAt_editorAt n line indentation e Hline).
  apply validCursor_editorAt.
Qed.

(** X3.  REPLACE_AND_APPEND on a line of a document whose lines hold no
    line feed, with the typing lock free and an editor that accepts its
    commands: the lines above and below the cursor's line are untouched,
    the line itself gives way to the payload's lines (the first trimmed
    at both ends, each behind the indentation of the original line), and
    the cursor ends behind the last character typed. *)
Theorem replace_and_append_document
        (env : Env) (txt : string) (p : Position) (s : Simulator)
        (e : Editor) (line : string) :
  (forall k, editorFault env k = false) ->
  editor s = Some e ->
  isTyping s = false ->
  Monaco.getLineContent e (lineNumber p) = Some line ->
  hasNl line = false ->
  let n := lineNumber p in
  let new := replacementLines (getIndentation line) txt in
  exists s' e',
    replaceAndAppendLine env txt p s = (Returned tt, s')
    /\ editor s' = Some e'
    /\ lines e' = firstn (n - 1) (lines e) ++ new ++ skipn n (lines e)
    /\ cursor e'
       = mkPosition (n + (List.length new - 1))
                    (String.length (last new EmptyString) + 1)
    /\ isTyping s' = false.
Proof.
  intros Hnf He Hfree Hline Hnl. cbv zeta.
  unfold replaceAndAppendLine. rewrite bind_this, He, Hfree.
  set (s0 := set_isTyping s true).
  assert (He0 : editor s0 = Some e) by exact He.
  match goal with
  | |- context [tryFinally ?b _] => set (body := b)
  end.
  assert (Hbody :
            exists s1,
              body s0 = (Returned tt, s1)
              /\ editor s1
                 = Some (typeAll (Js.chars (formattedText (getIndentation line)
                                                          txt))
                                 (clearedAt (lineNumber p)
                                            (getIndentation line) e))).
  { unfold body. unfold bind at 1. unfold getLineContent at 1.
    rewrite He0, Hline.
    destruct (@command_effect env Hnf
                (CmdEdits (lineNumber p)
                          (String.length (getIndentation line) + 1)
                          (String.length line + 1) EmptyString) s0 e He0)
      as (s1 & Hrun1 & He1 & _).
    unfold bind at 1. rewrite Hrun1.
    destruct (@command_effect env Hnf
                (CmdSetPosition
                   (mkPosition (lineNumber p)
                               (String.length (getIndentation line) + 1)))
                s1 _ He1)
      as (s2 & Hrun2 & He2 & _).
    unfold bind at 1. rewrite Hrun2.
    rewrite (clear_commands (lineNumber p) e Hline) in He2.
    destruct (@simulateTypingWithDelay_effect env Hnf
                (formattedText (getIndentation line) txt) s2 _ He2)
      as (s3 & Hrun3 & He3 & _).
    exists s3. split; assumption. }
  destruct Hbody as (s1 & Hbody & He1).
  rewrite (@lock_section_returns body s s1 Hbody).
  destruct (@typeAll_replacement e (lineNumber p) line txt Hline Hnl)
    as [Hlines Hcursor].
  eexists. eexists. split; [reflexivity|].
  split; [exact He1|]. split; [exact Hlines|]. split; [exact Hcursor|].
  reflexivity.
Qed.

Lemma replace_and_append_document_witness :
  editor sampleSimulator = Some sampleEditor
  /\ isTyping sampleSimulator = false
  /\ Monaco.getLineContent sampleEditor 2 = Some "    pass"%string
  /\ exists s' e',
      replaceAndAppendLine quietHost ("  x  " ++ Js.nlS ++ "y")
                           (mkPosition 2 9) sampleSimulator
      = (Returned tt, s')
      /\ editor s' = Some e'
      /\ lines e'
         = firstn (2 - 1) (lines sampleEditor)
           ++ replacementLines (getIndentation "    pass")
                               ("  x  " ++ Js.nlS ++ "y")
           ++ skipn 2 (lines sampleEditor)
      /\ cursor e'
         = mkPosition
             (2 + (List.length
                     (replacementLines (getIndentation "    pass")
                                       ("  x  " ++ Js.nlS ++ "y")) - 1))
             (String.length
                (last (replacementLines (getIndentation "    pass")
                                        ("  x  " ++ Js.nlS ++ "y"))
                      EmptyString) + 1)
      /\ isTyping s' = false.
Proof.
  split; [reflexivity | split; [reflexivity | split; [reflexivity |]]].
  exact (@replace_and_append_document quietHost ("  x  " ++ Js.nlS ++ "y")
           (mkPosition 2 9) sampleSimulator sampleEditor "    pass"
           (fun _ => eq_refl) eq_refl eq_refl eq_refl eq_refl).
Defined.

(** X4.  EDIT_EXISTING_LINES with a target line inside a document whose
    lines hold no line feed, with the typing lock free and an editor
    that accepts its commands: the target line, wherever the cursor was,
    gives way to the payload's lines (the first trimmed at both ends,
    each behind the indentation of the target line), all other lines are
    untouched, and the cursor ends at the end of the document. *)
Theorem edit_existing_lines_document
        (env : Env) (txt : string) (targetLine : Z) (s : Simulator)
        (e : Editor) (line : string) :
  (forall k, editorFault env k = false) ->
  editor s = Some e ->
  isTyping s = false ->
  (1 <= targetLine)%Z ->
  Monaco.getLineContent e (Z.to_nat targetLine) = Some line ->
  hasNl line = false ->
  let n := Z.to_nat targetLine in
  let new := replacementLines (getIndentation line) txt in
  exists s' e',
    editExistingLines env txt targetLine s = (Returned tt, s')
    /\ editor s' = Some e'
    /\ lines e' = firstn (n - 1) (lines e) ++ new ++ skipn n (lines e)
    /\ cursor e' = endOfFile e'
    /\ isTyping s' = false.
Proof.
  intros Hnf He Hfree Hpos Hline Hnl. cbv zeta.
  pose proof (getLineContent_valid e _ Hline) as Hn.
  assert (Hin : outOfBounds targetLine e = false).
  { unfold outOfBounds. apply orb_false_iff.
    split; apply Z.ltb_ge; lia. }
  unfold editExistingLines. rewrite bind_this, He, Hfree, Hin.
  set (n := Z.to_nat targetLine) in *.
  set (s0 := set_isTyping s true).
  assert (He0 : editor s0 = Some e) by exact He.
  set (typed := typeAll (Js.chars (formattedText (getIndentation line) txt))
                        (clearedAt n (getIndentation line) e)).
  assert (Hne : lines typed <> []).
  { apply typeAll_lines_nonempty.
    apply (@validCursor_clearedAt e n line _ Hline). }
  match goal with
  | |- context [tryFinally ?b _] => set (body := b)
  end.
  assert (Hbody :
            exists s1,
              body s0 = (Returned tt, s1)
              /\ editor s1 = Some (mkEditor (lines typed) (endOfFile typed))).
  { unfold body. unfold bind at 1. unfold getLineContent at 1.
    rewrite He0, Hline.
    destruct (@command_effect env Hnf
                (CmdEdits n (String.length (getIndentation line) + 1)
                          (String.length line + 1) EmptyString) s0 e He0)
      as (s1 & Hrun1 & He1 & _).
    unfold bind at 1. rewrite Hrun1.
    destruct (@command_effect env Hnf
                (CmdSetPosition
                   (mkPosition n (String.length (getIndentation line) + 1)))
                s1 _ He1)
      as (s2 & Hrun2 & He2 & _).
    unfold bind at 1. rewrite Hrun2.
    rewrite (clear_commands n e Hline) in He2.
    destruct (@simulateTypingWithDelay_effect env Hnf
                (formattedText (getIndentation line) txt) s2 _ He2)
      as (s3 & Hrun3 & He3 & _).
    unfold bind at 1. rewrite Hrun3.
    destruct (@moveCursorToEndOfFile_effect env Hnf s3 _ He3 Hne)
      as (s4 & Hrun4 & He4 & _).
    exists s4. split; assumption. }
  destruct Hbody as (s1 & Hbody & He1).
  rewrite (@lock_section_returns body s s1 Hbody).
  destruct (@typeAll_replacement e n line txt Hline Hnl) as [Hlines _].
  eexists. eexists. split; [reflexivity|].
  split; [exact He1|]. cbn [lines cursor].
  split; [exact Hlines|]. split; reflexivity.
Qed.

Lemma edit_existing_lines_document_witness :
  editor sampleSimulator = Some sampleEditor
  /\ isTyping sampleSimulator = false
  /\ (1 <= 2)%Z
  /\ Monaco.getLineContent sampleEditor (Z.to_nat 2) = Some "    pass"%string
  /\ exists s' e',
      editExistingLines quietHost "return 1" 2 sampleSimulator
      = (Returned tt, s')
      /\ editor s' = Some e'
      /\ lines e'
         = firstn (Z.to_nat 2 - 1) (lines sampleEditor)
           ++ replacementLines (getIndentation "    pass") "return 1"
           ++ skipn (Z.to_nat 2) (lines sampleEditor)
      /\ cursor e' = endOfFile e'
      /\ isTyping s' = false.
Proof.
  assert (Hpos : (1 <= 2)%Z) by lia.
  split; [reflexivity | split; [reflexivity | split; [exact Hpos |
    split; [reflexivity |]]]].
  exact (@edit_existing_lines_document quietHost "return 1" 2 sampleSimulator
           sampleEditor "    pass" (fun _ => eq_refl) eq_refl eq_refl Hpos
           eq_refl eq_refl).
Defined.

(** ** Comments and completions *)

Lemma hasNl_commentText (line comment : string) :
  hasNl comment = false -> hasNl (commentText line comment) = false.
Proof.
  intros H. unfold commentText.
  destruct (String.eqb (Js.trim line) EmptyString);
    rewrite hasNl_append, H; reflexivity.
Qed.

Lemma typeAll_one_line (txt : string) (above below : list string)
      (before after : string) :
  hasNl txt = false ->
  typeAll (Js.chars txt) (editorAt above before after below)
  = editorAt above (before ++ txt) after below.
Proof.
  intros H. rewrite typeAll_editorAt, (split_without_nl _ H). reflexivity.
Qed.

(** X5.  EXPLAIN_SINGLE_LINE at a position on an existing line, with
    the typing lock free and an editor that accepts its commands:
    whatever the column of the position, the comment goes to the end of
    that line, which becomes the old line followed by the comment text;
    the comment text holds no line feed, so the number of lines and all
    other lines stay as they were; the cursor ends at the end of the
    commented line. *)
Theorem inline_comment_document
        (env : Env) (txt : string) (p : Position) (s : Simulator)
        (e : Editor) (line : string) :
  (forall k, editorFault env k = false) ->
  editor s = Some e ->
  isTyping s = false ->
  Monaco.getLineContent e (lineNumber p) = Some line ->
  let n := lineNumber p in
  let comment := commentText line (cleanText txt) in
  hasNl comment = false
  /\ exists s' e',
      addInlineComment env txt p s = (Returned tt, s')
      /\ editor s' = Some e'
      /\ lines e' = firstn (n - 1) (lines e)
                    ++ [(line ++ comment)%string]
                    ++ skipn n (lines e)
      /\ cursor e' = mkPosition n (String.length (line ++ comment) + 1)
      /\ isTyping s' = false.
Proof.
  intros Hnf He Hfree Hline. cbv zeta.
  pose proof (@hasNl_commentText line (cleanText txt) (hasNl_cleanText txt))
    as Hnl.
  split; [exact Hnl|].
  unfold addInlineComment. rewrite bind_this, He, Hfree.
  set (s0 := set_isTyping s true).
  assert (He0 : editor s0 = Some e) by exact He.
  match goal with
  | |- context [tryFinally ?b _] => set (body := b)
  end.
  assert (Hbody :
            exists s1,
              body s0 = (Returned tt, s1)
              /\ editor s1
                 = Some (editorAt (firstn (lineNumber p - 1) (lines e))
                                  (line ++ commentText line (cleanText txt))
                                  EmptyString
                                  (skipn (lineNumber p) (lines e)))).
  { unfold body. unfold bind at 1. unfold getLineContent at 1.
    rewrite He0, Hline.
    destruct (@command_effect env Hnf
                (CmdSetPosition
                   (mkPosition (lineNumber p) (String.length line + 1)))
                s0 e He0)
      as (s1 & Hrun1 & He1 & _).
    unfold bind at 1. rewrite Hrun1.
    cbn [applyCmd] in He1.
    rewrite (@setPosition_editorAt e (lineNumber p) (String.length line + 1)
               line Hline) in He1 by lia.
    rewrite Nat.add_sub, prefix_all, suffix_all in He1.
    destruct (@simulateTypingWithDelay_effect env Hnf
                (commentText line (cleanText txt)) s1 _ He1)
      as (s2 & Hrun2 & He2 & _).
    exists s2. split; [exact Hrun2|].
    rewrite He2, typeAll_one_line by exact Hnl. reflexivity. }
  destruct Hbody as (s1 & Hbody & He1).
  rewrite (@lock_section_returns body s s1 Hbody).
  eexists. eexists. split; [reflexivity|].
  split; [exact He1|]. unfold editorAt. cbn [lines cursor].
  pose proof (getLineContent_valid e _ Hline) as Hn.
  unfold Monaco.getLineCount in Hn.
  rewrite append_empty_r, length_firstn.
  split; [reflexivity|]. split; [f_equal; lia | reflexivity].
Qed.

Lemma inline_comment_document_witness :
  editor sampleSimulator = Some sampleEditor
  /\ isTyping sampleSimulator = false
  /\ Monaco.getLineContent sampleEditor 2 = Some "    pass"%string
  /\ hasNl (commentText "    pass" (cleanText ("why" ++ Js.nlS ++ "not")))
     = false.
Proof.
  split; [reflexivity | split; [reflexivity | split; [reflexivity |]]].
  exact (proj1 (@inline_comment_document quietHost ("why" ++ Js.nlS ++ "not")
                  (mkPosition 2 3) sampleSimulator sampleEditor "    pass"
                  (fun _ => eq_refl) eq_refl eq_refl eq_refl)).
Defined.

(** The comment of two payload lines goes to the end of line 2 as one
    line. *)
Example inline_comment_sample :
  editor (snd (addInlineComment quietHost ("why" ++ Js.nlS ++ "not")
                                (mkPosition 2 3) sampleSimulator))
  = Some (mkEditor ["def f():"; "    pass # why not"; EmptyString]%string
                   (mkPosition 2 19)).
Proof. vm_compute. reflexivity. Qed.

Lemma validatePosition_in_document (e : Editor) (p : Position) :
  lines e <> [] ->
  exists line,
    Monaco.getLineContent e (lineNumber (Monaco.validatePosition e p))
    = Some line
    /\ 1 <= column (Monaco.validatePosition e p) <= String.length line + 1.
Proof.
  intros Hne.
  assert (Hcount : 1 <= Monaco.getLineCount e).
  { unfold Monaco.getLineCount. destruct (lines e); [congruence | cbn; lia]. }
  unfold Monaco.validatePosition. cbn [lineNumber column].
  set (n := Nat.min (Nat.max 1 (lineNumber p))
                    (Nat.max 1 (Monaco.getLineCount e))).
  destruct (@getLineContent_of_valid e n) as [line Hline]; [lia|].
  exists line. split; [exact Hline|].
  unfold Monaco.lineOr. rewrite Hline. lia.
Qed.

(** X6.  FILL_PARTIAL_LINE on a document that is not empty, with the
    typing lock free and an editor that accepts its commands: the
    position is first brought into the document; the payload, with its
    line feeds turned into spaces and trimmed, goes into the line of
    that position at its column; it holds no line feed, so no line is
    added and no other line changes; the cursor ends behind the text. *)
Theorem fill_partial_line_document
        (env : Env) (txt : string) (p : Position) (s : Simulator) (e : Editor) :
  (forall k, editorFault env k = false) ->
  editor s = Some e ->
  isTyping s = false ->
  lines e <> [] ->
  let q := Monaco.validatePosition e p in
  let n := lineNumber q in
  let c := column q in
  hasNl (cleanText txt) = false
  /\ exists line s' e',
      Monaco.getLineContent e n = Some line
      /\ fillPartialLine env txt p s = (Returned tt, s')
      /\ editor s' = Some e'
      /\ lines e' = firstn (n - 1) (lines e)
                    ++ [(Js.prefix (c - 1) line ++ cleanText txt
                         ++ Js.suffix (c - 1) line)%string]
                    ++ skipn n (lines e)
      /\ cursor e' = mkPosition n (c + String.length (cleanText txt))
      /\ isTyping s' = false.
Proof.
  intros Hnf He Hfree Hne. cbv zeta.
  split; [apply hasNl_cleanText|].
  destruct (validatePosition_in_document e p Hne) as (line & Hline & Hc).
  exists line.
  unfold fillPartialLine. rewrite bind_this, He, Hfree.
  set (s0 := set_isTyping s true).
  assert (He0 : editor s0 = Some e) by exact He.
  match goal with
  | |- context [tryFinally ?b _] => set (body := b)
  end.
  set (q := Monaco.validatePosition e p) in *.
  assert (Hbody :
            exists s1,
              body s0 = (Returned tt, s1)
              /\ editor s1
                 = Some (editorAt (firstn (lineNumber q - 1) (lines e))
                                  (Js.prefix (column q - 1) line
                                   ++ cleanText txt)
                                  (Js.suffix (column q - 1) line)
                                  (skipn (lineNumber q) (lines e)))).
  { unfold body.
    destruct (@command_effect env Hnf (CmdSetPosition p) s0 e He0)
      as (s1 & Hrun1 & He1 & _).
    unfold bind at 1. rewrite Hrun1.
    cbn [applyCmd] in He1. unfold Monaco.setPosition in He1. fold q in He1.
    rewrite (@editorAt_of_valid (mkEditor (lines e) q) line Hline Hc) in He1.
    cbn [cursor lines] in He1.
    destruct (@simulateTypingWithDelay_effect env Hnf (cleanText txt) s1 _ He1)
      as (s2 & Hrun2 & He2 & _).
    exists s2. split; [exact Hrun2|].
    rewrite He2, typeAll_one_line by apply hasNl_cleanText. reflexivity. }
  destruct Hbody as (s1 & Hbody & He1).
  rewrite (@lock_section_returns body s s1 Hbody).
  eexists. eexists. split; [exact Hline|]. split; [reflexivity|].
  split; [exact He1|]. unfold editorAt. cbn [lines cursor].
  pose proof (getLineContent_valid e _ Hline) as Hn.
  unfold Monaco.getLineCount in Hn.
  rewrite append_assoc, length_firstn, length_append, prefix_length by lia.
  split; [reflexivity|]. split; [f_equal; lia | reflexivity].
Qed.

Lemma fill_partial_line_document_witness :
  editor sampleSimulator = Some sampleEditor
  /\ isTyping sampleSimulator = false
  /\ lines sampleEditor <> []
  /\ hasNl (cleanText (" a" ++ Js.nlS ++ "b ")) = false.
Proof.
  assert (Hne : lines sampleEditor <> []) by discriminate.
  split; [reflexivity | split; [reflexivity | split; [exact Hne |]]].
  exact (proj1 (@fill_partial_line_document quietHost (" a" ++ Js.nlS ++ "b ")
                  (mkPosition 9 99) sampleSimulator sampleEditor
                  (fun _ => eq_refl) eq_refl eq_refl Hne)).
Defined.

(** A position far outside the document is brought to the end of the
    last line; the payload goes there as one line. *)
Example fill_partial_line_sample :
  editor (snd (fillPartialLine quietHost (" a" ++ Js.nlS ++ "b ")
                               (mkPosition 9 99) sampleSimulator))
  = Some (mkEditor ["def f():"; "    pass"; "a b"]%string (mkPosition 3 4)).
Proof. vm_compute. reflexivity. Qed.

Lemma commentLines_without_nl (indentation txt : string) :
  hasNl indentation = false ->
  Forall (fun l => hasNl l = false) (commentLines indentation txt).
Proof.
  intros Hind. unfold commentLines. apply Forall_map.
  pose proof (split_pieces_without_nl txt) as Hall.
  revert Hall. apply Forall_impl. intros l Hl.
  rewrite !hasNl_append, Hind, (hasNl_trim _ Hl). reflexivity.
Qed.

Lemma commentLines_nonempty (indentation txt : string) :
  commentLines indentation txt <> [].
Proof.
  unfold commentLines. pose proof (split_nonempty Js.nl txt) as Hne.
  destruct (Js.split Js.nl txt); [congruence | discriminate].
Qed.

Lemma formattedComment_pieces (indentation txt : string) :
  hasNl indentation = false ->
  Js.split Js.nl (formattedComment indentation txt)
  = commentLines indentation txt ++ [EmptyString].
Proof.
  intros Hind. unfold formattedComment.
  change (map (fun line => (indentation ++ "# " ++ Js.trim line)%string)
              (Js.split Js.nl txt))
    with (commentLines indentation txt).
  change Js.nlS with (String Js.nl EmptyString).
  rewrite split_append_nl. change (String Js.nl EmptyString) with Js.nlS.
  rewrite split_join;
    [reflexivity | apply commentLines_nonempty
     | apply commentLines_without_nl, Hind].
Qed.

Lemma insertPieces_before_line (new : list string) (line : string) :
  new <> [] ->
  Monaco.insertPieces EmptyString line (new ++ [EmptyString])
  = new ++ [line].
Proof.
  intros Hne. destruct new as [|x xs]; [congruence|].
  cbn [app]. destruct (xs ++ [EmptyString]) as [|y ys] eqn:Hxs.
  - destruct xs; discriminate.
  - cbn [Monaco.insertPieces append]. rewrite <- Hxs.
    rewrite removelast_last, last_last. reflexivity.
Qed.

(** X7.  EXPLAIN_MULTI_LINE with a target line inside a document whose
    lines hold no line feed, with the typing lock free and an editor
    that accepts its commands: one comment line per payload line (the
    target line's indentation, the marker, the trimmed payload line) is
    put in front of the target line; the target line itself and all
    other lines are kept as they were; the cursor ends at the end of the
    document. *)
Theorem comment_at_line_document
        (env : Env) (txt : string) (targetLine : Z) (s : Simulator)
        (e : Editor) (line : string) :
  (forall k, editorFault env k = false) ->
  editor s = Some e ->
  isTyping s = false ->
  (1 <= targetLine)%Z ->
  Monaco.getLineContent e (Z.to_nat targetLine) = Some line ->
  hasNl line = false ->
  let n := Z.to_nat targetLine in
  let new := commentLines (getIndentation line) txt in
  List.length new = List.length (Js.split Js.nl txt)
  /\ exists s' e',
      addCommentAtLine env txt targetLine s = (Returned tt, s')
      /\ editor s' = Some e'
      /\ lines e' = firstn (n - 1) (lines e) ++ new
                    ++ line :: skipn n (lines e)
      /\ cursor e' = endOfFile e'
      /\ isTyping s' = false.
Proof.
  intros Hnf He Hfree Hpos Hline Hnl. cbv zeta.
  split; [apply length_map|].
  pose proof (getLineContent_valid e _ Hline) as Hn.
  pose proof (hasNl_getIndentation line Hnl) as Hind.
  assert (Hin : outOfBounds targetLine e = false).
  { unfold outOfBounds. apply orb_false_iff.
    split; apply Z.ltb_ge; lia. }
  unfold addCommentAtLine. rewrite bind_this, He, Hfree, Hin.
  set (n := Z.to_nat targetLine) in *.
  set (s0 := set_isTyping s true).
  assert (He0 : editor s0 = Some e) by exact He.
  match goal with
  | |- context [tryFinally ?b _] => set (body := b)
  end.
  set (start := editorAt (firstn (n - 1) (lines e)) EmptyString line
                         (skipn n (lines e))).
  set (typed := typeAll (Js.chars (formattedComment (getIndentation line) txt))
                        start).
  assert (Hne : lines typed <> []).
  { apply typeAll_lines_nonempty, validCursor_editorAt. }
  assert (Hbody :
            exists s1,
              body s0 = (Returned tt, s1)
              /\ editor s1 = Some (mkEditor (lines typed) (endOfFile typed))).
  { unfold body. unfold bind at 1. unfold getLineContent at 1.
    rewrite He0, Hline.
    destruct (@command_effect env Hnf (CmdSetPosition (mkPosition n 1))
                              s0 e He0)
      as (s1 & Hrun1 & He1 & _).
    unfold bind at 1. rewrite Hrun1.
    cbn [applyCmd] in He1.
    rewrite (@setPosition_editorAt e n 1 line Hline) in He1 by lia.
    cbn [Nat.sub] in He1.
    assert (Hp : Js.prefix 0 line = EmptyString) by (destruct line; reflexivity).
    rewrite Hp in He1. cbn [Js.suffix] in He1.
    destruct (@simulateTypingWithDelay_effect env Hnf
                (formattedComment (getIndentation line) txt) s1 _ He1)
      as (s2 & Hrun2 & He2 & _).
    unfold bind at 1. rewrite Hrun2.
    destruct (@moveCursorToEndOfFile_effect env Hnf s2 _ He2 Hne)
      as (s3 & Hrun3 & He3 & _).
    exists s3. split; assumption. }
  destruct Hbody as (s1 & Hbody & He1).
  rewrite (@lock_section_returns body s s1 Hbody).
  eexists. eexists. split; [reflexivity|].
  split; [exact He1|]. cbn [lines cursor].
  split; [|split; reflexivity].
  unfold typed, start. rewrite typeAll_editorAt.
  rewrite lines_insertedAt by apply split_nonempty.
  rewrite (@formattedComment_pieces (getIndentation line) txt Hind).
  rewrite insertPieces_before_line by apply commentLines_nonempty.
  rewrite <- !app_assoc. reflexivity.
Qed.

Lemma comment_at_line_document_witness :
  editor sampleSimulator = Some sampleEditor
  /\ isTyping sampleSimulator = false
  /\ (1 <= 2)%Z
  /\ Monaco.getLineContent sampleEditor (Z.to_nat 2) = Some "    pass"%string
  /\ List.length (commentLines (getIndentation "    pass")
                               ("a" ++ Js.nlS ++ " b"))
     = List.length (Js.split Js.nl ("a" ++ Js.nlS ++ " b")).
Proof.
  assert (Hpos : (1 <= 2)%Z) by lia.
  split; [reflexivity | split; [reflexivity | split; [exact Hpos |
    split; [reflexivity |]]]].
  exact (proj1 (@comment_at_line_document quietHost ("a" ++ Js.nlS ++ " b") 2
                  sampleSimulator sampleEditor "    pass"
                  (fun _ => eq_refl) eq_refl eq_refl Hpos eq_refl eq_refl)).
Defined.

(** Two comment lines in front of line 2 of the sample document. *)
Example comment_at_line_sample :
  editor (snd (addCommentAtLine quietHost ("a" ++ Js.nlS ++ " b") 2
                                sampleSimulator))
  = Some (mkEditor ["def f():"; "    # a"; "    # b"; "    pass";
                    EmptyString]%string
                   (mkPosition 5 1)).
Proof. vm_compute. reflexivity. Qed.

(* ===================================================================== *)
(** * Turns under an arbitrary host *)
(* ===================================================================== *)

Lemma requestsIn_app (a b : list Event) :
  requestsIn (a ++ b) = requestsIn a ++ requestsIn b.
Proof. apply flat_map_app. Qed.

Lemma stopEvent_no_request (new : list Event) :
  Forall stopEvent new -> requestsIn new = [].
Proof.
  induction 1 as [|ev new Hev _ IH]; [reflexivity|].
  destruct ev; cbn in *; try tauto; assumption.
Qed.

(** What [stop()] leaves alone besides what [stop_effect] lists. *)
Lemma stop_frame (env : Env) (s : Simulator) :
  let s' := snd (stop env s) in
  timestep s' = timestep s
  /\ totalActions (stats s') = totalActions (stats s)
  /\ episodesCreated (stats s') = episodesCreated (stats s)
  /\ startTime s' = startTime s
  /\ clock (world s') = clock (world s)
  /\ (isProcessing s = false -> isProcessing s' = false).
Proof.
  destruct (isRunning s) eqn:Hr.
  - destruct (stop_when_running env s Hr) as (s' & -> & Hs'). cbn in Hs'.
    assert (Hsync : timestep (stopSync s) = timestep s
                    /\ totalActions (stats (stopSync s)) = totalActions (stats s)
                    /\ episodesCreated (stats (stopSync s))
                       = episodesCreated (stats s)
                    /\ startTime (stopSync s) = startTime s
                    /\ clock (world (stopSync s)) = clock (world s)
                    /\ isProcessing (stopSync s) = false).
    { unfold stopSync. cbn. destruct (intervalId s); cbn; repeat split. }
    destruct Hsync as (H1 & H2 & H3 & H4 & H5 & H6).
    cbn [snd].
    destruct Hs' as [-> | [-> | ->]]; cbn -[stopSync];
      repeat split; auto.
  - rewrite stop_when_not_running by assumption. cbn.
    repeat split. auto.
Qed.

Lemma suspend_frame (env : Env) (ms : Q) (s : Simulator) :
  let s' := snd (suspend env ms s) in
  timestep s' = timestep s
  /\ totalActions (stats s') = totalActions (stats s)
  /\ episodesCreated (stats s') = episodesCreated (stats s)
  /\ startTime s' = startTime s
  /\ (isProcessing s = false -> isProcessing s' = false).
Proof.
  unfold suspend.
  destruct (stopRequested env (suspensions (world s))).
  - cbn [snd].
    match goal with
    | |- context [stop env ?s1] =>
        destruct (stop_frame env s1) as (H1 & H2 & H3 & H4 & _ & H6)
    end.
    cbn in *. repeat split; assumption.
  - cbn. repeat split. auto.
Qed.

Section AnyHost.

Variable env : Env.

Lemma insideAction_refl (s : Simulator) : insideAction s s.
Proof. unfold insideAction. repeat split; auto. Qed.

Lemma insideAction_trans (s1 s2 s3 : Simulator) :
  insideAction s1 s2 -> insideAction s2 s3 -> insideAction s1 s3.
Proof.
  unfold insideAction.
  intros (A1 & A2 & A3 & A4 & A5 & A6 & A7 & A8 & A9 & A10)
         (B1 & B2 & B3 & B4 & B5 & B6 & B7 & B8 & B9 & B10).
  repeat split; try congruence. auto.
Qed.

Ltac inside_action :=
  intros; unfold insideAction; cbn;
  rewrite ?turnsIn_app, ?requestsIn_app; cbn; rewrite ?app_nil_r;
  repeat split; auto; try discriminate.

Lemma command_insideAction (c : EdCmd) : sound insideAction (command env c).
Proof.
  intros s. unfold command.
  destruct (editor s) as [e|] eqn:He; [|apply insideAction_refl].
  destruct (editorFault env (commands (world s))).
  - inside_action.
  - inside_action.
Qed.

Lemma suspend_insideAction (ms : Q) : sound insideAction (suspend env ms).
Proof.
  intros s.
  destruct (suspend_effect env ms s)
    as (_ & He & _ & Hset & _ & Hh & Ha & new & Htr & Hnew).
  destruct (suspend_frame env ms s) as (Ht & Hn & Hep & Hst & _).
  unfold insideAction.
  rewrite Htr, turnsIn_app, requestsIn_app.
  change (turnsIn (EvWait ms :: new)) with (turnsIn new).
  change (requestsIn (EvWait ms :: new)) with (requestsIn new).
  rewrite (stopEvent_no_turn Hnew), (stopEvent_no_request Hnew), !app_nil_r.
  repeat split; try assumption. congruence.
Qed.

Lemma nextRandom_insideAction : sound insideAction (nextRandom env).
Proof. intros s. inside_action. Qed.

Lemma getLineContent_insideAction (n : nat) :
  sound insideAction (getLineContent n).
Proof.
  intros s. unfold getLineContent.
  destruct (editor s) as [e|]; [|apply insideAction_refl].
  destruct (Monaco.getLineContent e n); apply insideAction_refl.
Qed.

Ltac action_step :=
  first
    [ sound_step insideAction_refl insideAction_trans
    | apply command_insideAction
    | apply suspend_insideAction
    | apply nextRandom_insideAction
    | apply getLineContent_insideAction
    | apply sound_assign; solve [inside_action] ].

Lemma drawDelay_insideAction (min max : Q) :
  sound insideAction (drawDelay env min max).
Proof. unfold drawDelay. repeat action_step. Qed.

Lemma typeEach_insideAction (tokens : list ascii) :
  sound insideAction (typeEach env tokens).
Proof.
  induction tokens as [|token rest IH]; cbn [typeEach].
  - repeat action_step.
  - repeat first [action_step | apply drawDelay_insideAction | exact IH].
Qed.

Ltac action_typing :=
  repeat first
    [ action_step
    | apply drawDelay_insideAction
    | apply typeEach_insideAction ].

Lemma simulateTypingWithDelay_insideAction (txt : string) :
  sound insideAction (simulateTypingWithDelay env txt).
Proof. unfold simulateTypingWithDelay. action_typing. Qed.

Lemma typeUnderLock_insideAction (txt : string) :
  sound insideAction (typeUnderLock env txt).
Proof. unfold typeUnderLock, simulateTypingWithDelay. action_typing. Qed.

Lemma moveCursorToEndOfFile_insideAction :
  sound insideAction (moveCursorToEndOfFile env).
Proof. unfold moveCursorToEndOfFile. action_typing. Qed.

Lemma replaceAndAppendLine_insideAction (txt : string) (p : Position) :
  sound insideAction (replaceAndAppendLine env txt p).
Proof.
  unfold replaceAndAppendLine, simulateTypingWithDelay. action_typing.
Qed.

Lemma addInlineComment_insideAction (txt : string) (p : Position) :
  sound insideAction (addInlineComment env txt p).
Proof. unfold addInlineComment, simulateTypingWithDelay. action_typing. Qed.

Lemma dispatchAction_insideAction (i n : Z) (txt : string) (p : Position) :
  sound insideAction (dispatchAction env i n txt p).
Proof.
  unfold dispatchAction, fillPartialLine, editExistingLines, addCommentAtLine.
  repeat first
    [ action_step
    | apply drawDelay_insideAction
    | apply typeEach_insideAction
    | apply simulateTypingWithDelay_insideAction
    | apply typeUnderLock_insideAction
    | apply moveCursorToEndOfFile_insideAction
    | apply replaceAndAppendLine_insideAction
    | apply addInlineComment_insideAction ].
Qed.

Lemma applyAction_insideAction (i n : Z) (txt : string) (p : Position) :
  sound insideAction (applyAction env i n txt p).
Proof.
  unfold applyAction.
  repeat first
    [ action_step
    | apply dispatchAction_insideAction
    | apply typeUnderLock_insideAction ].
Qed.

Lemma humanlikeDelay_insideAction : sound insideAction (humanlikeDelay env).
Proof. unfold humanlikeDelay, simulateWait. action_typing. Qed.

End AnyHost.

(* ===================================================================== *)
(** * The applier recovers from its own exceptions *)
(* ===================================================================== *)

Lemma insideAction_attached (s s' : Simulator) :
  insideAction s s' -> editor s <> None -> editor s' <> None.
Proof. intros (_ & H & _). exact H. Qed.

Lemma typeUnderLock_returns (env : Env) (txt : string) (s : Simulator) :
  (forall k, editorFault env k = false) ->
  editor s <> None ->
  fst (typeUnderLock env txt s) = Returned tt.
Proof.
  intros Hnf He. destruct (editor s) as [e|] eqn:Hed; [|congruence].
  destruct (isTyping s) eqn:Hlock.
  - unfold typeUnderLock. rewrite bind_this, Hlock. reflexivity.
  - destruct (@typeUnderLock_effect env Hnf txt s e Hed Hlock)
      as (s' & -> & _). reflexivity.
Qed.

Lemma applyAction_returns
  (env : Env) (i n : Z) (txt : string) (p : Position) (s : Simulator) :
  (forall k, editorFault env k = false) ->
  fst (applyAction env i n txt p s) = Returned tt.
Proof.
  intros Hnf. unfold applyAction. rewrite bind_this.
  destruct (editor s) as [e|] eqn:He; [|reflexivity].
  unfold tryCatch.
  pose proof (dispatchAction_insideAction env i n txt p s) as Hin.
  destruct (dispatchAction env i n txt p s) as [[[]|] s1]; [reflexivity|].
  cbn [snd] in Hin. apply typeUnderLock_returns; [exact Hnf|].
  apply (insideAction_attached Hin). congruence.
Qed.

(** X8.  [applyAction] never lets an exception escape: whatever the
    action index, the payload, the target line and the position, and
    whenever [stop()] is called meanwhile, it returns normally as long
    as the editor carries out the commands it is given. *)
Theorem apply_action_never_raises
  (env : Env) (i n : Z) (txt : string) (p : Position) (s : Simulator) :
  (forall k, editorFault env k = false) ->
  fst (applyAction env i n txt p s) = Returned tt.
Proof. apply applyAction_returns. Qed.

Lemma apply_action_never_raises_witness :
  fst (applyAction quietHost 2 0 "x = 1" (mkPosition 9 1) sampleSimulator)
  = Returned tt.
Proof.
  apply (@apply_action_never_raises quietHost 2%Z 0%Z "x = 1"%string
           (mkPosition 9 1) sampleSimulator).
  intros k. reflexivity.
Defined.

Lemma unlock_after_lock (s : Simulator) :
  isTyping s = false -> set_isTyping (set_isTyping s true) false = s.
Proof. destruct s. cbn. intros ->. reflexivity. Qed.

Lemma stale_line_raises
  (env : Env) (s : Simulator) (e : Editor) (n : nat) (k : string -> M unit) :
  editor s = Some e ->
  isTyping s = false ->
  Monaco.getLineContent e n = None ->
  (assign (fun s => set_isTyping s true) ;;
   tryFinally (currentLine <- getLineContent n ;; k currentLine)
              (assign (fun s => set_isTyping s false))) s
  = (Raised, s).
Proof.
  intros He Hfree Hline.
  unfold bind at 1. unfold assign at 1. unfold tryFinally.
  unfold bind at 1. unfold getLineContent.
  change (editor (set_isTyping s true)) with (editor s).
  rewrite He, Hline. unfold assign. cbn [fst snd].
  rewrite (unlock_after_lock s Hfree). reflexivity.
Qed.

(** X9.  A position whose line is no longer in the document makes
    actions 2, 3 and 5 raise before they touch the editor; [applyAction]
    catches this and types one line feed at the cursor instead, and the
    payload is dropped. *)
Theorem stale_position_recovery
  (env : Env) (i n : Z) (txt : string) (p : Position)
  (s : Simulator) (e : Editor) :
  (forall k, editorFault env k = false) ->
  editor s = Some e ->
  isTyping s = false ->
  Monaco.getLineContent e (lineNumber p) = None ->
  (i = 2 \/ i = 3 \/ i = 5)%Z ->
  exists s',
    applyAction env i n txt p s = (Returned tt, s')
    /\ editor s' = Some (Monaco.typeChar Js.nl e)
    /\ isTyping s' = false
    /\ commandsIn (trace (world s'))
       = commandsIn (trace (world s)) ++ [CmdType Js.nl].
Proof.
  intros Hnf He Hfree Hline Hi.
  destruct (@typeUnderLock_effect env Hnf Js.nlS s e He Hfree)
    as (s' & Hrun & He' & Hfree' & _ & Htr).
  exists s'. split; [|repeat split; assumption].
  unfold applyAction. rewrite bind_this, He. unfold tryCatch.
  assert (Hraise : dispatchAction env i n txt p s = (Raised, s)).
  { destruct Hi as [-> | [-> | ->]]; cbn [dispatchAction];
      [unfold replaceAndAppendLine | unfold replaceAndAppendLine
      | unfold addInlineComment];
      rewrite bind_this, He, Hfree;
      apply (@stale_line_raises env s e (lineNumber p) _ He Hfree Hline). }
  rewrite Hraise. exact Hrun.
Qed.

Lemma stale_position_recovery_witness :
  exists s',
    applyAction quietHost 2 0 "x = 1" (mkPosition 9 1) sampleSimulator
    = (Returned tt, s')
    /\ editor s' = Some (Monaco.typeChar Js.nl sampleEditor)
    /\ isTyping s' = false
    /\ commandsIn (trace (world s'))
       = commandsIn (trace (world sampleSimulator)) ++ [CmdType Js.nl].
Proof.
  apply (@stale_position_recovery quietHost 2%Z 0%Z "x = 1"%string
           (mkPosition 9 1) sampleSimulator sampleEditor).
  - intros k. reflexivity.
  - reflexivity.
  - reflexivity.
  - reflexivity.
  - left. reflexivity.
Defined.

(* ===================================================================== *)
(** * Invariants of turns and sequences *)
(* ===================================================================== *)

(** A relation kept by the steps a turn is made of is kept by the turn,
    and by [executeAction]. *)
Section TurnInvariant.

Variable env : Env.
Variable R : Simulator -> Simulator -> Prop.
Hypothesis R_refl : forall s, R s s.
Hypothesis R_trans : forall s1 s2 s3, R s1 s2 -> R s2 s3 -> R s1 s3.
Hypothesis R_command : forall c, sound R (command env c).
Hypothesis R_suspend : forall ms, sound R (suspend env ms).
Hypothesis R_random : sound R (nextRandom env).
Hypothesis R_typing : forall b s, R s (set_isTyping s b).
Hypothesis R_processing : forall b s, R s (set_isProcessing s b).
Hypothesis R_timestep : forall s, R s (set_timestep s (timestep s + 1)%Z).
Hypothesis R_request : forall r s, R s (emit s (EvRequest r)).
Hypothesis R_predicted : forall i n s, R s (emit s (EvPredicted i n)).
Hypothesis R_turn : forall actor s, R s (emit s (EvTurn actor)).
Hypothesis R_bump : forall s, R s (bumpTotalActions s).

Lemma inv_getLineContent (n : nat) : sound R (getLineContent n).
Proof.
  intros s. unfold getLineContent.
  destruct (editor s) as [e|]; [|apply R_refl].
  destruct (Monaco.getLineContent e n); apply R_refl.
Qed.

Ltac inv_step :=
  first
    [ sound_step R_refl R_trans
    | apply R_command
    | apply R_suspend
    | apply R_random
    | apply inv_getLineContent
    | apply sound_assign; intro; cbv beta;
      first [ apply R_typing | apply R_processing | apply R_timestep
            | apply R_request | apply R_predicted | apply R_turn
            | apply R_bump ] ].

Lemma inv_typeEach (tokens : list ascii) : sound R (typeEach env tokens).
Proof.
  induction tokens as [|token rest IH]; cbn [typeEach].
  - inv_step.
  - unfold drawDelay. repeat first [inv_step | exact IH].
Qed.

Lemma inv_typeUnderLock (txt : string) : sound R (typeUnderLock env txt).
Proof.
  unfold typeUnderLock, simulateTypingWithDelay.
  repeat first [inv_step | apply inv_typeEach].
Qed.

Lemma inv_applyAction (i n : Z) (txt : string) (p : Position) :
  sound R (applyAction env i n txt p).
Proof.
  unfold applyAction, dispatchAction, fillPartialLine, replaceAndAppendLine,
    editExistingLines, addInlineComment, addCommentAtLine,
    moveCursorToEndOfFile, simulateTypingWithDelay.
  repeat first
    [ inv_step
    | apply inv_typeEach
    | apply inv_typeUnderLock
    | progress unfold replaceAndAppendLine, addInlineComment,
        simulateTypingWithDelay ].
Qed.

Lemma inv_generateAndApplyHumanAction :
  sound R (generateAndApplyHumanAction env).
Proof.
  unfold generateAndApplyHumanAction, humanlikeDelay, simulateWait,
    callInference, drawDelay, log.
  repeat first [inv_step | apply inv_applyAction | apply inv_typeUnderLock].
Qed.

Lemma inv_generateAndApplyAssistantAction :
  sound R (generateAndApplyAssistantAction env).
Proof.
  unfold generateAndApplyAssistantAction, humanlikeDelay, simulateWait,
    callInference, shouldInjectAssistantNoise, drawDelay, log.
  repeat first [inv_step | apply inv_applyAction].
Qed.

Lemma inv_executeAction (action : SimulationAction) :
  sound R (executeAction env action).
Proof.
  unfold executeAction, simulateTyping, simulateCursorMove, simulateWait, log.
  repeat first
    [ inv_step
    | apply inv_generateAndApplyHumanAction
    | apply inv_generateAndApplyAssistantAction ].
Qed.

End TurnInvariant.

(** A relation kept by a turn, by a wait, by [stop()] and by the two
    counters is kept by the paired sequence and by a tick of the timer. *)
Section SequenceInvariant.

Variable env : Env.
Variable R : Simulator -> Simulator -> Prop.
Hypothesis R_refl : forall s, R s s.
Hypothesis R_trans : forall s1 s2 s3, R s1 s2 -> R s2 s3 -> R s1 s3.
Hypothesis R_human : sound R (executeAction env StateServiceHuman).
Hypothesis R_assistant : sound R (executeAction env StateServiceAssistant).
Hypothesis R_suspend : forall ms, sound R (suspend env ms).
Hypothesis R_stop : sound R (stop env).
Hypothesis R_humanCount :
  forall s, R s (set_humanActionsPerformed s (S (humanActionsPerformed s))).
Hypothesis R_assistantCount :
  forall s, R s (set_assistantActionsPerformed s
                   (S (assistantActionsPerformed s))).

Ltac seq_step :=
  first
    [ sound_step R_refl R_trans
    | apply R_human
    | apply R_assistant
    | apply R_suspend
    | apply R_stop
    | apply sound_assign; intro; cbv beta;
      first [ apply R_humanCount | apply R_assistantCount ] ].

Lemma inv_pairBody (intervalMs : Q) (assistantLimit followUpHumans i : Z) :
  sound R (pairBody env intervalMs assistantLimit followUpHumans i).
Proof.
  unfold pairBody, breakUnlessRunning, simulateWait. repeat seq_step.
Qed.

Lemma inv_followUpBody (intervalMs : Q) (followUpHumans j : Z) :
  sound R (followUpBody env intervalMs followUpHumans j).
Proof.
  unfold followUpBody, breakUnlessRunning, simulateWait. repeat seq_step.
Qed.

Lemma inv_forWhileRunning (n : nat) (body : Z -> M Flow) :
  (forall i, sound R (body i)) ->
  forall i, sound R (forWhileRunning n i body).
Proof.
  intros Hbody. induction n as [|n IH]; intros i; cbn [forWhileRunning].
  - seq_step.
  - repeat first [seq_step | apply Hbody | apply IH].
Qed.

Lemma inv_runSequence (intervalMs : Q) (assistantLimit followUpHumans : Z) :
  sound R (runSequence env intervalMs assistantLimit followUpHumans).
Proof.
  unfold runSequence.
  repeat first
    [ seq_step
    | apply inv_forWhileRunning; intro
    | apply inv_pairBody
    | apply inv_followUpBody ].
Qed.

Lemma inv_startZeroStyleSequence : sound R (startZeroStyleSequence env).
Proof.
  unfold startZeroStyleSequence.
  repeat first [seq_step | apply inv_runSequence].
Qed.

Lemma inv_periodicTick (actionCount : Z) :
  sound R (periodicTick env actionCount).
Proof. unfold periodicTick. repeat seq_step. Qed.

Hypothesis R_command : forall c, sound R (command env c).
Hypothesis R_running : forall s, R s (set_isRunning s true).
Hypothesis R_startTime : forall t s, R s (set_startTime s t).
Hypothesis R_episodes : forall s, R s (bumpEpisodes s).
Hypothesis R_interval : forall s, R s (set_intervalId s (Some 1)).

Lemma inv_start : sound R (start env).
Proof.
  unfold start, simulateEditorClick, startPeriodicHumanSimulation, now.
  repeat first
    [ seq_step
    | apply R_command
    | apply inv_startZeroStyleSequence
    | apply sound_assign; intro; cbv beta;
      first [ apply R_running | apply R_startTime | apply R_episodes
            | apply R_interval ]
    | match goal with
      | |- sound R (getLineContent _) =>
          let s := fresh "s" in
          intros s; unfold getLineContent;
          destruct (editor s) as [?|]; [|apply R_refl];
          match goal with
          | |- context [Monaco.getLineContent ?e ?n] =>
              destruct (Monaco.getLineContent e n); apply R_refl
          end
      | |- sound R (fun s => (Returned _, s)) =>
          let s := fresh "s" in intros s; apply R_refl
      end ].
Qed.

End SequenceInvariant.

(* ===================================================================== *)
(** * The processing lock *)
(* ===================================================================== *)

Lemma snd_tryFinally {A} (m : M A) (f : M unit) (s : Simulator) :
  snd (tryFinally m f s) = snd (f (snd (m s))).
Proof.
  unfold tryFinally. destruct (m s) as [r s1]. cbn [snd].
  destruct (f s1) as [[u|] s2]; reflexivity.
Qed.

(** The [finally] of a turn always returns, with the lock released. *)
Lemma turn_finally_effect (env : Env) (s : Simulator) :
  let f := (assign (fun s => set_isProcessing s false) ;;
            s <- this ;;
            simulateWait env (postActionPauseMs (settings s)))%method in
  fst (f s) = Returned tt /\ isProcessing (snd (f s)) = false.
Proof.
  cbv zeta. unfold bind at 1. unfold assign. rewrite bind_this.
  unfold simulateWait.
  match goal with
  | |- context [suspend env ?d ?s0] =>
      destruct (suspend_effect env d s0) as (Hret & _);
      destruct (suspend_frame env d s0) as (_ & _ & _ & _ & Hp)
  end.
  split; [exact Hret | apply Hp; reflexivity].
Qed.

Lemma fst_turn {A} (env : Env) (m : M A) (s : Simulator) :
  fst (tryFinally m
         (assign (fun s => set_isProcessing s false) ;;
          s <- this ;;
          simulateWait env (postActionPauseMs (settings s))) s)
  = fst (m s).
Proof.
  unfold tryFinally. destruct (m s) as [r s1].
  destruct (turn_finally_effect env s1) as (Hret & _). cbv zeta in Hret.
  match goal with
  | |- context [match ?x with _ => _ end] => destruct x as [[[]|] s2]
  end; cbn in *; congruence.
Qed.

Section ProcessingLock.

Variable env : Env.

Lemma keepsProcessingFree_refl (s : Simulator) : keepsProcessingFree s s.
Proof. intros H. exact H. Qed.

Lemma keepsProcessingFree_trans (s1 s2 s3 : Simulator) :
  keepsProcessingFree s1 s2 -> keepsProcessingFree s2 s3 ->
  keepsProcessingFree s1 s3.
Proof. unfold keepsProcessingFree. auto. Qed.

Lemma command_keepsProcessingFree (c : EdCmd) :
  sound keepsProcessingFree (command env c).
Proof.
  intros s Hp. unfold command.
  destruct (editor s); [|exact Hp].
  destruct (editorFault env (commands (world s))); exact Hp.
Qed.

Lemma suspend_keepsProcessingFree (ms : Q) :
  sound keepsProcessingFree (suspend env ms).
Proof.
  intros s. destruct (suspend_frame env ms s) as (_ & _ & _ & _ & H). exact H.
Qed.

Lemma stop_keepsProcessingFree : sound keepsProcessingFree (stop env).
Proof.
  intros s. destruct (stop_frame env s) as (_ & _ & _ & _ & _ & H). exact H.
Qed.

Lemma generateAndApplyHumanAction_keepsProcessingFree :
  sound keepsProcessingFree (generateAndApplyHumanAction env).
Proof.
  intros s Hp. unfold generateAndApplyHumanAction.
  rewrite bind_this, Hp. destruct (editor s); [|exact Hp].
  rewrite snd_tryFinally. apply (turn_finally_effect env).
Qed.

Lemma generateAndApplyAssistantAction_keepsProcessingFree :
  sound keepsProcessingFree (generateAndApplyAssistantAction env).
Proof.
  intros s Hp. unfold generateAndApplyAssistantAction.
  rewrite bind_this, Hp. destruct (editor s); [|exact Hp].
  rewrite snd_tryFinally. apply (turn_finally_effect env).
Qed.

Lemma executeAction_keepsProcessingFree (action : SimulationAction) :
  sound keepsProcessingFree (executeAction env action).
Proof.
  unfold executeAction, simulateTyping, simulateCursorMove, simulateWait, log.
  repeat first
    [ sound_step keepsProcessingFree_refl keepsProcessingFree_trans
    | apply generateAndApplyHumanAction_keepsProcessingFree
    | apply generateAndApplyAssistantAction_keepsProcessingFree
    | apply command_keepsProcessingFree
    | apply suspend_keepsProcessingFree
    | apply sound_assign; intros s Hp; exact Hp ].
Qed.

Lemma start_keepsProcessingFree : sound keepsProcessingFree (start env).
Proof.
  apply (@inv_start env keepsProcessingFree
           keepsProcessingFree_refl keepsProcessingFree_trans
           (executeAction_keepsProcessingFree StateServiceHuman)
           (executeAction_keepsProcessingFree StateServiceAssistant)
           suspend_keepsProcessingFree stop_keepsProcessingFree);
    try (intros; intros Hp; exact Hp).
  apply command_keepsProcessingFree.
Qed.

Lemma periodicTick_keepsProcessingFree (actionCount : Z) :
  sound keepsProcessingFree (periodicTick env actionCount).
Proof.
  apply (@inv_periodicTick env keepsProcessingFree
           keepsProcessingFree_refl keepsProcessingFree_trans
           (executeAction_keepsProcessingFree StateServiceHuman)
           stop_keepsProcessingFree).
Qed.

End ProcessingLock.

(** X10.  The processing lock never leaks.  If it is free when
    [start()], [stop()], [executeAction(action)] or a tick of the timer
    begins, it is free when that call has ended: whatever the host does
    (inference that fails, editor commands that raise, [stop()] called
    meanwhile) and whether the call returns or raises. *)
Theorem processing_lock_never_leaks (env : Env) (s : Simulator) :
  isProcessing s = false ->
  isProcessing (snd (start env s)) = false
  /\ isProcessing (snd (stop env s)) = false
  /\ (forall action, isProcessing (snd (executeAction env action s)) = false)
  /\ (forall actionCount,
        isProcessing (snd (periodicTick env actionCount s)) = false).
Proof.
  intros Hp. repeat split; intros.
  - apply (start_keepsProcessingFree env s Hp).
  - apply (stop_keepsProcessingFree env s Hp).
  - apply (executeAction_keepsProcessingFree env action s Hp).
  - apply (periodicTick_keepsProcessingFree env actionCount s Hp).
Qed.

Lemma processing_lock_never_leaks_witness :
  isProcessing (snd (start (faultyHost 3) (setEditor (Some sampleEditor) (create (pairedConfig 2 1))))) = false
  /\ isProcessing (snd (stop (faultyHost 3) (setEditor (Some sampleEditor) (create (pairedConfig 2 1))))) = false
  /\ (forall action,
        isProcessing
          (snd (executeAction (faultyHost 3) action (setEditor (Some sampleEditor) (create (pairedConfig 2 1)))))
        = false)
  /\ (forall actionCount,
        isProcessing
          (snd (periodicTick (faultyHost 3) actionCount (setEditor (Some sampleEditor) (create (pairedConfig 2 1)))))
        = false).
Proof.
  apply (@processing_lock_never_leaks (faultyHost 3) (setEditor (Some sampleEditor) (create (pairedConfig 2 1)))).
  reflexivity.
Defined.

(* ===================================================================== *)
(** * What a turn leaves alone *)
(* ===================================================================== *)

Section InsideTurn.

Variable env : Env.

Lemma insideTurn_refl (s : Simulator) : insideTurn s s.
Proof. unfold insideTurn. repeat split; auto. Qed.

Lemma insideTurn_trans (s1 s2 s3 : Simulator) :
  insideTurn s1 s2 -> insideTurn s2 s3 -> insideTurn s1 s3.
Proof.
  unfold insideTurn.
  intros (A1 & A2 & A3 & A4 & A5 & A6 & A7 & A8)
         (B1 & B2 & B3 & B4 & B5 & B6 & B7 & B8).
  repeat split; try congruence. auto.
Qed.

Lemma insideAction_insideTurn (s s' : Simulator) :
  insideAction s s' -> insideTurn s s'.
Proof.
  unfold insideAction, insideTurn.
  intros (A1 & A2 & A3 & A4 & A5 & A6 & A7 & A8 & A9 & A10).
  repeat split; assumption.
Qed.

Lemma command_insideTurn (c : EdCmd) : sound insideTurn (command env c).
Proof.
  apply (@sound_weaken insideAction insideTurn _ _
               insideAction_insideTurn), command_insideAction.
Qed.

Lemma suspend_insideTurn (ms : Q) : sound insideTurn (suspend env ms).
Proof.
  apply (@sound_weaken insideAction insideTurn _ _
               insideAction_insideTurn), suspend_insideAction.
Qed.

Lemma nextRandom_insideTurn : sound insideTurn (nextRandom env).
Proof.
  apply (@sound_weaken insideAction insideTurn _ _
               insideAction_insideTurn), nextRandom_insideAction.
Qed.

Lemma stop_insideTurn : sound insideTurn (stop env).
Proof.
  intros s.
  destruct (stop_effect env s)
    as (He & _ & Hset & _ & Hh & Ha & new & Htr & Hnew).
  destruct (stop_frame env s) as (_ & Hn & Hep & Hst & _).
  unfold insideTurn. rewrite Htr, turnsIn_app.
  rewrite (stopEvent_no_turn Hnew), app_nil_r.
  repeat split; try assumption. congruence.
Qed.

Ltac inside_turn :=
  intros; unfold insideTurn; cbn;
  rewrite ?turnsIn_app; cbn; rewrite ?app_nil_r;
  repeat split; auto.

Lemma generateAndApplyHumanAction_insideTurn :
  sound insideTurn (generateAndApplyHumanAction env).
Proof.
  apply (@inv_generateAndApplyHumanAction env insideTurn
           insideTurn_refl insideTurn_trans
           command_insideTurn suspend_insideTurn nextRandom_insideTurn);
    inside_turn.
Qed.

Lemma generateAndApplyAssistantAction_insideTurn :
  sound insideTurn (generateAndApplyAssistantAction env).
Proof.
  apply (@inv_generateAndApplyAssistantAction env insideTurn
           insideTurn_refl insideTurn_trans
           command_insideTurn suspend_insideTurn nextRandom_insideTurn);
    inside_turn.
Qed.

(** The body of the [try] of a turn keeps the editor attached, so that
    the [catch] can type. *)
Lemma tryCatch_returns (m h : M unit) (s : Simulator) :
  sound insideTurn m ->
  editor s <> None ->
  (forall s1, editor s1 <> None -> fst (h s1) = Returned tt) ->
  fst (tryCatch m h s) = Returned tt.
Proof.
  intros Hm He Hh. unfold tryCatch.
  pose proof (Hm s) as Hs. destruct (m s) as [[[]|] s1]; [reflexivity|].
  apply Hh. destruct Hs as (_ & Hatt & _). apply Hatt, He.
Qed.

Hypothesis no_fault : forall k, editorFault env k = false.

Lemma generateAndApplyHumanAction_returns (s : Simulator) :
  fst (generateAndApplyHumanAction env s) = Returned tt.
Proof.
  unfold generateAndApplyHumanAction. rewrite bind_this.
  destruct (editor s) as [e|] eqn:He; [|reflexivity].
  destruct (isProcessing s); [reflexivity|].
  rewrite fst_turn. apply tryCatch_returns.
  - unfold humanlikeDelay, simulateWait, callInference, drawDelay, log.
    repeat first
      [ sound_step insideTurn_refl insideTurn_trans
      | apply suspend_insideTurn
      | apply nextRandom_insideTurn
      | apply (@sound_weaken insideAction insideTurn _ _
               insideAction_insideTurn),
          applyAction_insideAction
      | apply (@sound_weaken insideAction insideTurn _ _
               insideAction_insideTurn),
          typeUnderLock_insideAction
      | apply sound_assign; solve [inside_turn] ].
  - congruence.
  - intros s1 He1. apply typeUnderLock_returns; assumption.
Qed.

Lemma generateAndApplyAssistantAction_returns (s : Simulator) :
  fst (generateAndApplyAssistantAction env s) = Returned tt.
Proof.
  unfold generateAndApplyAssistantAction. rewrite bind_this.
  destruct (editor s) as [e|] eqn:He; [|reflexivity].
  destruct (isProcessing s); [reflexivity|].
  rewrite fst_turn. unfold tryCatch.
  match goal with
  | |- context [match ?x with _ => _ end] => destruct x as [[[]|] s1]
  end; reflexivity.
Qed.

Lemma command_returns (c : EdCmd) (s : Simulator) :
  editor s <> None ->
  fst (command env c s) = Returned tt
  /\ editor (snd (command env c s)) <> None
  /\ totalActions (stats (snd (command env c s))) = totalActions (stats s).
Proof.
  intros He. unfold command. destruct (editor s) as [e|]; [|congruence].
  rewrite no_fault. cbn. repeat split. discriminate.
Qed.

Lemma executeAction_counts (action : SimulationAction) (s : Simulator) :
  editor s <> None ->
  exists s',
    executeAction env action s = (Returned tt, s')
    /\ totalActions (stats s') = S (totalActions (stats s))
    /\ insideTurn
         (match action with
          | StateServiceHuman => emit s (EvTurn Human)
          | StateServiceAssistant => emit s (EvTurn Assistant)
          | _ => s
          end)
         (set_stats s' (stats s)).
Proof.
  intros He. unfold executeAction. rewrite bind_this.
  destruct (editor s) as [e|] eqn:Hed; [|congruence].
  assert (Hatt : editor s <> None) by congruence.
  match goal with
  | |- context [bind ?m _] =>
      assert (Hin : exists s1, m s = (Returned tt, s1)
                /\ insideTurn
                     (match action with
                      | StateServiceHuman => emit s (EvTurn Human)
                      | StateServiceAssistant => emit s (EvTurn Assistant)
                      | _ => s
                      end) s1)
  end.
  { destruct action as [| | [t|] | [p|] | [d|]];
      try (eexists; split; [reflexivity | apply insideTurn_refl]).
    - unfold bind, log, assign.
      pose proof (generateAndApplyHumanAction_returns (emit s (EvTurn Human)))
        as Hret.
      pose proof (generateAndApplyHumanAction_insideTurn
                    (emit s (EvTurn Human))) as Hs.
      destruct (generateAndApplyHumanAction env (emit s (EvTurn Human)))
        as [r s1]. cbn in Hret, Hs. subst r. eauto.
    - unfold bind, log, assign.
      pose proof (generateAndApplyAssistantAction_returns
                    (emit s (EvTurn Assistant))) as Hret.
      pose proof (generateAndApplyAssistantAction_insideTurn
                    (emit s (EvTurn Assistant))) as Hs.
      destruct (generateAndApplyAssistantAction env
                  (emit s (EvTurn Assistant))) as [r s1].
      cbn in Hret, Hs. subst r. eauto.
    - destruct (negb (String.eqb t EmptyString)); cbn [when];
        [|eexists; split; [reflexivity | apply insideTurn_refl]].
      unfold simulateTyping. rewrite bind_this, Hed.
      match goal with
      | |- context [bind (command env ?c1) (fun _ => command env ?c2)] =>
          pose proof (command_insideTurn c1 s) as Hs1;
          destruct (command_returns c1 s Hatt) as (Hr1 & He1 & _);
          unfold bind;
          destruct (command env c1 s) as [r1 s1]; cbn in Hr1, He1, Hs1;
          subst r1;
          pose proof (command_insideTurn c2 s1) as Hs2;
          destruct (command_returns c2 s1 He1) as (Hr2 & _);
          destruct (command env c2 s1) as [r2 s2]; cbn in Hr2, Hs2;
          subst r2
      end.
      eexists. split; [reflexivity|].
      eapply insideTurn_trans; eassumption.
    - unfold simulateCursorMove. rewrite bind_this, Hed.
      match goal with
      | |- context [command env ?c1 s] =>
          pose proof (command_insideTurn c1 s) as Hs1;
          destruct (command_returns c1 s Hatt) as (Hr1 & _);
          destruct (command env c1 s) as [r1 s1]; cbn in Hr1, Hs1;
          subst r1
      end.
      eauto.
    - destruct (negb (Qeq_bool d 0)); cbn [when];
        [|eexists; split; [reflexivity | apply insideTurn_refl]].
      unfold simulateWait.
      pose proof (suspend_insideTurn d s) as Hs1.
      destruct (suspend_effect env d s) as (Hr1 & _).
      destruct (suspend env d s) as [r1 s1]; cbn in Hr1, Hs1. subst r1.
      eauto. }
  destruct Hin as (s1 & Hrun & Hs).
  unfold bind at 1. rewrite Hrun. unfold assign.
  eexists. split; [reflexivity|].
  pose proof Hs as (_ & _ & _ & _ & _ & Hn & _).
  split.
  - cbn. rewrite Hn. destruct action; reflexivity.
  - destruct Hs as (A1 & A2 & A3 & A4 & A5 & A6 & A7 & A8).
    unfold insideTurn. cbn.
    repeat split; try assumption;
      destruct action; cbn in *; try assumption; try reflexivity.
Qed.

End InsideTurn.

(** X11.  [executeAction] counts calls, not edits.  As long as the
    editor carries out the commands it is given, [executeAction]
    returns normally for every action, and [stats.totalActions] has
    grown by exactly one if an editor is attached (also when the turn
    was dropped, the inference failed or the payload was missing);
    without an editor nothing changes at all. *)
Theorem execute_action_counts_calls
  (env : Env) (action : SimulationAction) (s : Simulator) :
  (forall k, editorFault env k = false) ->
  exists s',
    executeAction env action s = (Returned tt, s')
    /\ totalActions (stats s')
       = totalActions (stats s)
         + match editor s with Some _ => 1 | None => 0 end
    /\ (editor s = None -> s' = s).
Proof.
  intros Hnf. destruct (editor s) as [e|] eqn:He.
  - assert (Hatt : editor s <> None) by congruence.
    destruct (@executeAction_counts env Hnf action s Hatt)
      as (s' & Hrun & Hn & _).
    exists s'. repeat split; [exact Hrun | lia | discriminate].
  - exists s. unfold executeAction. rewrite bind_this, He.
    repeat split. cbn. lia.
Qed.

Lemma execute_action_counts_calls_witness :
  exists s',
    executeAction quietHost StateServiceHuman busySimulator = (Returned tt, s')
    /\ totalActions (stats s')
       = totalActions (stats busySimulator)
         + match editor busySimulator with Some _ => 1 | None => 0 end
    /\ (editor busySimulator = None -> s' = busySimulator).
Proof.
  apply (@execute_action_counts_calls quietHost StateServiceHuman
           busySimulator).
  intros k. reflexivity.
Defined.

Section CountsTurns.

Variable env : Env.
Hypothesis no_fault : forall k, editorFault env k = false.

Lemma countsTurns_refl (s : Simulator) : countsTurns s s.
Proof. exists []. rewrite app_nil_r. split; [reflexivity | cbn; lia]. Qed.

Lemma countsTurns_trans (s1 s2 s3 : Simulator) :
  countsTurns s1 s2 -> countsTurns s2 s3 -> countsTurns s1 s3.
Proof.
  intros (t1 & T1 & N1) (t2 & T2 & N2). exists (t1 ++ t2).
  rewrite T2, T1, N2, N1, <- app_assoc, length_app.
  split; [reflexivity | lia].
Qed.

Lemma insideTurn_countsTurns (s s' : Simulator) :
  insideTurn s s' -> countsTurns s s'.
Proof.
  intros (_ & _ & _ & _ & Ht & Hn & _). exists [].
  rewrite app_nil_r. split; [exact Ht | cbn; lia].
Qed.

Lemma executeAction_countsTurns (actor : Actor) :
  sound countsTurns (executeAction env (actionOf actor)).
Proof.
  intros s. destruct (editor s) as [e|] eqn:He.
  - assert (Hatt : editor s <> None) by congruence.
    destruct (@executeAction_counts env no_fault (actionOf actor) s Hatt)
      as (s' & Hrun & Hn & Hin).
    rewrite Hrun. cbn [snd]. exists [actor].
    destruct Hin as (_ & _ & _ & _ & Ht & _). cbn in Ht.
    split; [|cbn; lia].
    rewrite Ht. destruct actor; cbn; rewrite turnsIn_app; reflexivity.
  - unfold executeAction. rewrite bind_this, He. apply countsTurns_refl.
Qed.

Ltac same_counts :=
  intros; exists []; cbn; rewrite app_nil_r; split; [reflexivity | lia].

Lemma startZeroStyleSequence_countsTurns :
  sound countsTurns (startZeroStyleSequence env).
Proof.
  apply (@inv_startZeroStyleSequence env countsTurns
           countsTurns_refl countsTurns_trans
           (executeAction_countsTurns Human)
           (executeAction_countsTurns Assistant)).
  - intros ms s. apply insideTurn_countsTurns, suspend_insideTurn.
  - intros s. apply insideTurn_countsTurns, stop_insideTurn.
  - same_counts.
  - same_counts.
Qed.

Lemma start_countsTurns : sound countsTurns (start env).
Proof.
  apply (@inv_start env countsTurns
           countsTurns_refl countsTurns_trans
           (executeAction_countsTurns Human)
           (executeAction_countsTurns Assistant)).
  - intros ms s. apply insideTurn_countsTurns, suspend_insideTurn.
  - intros s. apply insideTurn_countsTurns, stop_insideTurn.
  - same_counts.
  - same_counts.
  - intros c s. apply insideTurn_countsTurns, command_insideTurn.
  - same_counts.
  - same_counts.
  - same_counts.
  - same_counts.
Qed.

End CountsTurns.

(** X12.  In a run that [start()] begins, [stats.totalActions] grows by
    exactly the number of turns attempted, however the run ends (to its
    end, or cut short by [stop()]), as long as the editor carries out
    the commands it is given. *)
Theorem total_actions_count_turns (env : Env) (s : Simulator) :
  (forall k, editorFault env k = false) ->
  let s' := snd (start env s) in
  exists t,
    turnsIn (trace (world s')) = turnsIn (trace (world s)) ++ t
    /\ totalActions (stats s') = totalActions (stats s) + List.length t.
Proof. intros Hnf. apply (@start_countsTurns env Hnf s). Qed.

Lemma total_actions_count_turns_witness :
  let s' := snd (start (stoppingHost 4)
                   (setEditor (Some sampleEditor) (create (pairedConfig 2 1)))) in
  exists t,
    turnsIn (trace (world s'))
    = turnsIn (trace (world (setEditor (Some sampleEditor)
                               (create (pairedConfig 2 1))))) ++ t
    /\ totalActions (stats s')
       = totalActions (stats (setEditor (Some sampleEditor)
                                (create (pairedConfig 2 1))))
         + List.length t.
Proof.
  apply (@total_actions_count_turns (stoppingHost 4)
           (setEditor (Some sampleEditor) (create (pairedConfig 2 1)))).
  intros k. reflexivity.
Defined.

(* ===================================================================== *)
(** * The paired sequence under an arbitrary host *)
(* ===================================================================== *)

Lemma runSequence_returns_stopped
  (env : Env) (intervalMs : Q) (assistantLimit followUpHumans : Z)
  (s : Simulator) :
  fst (runSequence env intervalMs assistantLimit followUpHumans s)
  = Returned tt
  /\ isRunning (snd (runSequence env intervalMs assistantLimit
                       followUpHumans s)) = false.
Proof.
  unfold runSequence, tryFinally.
  match goal with
  | |- context [tryCatch ?m ?h s] =>
      assert (Hret : fst (tryCatch m h s) = Returned tt)
        by (unfold tryCatch; destruct (m s) as [[[]|] s0]; reflexivity);
      destruct (tryCatch m h s) as [r s1]
  end.
  cbn in Hret. subst r. rewrite bind_this.
  destruct (isRunning s1) eqn:Hr1; cbn [when].
  - pose proof (stop_returns env s1) as Hstop.
    pose proof (stop_leaves_not_running env s1) as Hstopped.
    destruct (stop env s1) as [r2 s2]. cbn in *. subst r2. cbn. auto.
  - cbn. auto.
Qed.

(** X13.  The paired sequence contains its own failures and always ends
    stopped: whatever the host does (inference that fails, editor
    commands that raise, [stop()] called meanwhile), [runSequence]
    returns normally and [isRunning] is false afterwards. *)
Theorem sequence_ends_stopped (env : Env) (s : Simulator) :
  fst (startZeroStyleSequence env s) = Returned tt
  /\ isRunning (snd (startZeroStyleSequence env s)) = false.
Proof.
  unfold startZeroStyleSequence. rewrite bind_this.
  apply runSequence_returns_stopped.
Qed.

Section CutShort.

Variable env : Env.

Lemma cutShort_ret {A} (a : A) : cutShort [] a (ret a).
Proof.
  intros s Hr He. cbn. split; [exact He|]. exists [].
  rewrite app_nil_r. split; [reflexivity|]. left. auto.
Qed.

Lemma cutShort_bind {A B} (t1 t2 : list Actor) (a : A) (b : B)
      (m : M A) (k : A -> M B) :
  cutShort t1 a m ->
  cutShort t2 b (k a) ->
  (forall x, idle (k x)) ->
  cutShort (t1 ++ t2) b (bind m k).
Proof.
  intros Hm Hk Hidle s Hr He. unfold bind.
  destruct (Hm s Hr He) as (He1 & t & Ht & Hcase).
  destruct (m s) as [r s1]. cbn [fst snd] in *.
  destruct Hcase as [(Hret & Hr1 & ->) | (Hhalt & rest & Hrest)].
  - subst r. destruct (Hk s1 Hr1 He1) as (He2 & t' & Ht' & Hcase').
    split; [exact He2|]. exists (t1 ++ t').
    split; [rewrite Ht', Ht, app_assoc; reflexivity|].
    destruct Hcase' as [(Hret' & Hr2 & ->) | (Hhalt' & rest' & Hrest')].
    + left. auto.
    + right. split; [exact Hhalt'|]. exists rest'.
      rewrite <- app_assoc, Hrest'. reflexivity.
  - destruct r as [x|].
    + destruct Hhalt as [Habs | Hnr]; [discriminate|].
      destruct (Hidle x s1 Hnr He1) as (Hr2 & He2 & Ht2).
      split; [exact He2|]. exists t. split; [congruence|].
      right. split; [right; exact Hr2|].
      exists (rest ++ t2). rewrite app_assoc, Hrest. reflexivity.
    + cbn [fst snd]. split; [exact He1|]. exists t. split; [exact Ht|].
      right. split; [left; reflexivity|].
      exists (rest ++ t2). rewrite app_assoc, Hrest. reflexivity.
Qed.

Lemma cutShort_eq {A} (t t' : list Actor) (a : A) (m : M A) :
  cutShort t a m -> t = t' -> cutShort t' a m.
Proof. intros H <-. exact H. Qed.

Lemma cutShort_counter (f : Simulator -> Simulator) :
  (forall s, isRunning (f s) = isRunning s
             /\ editor (f s) = editor s
             /\ world (f s) = world s) ->
  cutShort [] tt (assign f).
Proof.
  intros Hf s Hr He. destruct (Hf s) as (H1 & H2 & H3).
  unfold assign. cbn [fst snd]. rewrite H1, H2, H3.
  split; [exact He|]. exists []. rewrite app_nil_r.
  split; [reflexivity|]. left. auto.
Qed.

Lemma cutShort_wait (b : bool) (ms : Q) :
  cutShort [] tt (when b (simulateWait env ms)).
Proof.
  destruct b; cbn [when]; [|apply cutShort_ret].
  intros s Hr He. unfold simulateWait.
  destruct (suspend_effect env ms s)
    as (Hret & Hed & _ & _ & _ & _ & _ & new & Htr & Hnew).
  split; [congruence|]. exists [].
  split.
  - rewrite Htr, turnsIn_app.
    change (turnsIn (EvWait ms :: new)) with (turnsIn new).
    rewrite (stopEvent_no_turn Hnew). reflexivity.
  - destruct (isRunning (snd (suspend env ms s))) eqn:Hr1.
    + left. auto.
    + right. split; [right; reflexivity | exists []; reflexivity].
Qed.

Lemma cutShort_break (t : list Actor) (rest : M Flow) :
  cutShort t Next rest -> cutShort t Next (breakUnlessRunning rest).
Proof.
  intros H s Hr He. unfold breakUnlessRunning. rewrite bind_this, Hr.
  cbn [negb]. apply H; assumption.
Qed.

Lemma idle_break (rest : M Flow) : idle (breakUnlessRunning rest).
Proof.
  intros s Hr He. unfold breakUnlessRunning. rewrite bind_this, Hr.
  cbn. auto.
Qed.

Lemma idle_counter_break (f : Simulator -> Simulator) (rest : M Flow) :
  (forall s, isRunning (f s) = isRunning s
             /\ editor (f s) = editor s
             /\ world (f s) = world s) ->
  idle (assign f ;; breakUnlessRunning rest).
Proof.
  intros Hf s Hr He. destruct (Hf s) as (H1 & H2 & H3).
  unfold bind, assign. cbv beta iota.
  destruct (@idle_break rest (f s)) as (Hr' & He' & Ht'); try congruence.
  rewrite Ht', H3. auto.
Qed.

Lemma idle_ret {A} (a : A) : idle (ret a).
Proof. intros s Hr He. cbn. auto. Qed.

Lemma idle_forWhileRunning (n : nat) (i : Z) (body : Z -> M Flow) :
  idle (forWhileRunning n i body).
Proof.
  intros s Hr He. destruct n as [|n]; cbn [forWhileRunning].
  - cbn. auto.
  - rewrite bind_this, Hr. cbn. auto.
Qed.

(** A turn, seen from the sequence: it is attempted, and whatever
    happens in it no other turn is. *)
Lemma cutShort_turn (actor : Actor) :
  cutShort [actor] tt (executeAction env (actionOf actor)).
Proof.
  intros s Hr He. unfold executeAction. rewrite bind_this.
  destruct (editor s) as [e|] eqn:Hed; [|congruence].
  assert (Hin : forall m : M unit,
            sound insideTurn m ->
            let r := ((log (EvTurn actor) ;; m) ;; assign bumpTotalActions) s in
            editor (snd r) <> None
            /\ turnsIn (trace (world (snd r)))
               = turnsIn (trace (world s)) ++ [actor]
            /\ (fst r = Returned tt \/ fst r = Raised)).
  { intros m Hm. cbv zeta. unfold bind, log, assign.
    pose proof (Hm (emit s (EvTurn actor))) as (_ & Hatt & _ & _ & Ht & _).
    destruct (m (emit s (EvTurn actor))) as [[[]|] s1]; cbn in *;
      rewrite Ht, turnsIn_app; (split; [apply Hatt; congruence|]);
      split; auto. }
  assert (Hgoal : forall r : Outcome unit * Simulator,
            editor (snd r) <> None
            /\ turnsIn (trace (world (snd r)))
               = turnsIn (trace (world s)) ++ [actor]
            /\ (fst r = Returned tt \/ fst r = Raised) ->
            editor (snd r) <> None
            /\ exists t,
                 turnsIn (trace (world (snd r)))
                 = turnsIn (trace (world s)) ++ t
                 /\ ((fst r = Returned tt /\ isRunning (snd r) = true
                      /\ t = [actor])
                     \/ ((fst r = Raised \/ isRunning (snd r) = false)
                         /\ exists rest, t ++ rest = [actor]))).
  { intros r (H1 & H2 & H3). split; [exact H1|]. exists [actor].
    split; [exact H2|].
    destruct H3 as [H3 | H3].
    - destruct (isRunning (snd r)) eqn:Hr1.
      + left. auto.
      + right. split; [right; reflexivity | exists []; reflexivity].
    - right. split; [left; exact H3 | exists []; reflexivity]. }
  apply Hgoal.
  destruct actor; cbn [actionOf].
  - apply Hin.
    apply generateAndApplyHumanAction_insideTurn.
  - apply Hin.
    apply generateAndApplyAssistantAction_insideTurn.
Qed.

Ltac counter_frame := intros; cbn; auto.

Lemma cutShort_pairBody (intervalMs : Q) (assistantLimit followUpHumans i : Z) :
  cutShort [Human; Assistant] Next
           (pairBody env intervalMs assistantLimit followUpHumans i).
Proof.
  unfold pairBody.
  apply (@cutShort_bind _ _ [Human] [Assistant] tt Next);
    [apply (cutShort_turn Human) | | intros; apply idle_counter_break;
                                      counter_frame].
  apply (@cutShort_bind _ _ [] [Assistant] tt Next);
    [apply cutShort_counter; counter_frame | | intros; apply idle_break].
  apply cutShort_break.
  apply (@cutShort_bind _ _ [] [Assistant] tt Next);
    [apply cutShort_wait | | intros; apply idle_break].
  apply cutShort_break.
  apply (@cutShort_bind _ _ [Assistant] [] tt Next);
    [apply (cutShort_turn Assistant) | | intros; apply idle_counter_break;
                                          counter_frame].
  apply (@cutShort_bind _ _ [] [] tt Next);
    [apply cutShort_counter; counter_frame | | intros; apply idle_break].
  apply cutShort_break.
  apply (@cutShort_bind _ _ [] [] tt Next);
    [apply cutShort_wait | apply cutShort_ret | intros; apply idle_ret].
Qed.

Lemma cutShort_followUpBody (intervalMs : Q) (followUpHumans j : Z) :
  cutShort [Human] Next (followUpBody env intervalMs followUpHumans j).
Proof.
  unfold followUpBody.
  apply (@cutShort_bind _ _ [Human] [] tt Next);
    [apply (cutShort_turn Human) | | intros; apply idle_counter_break;
                                      counter_frame].
  apply (@cutShort_bind _ _ [] [] tt Next);
    [apply cutShort_counter; counter_frame | | intros; apply idle_break].
  apply cutShort_break.
  apply (@cutShort_bind _ _ [] [] tt Next);
    [apply cutShort_wait | apply cutShort_ret | intros; apply idle_ret].
Qed.

Lemma cutShort_forWhileRunning (t : list Actor) (body : Z -> M Flow) :
  (forall i, cutShort t Next (body i)) ->
  forall n i,
    cutShort (List.concat (repeat t n)) tt (forWhileRunning n i body).
Proof.
  intros Hbody. induction n as [|n IH]; intros i.
  - cbn. apply cutShort_ret.
  - intros s Hr He. cbn [forWhileRunning repeat List.concat].
    rewrite bind_this, Hr. revert s Hr He.
    apply (@cutShort_bind _ _ t (List.concat (repeat t n)) Next tt).
    + apply Hbody.
    + apply IH.
    + intros [|]; [apply idle_forWhileRunning | apply idle_ret].
Qed.

(** The two loops of [runSequence], one after the other. *)
Lemma cutShort_loops (intervalMs : Q) (assistantLimit followUpHumans : Z) :
  cutShort (pairedTurns (Z.to_nat assistantLimit) (Z.to_nat followUpHumans))
           tt
           (forWhileRunning (Z.to_nat assistantLimit) 0
              (pairBody env intervalMs assistantLimit followUpHumans) ;;
            s <- this ;;
            when (isRunning s)
                 (forWhileRunning (Z.to_nat followUpHumans) 0
                    (followUpBody env intervalMs followUpHumans))).
Proof.
  unfold pairedTurns. rewrite <- (concat_repeat_singleton Human).
  apply (@cutShort_bind _ _
           (List.concat (repeat [Human; Assistant] (Z.to_nat assistantLimit)))
           (List.concat (repeat [Human] (Z.to_nat followUpHumans))) tt tt).
  - apply cutShort_forWhileRunning. intros i. apply cutShort_pairBody.
  - intros s Hr He. rewrite bind_this, Hr. cbn [when]. revert s Hr He.
    apply cutShort_forWhileRunning. intros j. apply cutShort_followUpBody.
  - intros x s Hr He. rewrite bind_this, Hr. cbn. auto.
Qed.

Lemma runSequence_cut_short
      (intervalMs : Q) (assistantLimit followUpHumans : Z) (s : Simulator) :
  isRunning s = true ->
  editor s <> None ->
  let s' := snd (runSequence env intervalMs assistantLimit followUpHumans s) in
  exists t rest,
    turnsIn (trace (world s')) = turnsIn (trace (world s)) ++ t
    /\ t ++ rest
       = pairedTurns (Z.to_nat assistantLimit) (Z.to_nat followUpHumans).
Proof.
  intros Hr He. cbv zeta. unfold runSequence. rewrite snd_tryFinally.
  destruct (cutShort_loops intervalMs assistantLimit followUpHumans s Hr He)
    as (_ & t & Ht & Hcase).
  assert (Hpre : exists rest,
             t ++ rest
             = pairedTurns (Z.to_nat assistantLimit)
                           (Z.to_nat followUpHumans)).
  { destruct Hcase as [(_ & _ & ->) | (_ & Hrest)];
      [exists []; apply app_nil_r | exact Hrest]. }
  destruct Hpre as (rest & Hrest). exists t, rest.
  split; [|exact Hrest].
  unfold tryCatch at 1.
  match goal with
  | |- context [snd (match ?x with _ => _ end)] =>
      destruct x as [[[]|] s1]
  end; cbn [fst snd ret] in *; rewrite bind_this;
    (destruct (isRunning s1); cbn [when];
     [ destruct (stop_effect env s1)
         as (_ & _ & _ & _ & _ & _ & new & Htr & Hnew);
       rewrite Htr, turnsIn_app, (stopEvent_no_turn Hnew), app_nil_r;
       exact Ht
     | exact Ht ]).
Qed.

End CutShort.

(** X14.  The paired sequence never leaves its schedule: under any
    host, the turns it attempts are a first part of the schedule
    (human, assistant, ..., then the follow-up human turns), in that
    order.  A failure or a call of [stop()] can cut the schedule short;
    it cannot reorder it, repeat a turn or add one. *)
Theorem sequence_follows_schedule (env : Env) (s : Simulator) :
  isRunning s = true ->
  editor s <> None ->
  let s' := snd (startZeroStyleSequence env s) in
  exists t rest,
    turnsIn (trace (world s')) = turnsIn (trace (world s)) ++ t
    /\ t ++ rest
       = pairedTurns (Z.to_nat (sequenceAssistantLimit s))
                     (Z.to_nat (sequenceFollowUpHumans s)).
Proof.
  intros Hr He. unfold startZeroStyleSequence. rewrite bind_this.
  apply runSequence_cut_short; assumption.
Qed.

Lemma sequence_follows_schedule_witness :
  let s' := snd (startZeroStyleSequence (stoppingHost 4)
                   (pairedSimulator 2 1)) in
  exists t rest,
    turnsIn (trace (world s'))
    = turnsIn (trace (world (pairedSimulator 2 1))) ++ t
    /\ t ++ rest
       = pairedTurns
           (Z.to_nat (sequenceAssistantLimit (pairedSimulator 2 1)))
           (Z.to_nat (sequenceFollowUpHumans (pairedSimulator 2 1))).
Proof.
  apply (@sequence_follows_schedule (stoppingHost 4) (pairedSimulator 2 1)).
  - reflexivity.
  - discriminate.
Defined.

(* ===================================================================== *)
(** * The anatomy of a turn *)
(* ===================================================================== *)

Lemma tryCatch_bind_returns {A B} (m : M A) (k : A -> M B) (h : M B)
      (s s1 : Simulator) (a : A) :
  m s = (Returned a, s1) ->
  tryCatch (bind m k) h s = tryCatch (k a) h s1.
Proof. intros Hm. unfold tryCatch, bind. rewrite Hm. reflexivity. Qed.

(** Once [m] has run, what the continuation, the [catch] and nothing
    else do is all that separates the state from the final one. *)
Lemma after_step (R : Simulator -> Simulator -> Prop) {A B}
      (m : M A) (k : A -> M B) (h : M B) (s : Simulator) :
  (forall s, R s s) ->
  (forall s1 s2 s3, R s1 s2 -> R s2 s3 -> R s1 s3) ->
  (forall a, fst (m s) = Returned a -> sound R (k a)) ->
  sound R h ->
  R (snd (m s)) (snd (tryCatch (bind m k) h s)).
Proof.
  intros Hrefl Htrans Hk Hh. unfold tryCatch, bind.
  destruct (m s) as [[a|] s1]; cbn [snd].
  - pose proof (Hk a eq_refl s1) as H1.
    destruct (k a s1) as [[b|] s2]; cbn in *.
    + exact H1.
    + eapply Htrans; [exact H1 | apply Hh].
  - apply Hh.
Qed.

Section Desk.

Variable env : Env.

Lemma sameDesk_refl (s : Simulator) : sameDesk s s.
Proof. unfold sameDesk. auto. Qed.

Lemma sameDesk_trans (s1 s2 s3 : Simulator) :
  sameDesk s1 s2 -> sameDesk s2 s3 -> sameDesk s1 s3.
Proof.
  unfold sameDesk.
  intros (A1 & A2 & A3 & A4 & A5) (B1 & B2 & B3 & B4 & B5).
  repeat split; congruence.
Qed.

Lemma suspend_sameDesk (ms : Q) : sound sameDesk (suspend env ms).
Proof.
  intros s.
  destruct (suspend_effect env ms s)
    as (_ & He & Ht & Hset & Hc & _ & _ & new & Htr & Hnew).
  unfold sameDesk. rewrite Htr, commandsIn_app.
  change (commandsIn (EvWait ms :: new)) with (commandsIn new).
  rewrite (stopEvent_no_command Hnew), app_nil_r. auto.
Qed.

Lemma nextRandom_sameDesk : sound sameDesk (nextRandom env).
Proof. intros s. unfold sameDesk. cbn. auto. Qed.

Ltac same_desk :=
  intros; unfold sameDesk; cbn;
  rewrite ?commandsIn_app; cbn; rewrite ?app_nil_r; auto.

Ltac desk_step :=
  first
    [ sound_step sameDesk_refl sameDesk_trans
    | apply suspend_sameDesk
    | apply nextRandom_sameDesk
    | apply sound_assign; solve [same_desk] ].

Lemma humanlikeDelay_sameDesk : sound sameDesk (humanlikeDelay env).
Proof. unfold humanlikeDelay, drawDelay, simulateWait. repeat desk_step. Qed.


Lemma shouldInjectAssistantNoise_sameDesk :
  sound sameDesk (shouldInjectAssistantNoise env).
Proof. unfold shouldInjectAssistantNoise. repeat desk_step. Qed.

Lemma turn_finally_sameDesk :
  sound sameDesk
        (assign (fun s => set_isProcessing s false) ;;
         s <- this ;;
         simulateWait env (postActionPauseMs (settings s))).
Proof. unfold simulateWait. repeat desk_step. Qed.

Lemma turn_finally_insideAction :
  sound insideAction
        (assign (fun s => set_isProcessing s false) ;;
         s <- this ;;
         simulateWait env (postActionPauseMs (settings s))).
Proof.
  unfold simulateWait.
  repeat first
    [ sound_step insideAction_refl insideAction_trans
    | apply suspend_insideAction
    | apply sound_assign; intros; unfold insideAction; cbn;
      repeat split; auto ].
Qed.

(** The pause before a turn always returns and changes nothing a turn
    reads. *)
Lemma humanlikeDelay_effect (s : Simulator) :
  exists s1,
    humanlikeDelay env s = (Returned tt, s1)
    /\ sameDesk s s1 /\ insideAction s s1.
Proof.
  pose proof (humanlikeDelay_sameDesk s) as Hd.
  pose proof (humanlikeDelay_insideAction env s) as Hi.
  assert (Hret : fst (humanlikeDelay env s) = Returned tt).
  { unfold humanlikeDelay. rewrite bind_this. unfold drawDelay, simulateWait.
    match goal with
    | |- context [if ?b then _ else _] => destruct b
    end.
    - unfold bind, ret.
      match goal with
      | |- context [suspend env ?d ?s0] =>
          destruct (suspend_effect env d s0) as (H & _)
      end.
      exact H.
    - unfold bind, ret, nextRandom.
      match goal with
      | |- context [suspend env ?d ?s0] =>
          destruct (suspend_effect env d s0) as (H & _)
      end.
      exact H. }
  destruct (humanlikeDelay env s) as [r s1]. cbn in *. subst r. eauto.
Qed.

(** An inference call: the request is logged, and nothing else a turn
    reads has changed. *)
Lemma callInference_effect (r : InferenceRequest) (s : Simulator) :
  let s' := snd (callInference env r s) in
  fst (callInference env r s)
  = match inference env r with
    | Rejected => Raised
    | answer => Returned answer
    end
  /\ sameDesk s s'
  /\ timestep s' = timestep s
  /\ requestsIn (trace (world s')) = requestsIn (trace (world s)) ++ [r]
  /\ (editor s <> None -> editor s' <> None).
Proof.
  cbv zeta.
  set (s0 := emit s (EvRequest r)).
  assert (Hrun : callInference env r s
                 = (match inference env r with
                    | Rejected => Raised
                    | answer => Returned answer
                    end,
                    snd (suspend env (latency env r) s0))).
  { unfold callInference, bind, log, assign. fold s0.
    destruct (suspend_effect env (latency env r) s0) as (Hret & _).
    destruct (suspend env (latency env r) s0) as [u s1].
    cbn in Hret. subst u. cbn [snd].
    destruct (inference env r); reflexivity. }
  rewrite Hrun. cbn [fst snd].
  pose proof (suspend_insideAction env (latency env r) s0)
    as (_ & Hatt & Hts & _ & _ & _ & Hreq & _).
  pose proof (suspend_sameDesk (latency env r) s0) as Hd.
  split; [reflexivity|]. split; [|split; [|split]].
  - eapply sameDesk_trans; [|exact Hd]. unfold s0. same_desk.
  - rewrite Hts. reflexivity.
  - rewrite Hreq. unfold s0. cbn. rewrite requestsIn_app. reflexivity.
  - exact Hatt.
Qed.

End Desk.

Ltac inside_action_frame :=
  intros; unfold insideAction; cbn;
  rewrite ?turnsIn_app, ?requestsIn_app; cbn; rewrite ?app_nil_r;
  repeat split; auto.

Ltac after_inference_step env :=
  first
    [ sound_step insideAction_refl insideAction_trans
    | apply (applyAction_insideAction env)
    | apply (typeUnderLock_insideAction env)
    | apply sound_assign; solve [inside_action_frame] ].

(** The request of a human turn, and the timestep after it. *)
Lemma human_turn_request (env : Env) (s : Simulator) (e : Editor) :
  editor s = Some e ->
  isProcessing s = false ->
  let s' := snd (generateAndApplyHumanAction env s) in
  let W := withProblemBlock (problemDescription (settings s))
                            (Monaco.getValue e) in
  timestep s' = (timestep s + 1)%Z
  /\ requestsIn (trace (world s'))
     = requestsIn (trace (world s))
       ++ [mkRequest (fst (fst W)) Human (timestep s)
                     (lineNumber (cursor e) + snd W) (column (cursor e))
                     (String.length (fst (fst W)))
                     (Monaco.getOffsetAt e (cursor e) + snd (fst W))
                     None None None].
Proof.
  intros He Hp. cbv zeta. unfold generateAndApplyHumanAction.
  rewrite bind_this, He, Hp. rewrite snd_tryFinally.
  match goal with
  | |- context [tryCatch ?b ?h s] => set (mid := snd (tryCatch b h s))
  end.
  pose proof (turn_finally_insideAction env mid)
    as (_ & _ & Hts' & _ & _ & _ & Hreq' & _).
  rewrite Hts', Hreq'. clear Hts' Hreq'. subst mid.
  rewrite (@tryCatch_bind_returns _ _ (assign _) _ _ s
             (set_isProcessing s true) tt eq_refl).
  destruct (humanlikeDelay_effect env (set_isProcessing s true))
    as (s1 & Hdelay & (He1 & _ & Hset1 & _) & (_ & _ & Hts1 & _ & _ & _ & Hreq1 & _)).
  rewrite (@tryCatch_bind_returns _ _ _ _ _ _ _ _ Hdelay).
  rewrite (@tryCatch_bind_returns _ _ this _ _ s1 s1 s1 eq_refl).
  cbn in He1, Hset1, Hts1, Hreq1. rewrite He1, He, Hset1, Hts1.
  unfold getPosition.
  destruct (withProblemBlock (problemDescription (settings s))
                             (Monaco.getValue e)) as [[full off] blockLines].
  cbn [fst snd].
  rewrite (@tryCatch_bind_returns _ _ (assign _) _ _ s1
             (set_timestep s1 (timestep s1 + 1)%Z) tt eq_refl).
  match goal with
  | |- context [tryCatch (bind (callInference env ?req) ?k) ?h ?s2] =>
      assert (Hafter : insideAction (snd (callInference env req s2))
                         (snd (tryCatch (bind (callInference env req) k) h s2)));
      [ apply (@after_step insideAction _ _ (callInference env req) k h s2
                 insideAction_refl insideAction_trans);
        [ intros a _; unfold log; repeat after_inference_step env
        | apply (typeUnderLock_insideAction env) ]
      | destruct (callInference_effect env req s2)
          as (_ & _ & Hts2 & Hreq2 & _) ]
  end.
  destruct Hafter as (_ & _ & Hts3 & _ & _ & _ & Hreq3 & _).
  rewrite Hts3, Hreq3, Hts2, Hreq2. cbn. rewrite Hts1, Hreq1.
  split; reflexivity.
Qed.

(** Whether the assistant explores always has an answer, and it is yes
    only with a positive noise probability. *)
Lemma shouldInjectAssistantNoise_effect (env : Env) (s : Simulator) :
  exists b s1,
    shouldInjectAssistantNoise env s = (Returned b, s1)
    /\ sameDesk s s1 /\ insideAction s s1
    /\ (b = true ->
        Qle_bool (assistantNoiseProbability (settings s)) 0 = false).
Proof.
  unfold shouldInjectAssistantNoise. rewrite bind_this.
  destruct (Qle_bool (assistantNoiseProbability (settings s)) 0) eqn:Hp.
  - exists false, s. repeat split; try reflexivity; auto; try discriminate.
  - unfold bind, nextRandom, ret. eexists. eexists.
    split; [reflexivity|].
    split; [unfold sameDesk; cbn; auto|].
    split; [inside_action_frame | reflexivity].
Qed.

(** The request of an assistant turn, and the timestep after it. *)
Lemma assistant_turn_request (env : Env) (s : Simulator) (e : Editor) :
  editor s = Some e ->
  isProcessing s = false ->
  let s' := snd (generateAndApplyAssistantAction env s) in
  let W := withProblemBlock (problemDescription (settings s))
                            (Monaco.getValue e) in
  exists explore,
    (explore = true ->
     Qle_bool (assistantNoiseProbability (settings s)) 0 = false)
    /\ timestep s' = (timestep s + 1)%Z
    /\ requestsIn (trace (world s'))
       = requestsIn (trace (world s))
         ++ [mkRequest (fst (fst W)) Assistant (timestep s)
                       (lineNumber (cursor e) + snd W) (column (cursor e))
                       (String.length (fst (fst W)))
                       (Monaco.getOffsetAt e (cursor e) + snd (fst W))
                       (if explore
                        then Some (Z.max 1
                                     (Z.min (assistantNoiseTopK (settings s)) 7))
                        else None)
                       (positive (assistantTemperature (settings s)))
                       (nonNegative (assistantEpsilon (settings s)))].
Proof.
  intros He Hp. cbv zeta. unfold generateAndApplyAssistantAction.
  rewrite bind_this, He, Hp. rewrite snd_tryFinally.
  match goal with
  | |- context [tryCatch ?b ?h s] => set (mid := snd (tryCatch b h s))
  end.
  pose proof (turn_finally_insideAction env mid)
    as (_ & _ & Hts' & _ & _ & _ & Hreq' & _).
  rewrite Hts', Hreq'. clear Hts' Hreq'. subst mid.
  rewrite (@tryCatch_bind_returns _ _ (assign _) _ _ s
             (set_isProcessing s true) tt eq_refl).
  destruct (humanlikeDelay_effect env (set_isProcessing s true))
    as (s1 & Hdelay & (He1 & _ & Hset1 & _) & (_ & _ & Hts1 & _ & _ & _ & Hreq1 & _)).
  rewrite (@tryCatch_bind_returns _ _ _ _ _ _ _ _ Hdelay).
  rewrite (@tryCatch_bind_returns _ _ this _ _ s1 s1 s1 eq_refl).
  cbn in He1, Hset1, Hts1, Hreq1. rewrite He1, He, Hset1, Hts1.
  unfold getPosition.
  destruct (withProblemBlock (problemDescription (settings s))
                             (Monaco.getValue e)) as [[full off] blockLines].
  cbn [fst snd].
  rewrite (@tryCatch_bind_returns _ _ (assign _) _ _ s1
             (set_timestep s1 (timestep s1 + 1)%Z) tt eq_refl).
  destruct (shouldInjectAssistantNoise_effect env
              (set_timestep s1 (timestep s1 + 1)%Z))
    as (explore & s2 & Hnoise & _ & (_ & _ & Hts2 & _ & _ & _ & Hreq2 & _)
        & Hexplore).
  rewrite (@tryCatch_bind_returns _ _ _ _ _ _ _ _ Hnoise).
  exists explore. split; [cbn in Hexplore; rewrite Hset1 in Hexplore;
                          exact Hexplore|].
  match goal with
  | |- context [tryCatch (bind (callInference env ?req) ?k) ?h s2] =>
      assert (Hafter : insideAction (snd (callInference env req s2))
                         (snd (tryCatch (bind (callInference env req) k) h s2)));
      [ apply (@after_step insideAction _ _ (callInference env req) k h s2
                 insideAction_refl insideAction_trans);
        [ intros a _; repeat after_inference_step env
        | repeat after_inference_step env ]
      | destruct (callInference_effect env req s2)
          as (_ & _ & Hts3 & Hreq3 & _) ]
  end.
  destruct Hafter as (_ & _ & Hts4 & _ & _ & _ & Hreq4 & _).
  rewrite Hts4, Hreq4, Hts3, Hreq3, Hts2, Hreq2. cbn. rewrite Hts1, Hreq1.
  split; reflexivity.
Qed.

Lemma executeAction_turn_state (env : Env) (actor : Actor) (s : Simulator) :
  editor s <> None ->
  let s1 := snd (match actor with
                 | Human => generateAndApplyHumanAction env
                 | Assistant => generateAndApplyAssistantAction env
                 end (emit s (EvTurn actor))) in
  snd (executeAction env (actionOf actor) s) = s1
  \/ snd (executeAction env (actionOf actor) s) = bumpTotalActions s1.
Proof.
  intros He. cbv zeta. unfold executeAction. rewrite bind_this.
  destruct (editor s) as [e|]; [|congruence].
  destruct actor; cbn [actionOf]; unfold bind, log, assign;
    match goal with
    | |- context [match ?x with _ => _ end] => destruct x as [[[]|] s1]
    end; cbn; auto.
Qed.

(** X15.  A turn that is carried out sends exactly one inference
    request and moves the timestep on by exactly one, whatever the host
    does.  The request is attributed to the actor of the turn, carries
    the timestep from before the turn, the document with the problem
    block in front, and the cursor shifted by the lines and characters
    of that block. *)
Theorem turn_sends_one_request
  (env : Env) (actor : Actor) (s : Simulator) (e : Editor) :
  editor s = Some e ->
  isProcessing s = false ->
  let s' := snd (executeAction env (actionOf actor) s) in
  let W := withProblemBlock (problemDescription (settings s))
                            (Monaco.getValue e) in
  timestep s' = (timestep s + 1)%Z
  /\ exists req,
       requestsIn (trace (world s')) = requestsIn (trace (world s)) ++ [req]
       /\ author_attribution req = actor
       /\ req_timestep req = timestep s
       /\ text req = fst (fst W)
       /\ file_length req = String.length (fst (fst W))
       /\ cursor_line req = lineNumber (cursor e) + snd W
       /\ cursor_column req = column (cursor e)
       /\ cursorOffset req = Monaco.getOffsetAt e (cursor e) + snd (fst W).
Proof.
  intros He Hp. cbv zeta.
  assert (Hatt : editor s <> None) by congruence.
  set (s0 := emit s (EvTurn actor)).
  assert (He0 : editor s0 = Some e) by exact He.
  assert (Hp0 : isProcessing s0 = false) by exact Hp.
  assert (Hturn :
            let s1 := snd (match actor with
                           | Human => generateAndApplyHumanAction env
                           | Assistant => generateAndApplyAssistantAction env
                           end s0) in
            timestep s1 = (timestep s + 1)%Z
            /\ exists req,
                 requestsIn (trace (world s1))
                 = requestsIn (trace (world s)) ++ [req]
                 /\ author_attribution req = actor
                 /\ req_timestep req = timestep s
                 /\ text req
                    = fst (fst (withProblemBlock
                                  (problemDescription (settings s))
                                  (Monaco.getValue e)))
                 /\ file_length req
                    = String.length
                        (fst (fst (withProblemBlock
                                     (problemDescription (settings s))
                                     (Monaco.getValue e))))
                 /\ cursor_line req
                    = lineNumber (cursor e)
                      + snd (withProblemBlock
                               (problemDescription (settings s))
                               (Monaco.getValue e))
                 /\ cursor_column req = column (cursor e)
                 /\ cursorOffset req
                    = Monaco.getOffsetAt e (cursor e)
                      + snd (fst (withProblemBlock
                                    (problemDescription (settings s))
                                    (Monaco.getValue e)))).
  { cbv zeta. destruct actor.
    - destruct (@human_turn_request env s0 e He0 Hp0) as (Hts & Hreq).
      split; [exact Hts|]. eexists. split.
      + rewrite Hreq. unfold s0. cbn [world emit set_world trace].
        rewrite requestsIn_app, app_nil_r. reflexivity.
      + cbn. repeat split.
    - destruct (@assistant_turn_request env s0 e He0 Hp0)
        as (explore & _ & Hts & Hreq).
      split; [exact Hts|]. eexists. split.
      + rewrite Hreq. unfold s0. cbn [world emit set_world trace].
        rewrite requestsIn_app, app_nil_r. reflexivity.
      + cbn. repeat split. }
  cbv zeta in Hturn.
  destruct (@executeAction_turn_state env actor s Hatt) as [-> | ->];
    exact Hturn.
Qed.

Lemma turn_sends_one_request_witness :
  let s' := snd (executeAction (answeringHost 2 0 "x = 1") (actionOf Assistant)
                   sampleSimulator) in
  let W := withProblemBlock (problemDescription (settings sampleSimulator))
                            (Monaco.getValue sampleEditor) in
  timestep s' = (timestep sampleSimulator + 1)%Z
  /\ exists req,
       requestsIn (trace (world s'))
       = requestsIn (trace (world sampleSimulator)) ++ [req]
       /\ author_attribution req = Assistant
       /\ req_timestep req = timestep sampleSimulator
       /\ text req = fst (fst W)
       /\ file_length req = String.length (fst (fst W))
       /\ cursor_line req = lineNumber (cursor sampleEditor) + snd W
       /\ cursor_column req = column (cursor sampleEditor)
       /\ cursorOffset req
          = Monaco.getOffsetAt sampleEditor (cursor sampleEditor)
            + snd (fst W).
Proof.
  apply (@turn_sends_one_request (answeringHost 2 0 "x = 1") Assistant
           sampleSimulator sampleEditor).
  - reflexivity.
  - reflexivity.
Defined.

Lemma Qle_bool_false_lt (p : Q) : Qle_bool p 0 = false -> (0 < p)%Q.
Proof.
  intros H. apply Qnot_le_lt. intros Hle.
  apply Qle_bool_iff in Hle. congruence.
Qed.

(** X16.  Sampling parameters travel with assistant requests only.  The
    request of a human turn carries no override, temperature or epsilon.
    The request of an assistant turn carries the temperature only if it
    is positive and the epsilon only if it is not negative; it carries a
    top-k override only when the noise probability is positive, and the
    override sent always lies between 1 and 7. *)
Theorem sampling_parameters_of_requests
  (env : Env) (s : Simulator) (e : Editor) :
  editor s = Some e ->
  isProcessing s = false ->
  (exists req,
     requestsIn (trace (world (snd (generateAndApplyHumanAction env s))))
     = requestsIn (trace (world s)) ++ [req]
     /\ sampleTopK req = None
     /\ reqTemperature req = None
     /\ reqEpsilon req = None)
  /\ (exists req,
        requestsIn (trace (world (snd (generateAndApplyAssistantAction env s))))
        = requestsIn (trace (world s)) ++ [req]
        /\ reqTemperature req = positive (assistantTemperature (settings s))
        /\ reqEpsilon req = nonNegative (assistantEpsilon (settings s))
        /\ match sampleTopK req with
           | Some k =>
               (1 <= k <= 7)%Z
               /\ (0 < assistantNoiseProbability (settings s))%Q
           | None => True
           end).
Proof.
  intros He Hp. split.
  - destruct (@human_turn_request env s e He Hp) as (_ & Hreq).
    eexists. split; [exact Hreq|]. cbn. auto.
  - destruct (@assistant_turn_request env s e He Hp)
      as (explore & Hexplore & _ & Hreq).
    eexists. split; [exact Hreq|]. cbn [reqTemperature reqEpsilon sampleTopK].
    split; [reflexivity|]. split; [reflexivity|].
    destruct explore; [|exact I].
    split; [lia|]. apply Qle_bool_false_lt, Hexplore. reflexivity.
Qed.

Lemma sampling_parameters_of_requests_witness :
  (exists req,
     requestsIn (trace (world (snd (generateAndApplyHumanAction quietHost
                                      sampleSimulator))))
     = requestsIn (trace (world sampleSimulator)) ++ [req]
     /\ sampleTopK req = None
     /\ reqTemperature req = None
     /\ reqEpsilon req = None)
  /\ (exists req,
        requestsIn (trace (world (snd (generateAndApplyAssistantAction
                                         quietHost sampleSimulator))))
        = requestsIn (trace (world sampleSimulator)) ++ [req]
        /\ reqTemperature req
           = positive (assistantTemperature (settings sampleSimulator))
        /\ reqEpsilon req
           = nonNegative (assistantEpsilon (settings sampleSimulator))
        /\ match sampleTopK req with
           | Some k =>
               (1 <= k <= 7)%Z
               /\ (0 < assistantNoiseProbability (settings sampleSimulator))%Q
           | None => True
           end).
Proof.
  apply (@sampling_parameters_of_requests quietHost sampleSimulator
           sampleEditor).
  - reflexivity.
  - reflexivity.
Defined.




(** X18.  A human turn for which the service gives no action (or
    fails) types exactly one line feed at the cursor: with the typing
    lock free and an editor that carries out its commands, the turn
    returns normally, the document is the old one with a line feed
    typed at the cursor, that keystroke is the only editor command of
    the turn, and the typing lock is free again. *)
Theorem human_turn_without_action
  (env : Env) (s : Simulator) (e : Editor) :
  (forall r, inference env r = NoAction \/ inference env r = Rejected) ->
  (forall k, editorFault env k = false) ->
  editor s = Some e ->
  isProcessing s = false ->
  isTyping s = false ->
  exists s',
    generateAndApplyHumanAction env s = (Returned tt, s')
    /\ editor s' = Some (Monaco.typeChar Js.nl e)
    /\ isTyping s' = false
    /\ commandsIn (trace (world s'))
       = commandsIn (trace (world s)) ++ [CmdType Js.nl].
Proof.
  intros Hnone Hnf He Hp Hfree.
  pose proof (@generateAndApplyHumanAction_returns env Hnf s) as Hret.
  destruct (generateAndApplyHumanAction env s) as [r s'] eqn:Hrun.
  cbn in Hret. subst r. exists s'. split; [reflexivity|].
  assert (Hs' : s' = snd (generateAndApplyHumanAction env s))
    by (rewrite Hrun; reflexivity).
  clear Hrun. subst s'.
  unfold generateAndApplyHumanAction. rewrite bind_this, He, Hp.
  rewrite snd_tryFinally.
  match goal with
  | |- context [tryCatch ?b ?h s] => set (mid := snd (tryCatch b h s))
  end.
  assert (Hmid : editor mid = Some (Monaco.typeChar Js.nl e)
                 /\ isTyping mid = false
                 /\ commandsIn (trace (world mid))
                    = commandsIn (trace (world s)) ++ [CmdType Js.nl]).
  { subst mid.
    rewrite (@tryCatch_bind_returns _ _ (assign _) _ _ s
               (set_isProcessing s true) tt eq_refl).
    destruct (humanlikeDelay_effect env (set_isProcessing s true))
      as (s1 & Hdelay & (He1 & Ht1 & _ & _ & Hc1) & _).
    rewrite (@tryCatch_bind_returns _ _ _ _ _ _ _ _ Hdelay).
    rewrite (@tryCatch_bind_returns _ _ this _ _ s1 s1 s1 eq_refl).
    cbn in He1, Ht1, Hc1. rewrite He1, He.
    destruct (withProblemBlock (problemDescription (settings s1))
                               (Monaco.getValue e))
      as [[full off] blockLines].
    rewrite (@tryCatch_bind_returns _ _ (assign _) _ _ s1
               (set_timestep s1 (timestep s1 + 1)%Z) tt eq_refl).
    match goal with
    | |- context [tryCatch (bind (callInference env ?req) ?k) ?h ?s2] =>
        destruct (callInference_effect env req s2)
          as (Hfst & (He3 & Ht3 & _ & _ & Hc3) & _);
        unfold tryCatch, bind;
        destruct (callInference env req s2) as [r3 s3];
        cbn [fst snd] in Hfst, He3, Ht3, Hc3;
        destruct (Hnone req) as [Hr | Hr]; rewrite Hr in Hfst; subst r3
    end;
      cbn in He3, Ht3, Hc3;
      (assert (He3' : editor s3 = Some e) by congruence);
      (assert (Ht3' : isTyping s3 = false) by congruence);
      destruct (@typeUnderLock_effect env Hnf Js.nlS s3 e He3' Ht3')
        as (s4 & Hrun4 & He4 & Ht4 & _ & Hc4);
      rewrite Hrun4; cbn [snd];
      (split; [exact He4|]); (split; [exact Ht4|]);
      rewrite Hc4, Hc3, Hc1; reflexivity. }
  destruct Hmid as (Hm1 & Hm2 & Hm3).
  destruct (turn_finally_sameDesk env mid) as (F1 & F2 & _ & _ & F5).
  rewrite F1, F2, F5. auto.
Qed.

Lemma human_turn_without_action_witness :
  exists s',
    generateAndApplyHumanAction quietHost sampleSimulator = (Returned tt, s')
    /\ editor s' = Some (Monaco.typeChar Js.nl sampleEditor)
    /\ isTyping s' = false
    /\ commandsIn (trace (world s'))
       = commandsIn (trace (world sampleSimulator)) ++ [CmdType Js.nl].
Proof.
  apply (@human_turn_without_action quietHost sampleSimulator sampleEditor).
  - intros r. left. reflexivity.
  - intros k. reflexivity.
  - reflexivity.
  - reflexivity.
  - reflexivity.
Defined.

(* ===================================================================== *)
(** * The problem block and the indentation *)
(* ===================================================================== *)

Lemma startsWith_append (p s : string) : Js.startsWith p (p ++ s) = true.
Proof.
  induction p as [|c r IH]; cbn; [reflexivity|].
  rewrite Ascii.eqb_refl. exact IH.
Qed.

Lemma includes_append (a p s : string) :
  Js.includes p (a ++ p ++ s) = true.
Proof.
  induction a as [|c r IH]; cbn [append].
  - destruct (p ++ s)%string eqn:Hps; cbn [Js.includes];
      rewrite <- Hps, startsWith_append; reflexivity.
  - cbn [Js.includes]. rewrite IH. apply orb_true_r.
Qed.

Lemma includes_problemBlock (d content : string) :
  Js.includes d (problemBlock d ++ content) = true.
Proof.
  assert (Hshape : (problemBlock d ++ content)%string
                   = (("'''" ++ Js.nlS ++ "Problem: ")
                      ++ d ++ ((Js.nlS ++ "'''" ++ Js.nlS) ++ content))%string).
  { unfold problemBlock. cbn [append Js.nlS]. rewrite append_assoc.
    reflexivity. }
  rewrite Hshape.
  exact (includes_append ("'''" ++ Js.nlS ++ "Problem: ") d
           ((Js.nlS ++ "'''" ++ Js.nlS) ++ content)).
Qed.

Lemma length_problemBlock (d : string) : 0 < String.length (problemBlock d).
Proof. unfold problemBlock. cbn. lia. Qed.

(** X19.  The problem block is put in front of the document for the
    request only, and undone for the answer.  Dropping the first
    [problemBlockOffset] characters of the text sent gives the document
    back; a text that already carries the block gets no second one; a
    line of the document, shifted by [problemBlockLines] for the request
    and adjusted back for the answer, is the same line again; and with a
    block in front every adjusted target line is at least 1. *)
Theorem problem_block_round_trip (description : option string)
        (content : string) :
  let '(full, offset, blockLines) := withProblemBlock description content in
  Js.suffix offset full = content
  /\ withProblemBlock description full = (full, 0, 0)
  /\ (forall line,
        1 <= line ->
        adjustTargetLine offset blockLines (Z.of_nat (line + blockLines))
        = Z.of_nat line)
  /\ (forall targetLine,
        0 < offset ->
        (1 <= adjustTargetLine offset blockLines targetLine)%Z).
Proof.
  unfold withProblemBlock.
  destruct description as [d|].
  - destruct (negb (String.eqb d EmptyString)
              && negb (Js.includes d content)) eqn:Hadd.
    + pose proof (length_problemBlock d) as Hlen.
      split; [apply suffix_append|]. split; [|split].
      * rewrite includes_problemBlock. cbn [negb]. rewrite andb_false_r.
        reflexivity.
      * intros line Hline. unfold adjustTargetLine.
        destruct (Nat.ltb_spec 0 (String.length (problemBlock d))); lia.
      * intros targetLine _. unfold adjustTargetLine.
        destruct (Nat.ltb_spec 0 (String.length (problemBlock d))); lia.
    + rewrite Hadd. split; [reflexivity|]. split; [reflexivity|]. split.
      * intros line _. unfold adjustTargetLine. cbn. f_equal. lia.
      * intros targetLine H. lia.
  - split; [reflexivity|]. split; [reflexivity|]. split.
    + intros line _. unfold adjustTargetLine. cbn. f_equal. lia.
    + intros targetLine H. lia.
Qed.

Example problem_block_sample :
  withProblemBlock (Some "Add two numbers"%string) "def f():"%string
  = (("'''" ++ Js.nlS ++ "Problem: Add two numbers" ++ Js.nlS ++ "'''"
      ++ Js.nlS ++ "def f():")%string, 33, 3).
Proof. reflexivity. Qed.

Lemma allWhite_trimStart (s : string) :
  allWhite s = true <-> Js.trimStart s = EmptyString.
Proof.
  induction s as [|c r IH]; cbn; [tauto|].
  destruct (Js.isWhite c); cbn; [exact IH|].
  split; discriminate.
Qed.

Lemma trimStart_head (s : string) :
  match Js.trimStart s with
  | EmptyString => True
  | String c _ => Js.isWhite c = false
  end.
Proof.
  induction s as [|c r IH]; cbn; [exact I|].
  destruct (Js.isWhite c) eqn:Hw; [exact IH | exact Hw].
Qed.

(** X20.  [getIndentation(line)] is the leading white space of the
    line, all of it and nothing else: the line is the indentation
    followed by [line.trimStart()], the indentation consists of white
    space only, what follows it does not begin with white space, and
    [getIndentationLevel] is its length. *)
Theorem indentation_is_leading_white_space (line : string) :
  (getIndentation line ++ Js.trimStart line)%string = line
  /\ allWhite (getIndentation line) = true
  /\ match Js.trimStart line with
     | EmptyString => True
     | String c _ => Js.isWhite c = false
     end
  /\ String.length (getIndentation line) = getIndentationLevel line.
Proof.
  split; [apply indentation_split|].
  split; [apply allWhite_trimStart, isWhite_trimStart_indentation|].
  split; [apply trimStart_head | apply indentation_length].
Qed.

(* ===================================================================== *)
(** * start() and the ticks of the timer *)
(* ===================================================================== *)

Lemma lastLine_exists (e : Editor) :
  lines e <> [] ->
  exists l, Monaco.getLineContent e (Monaco.getLineCount e) = Some l.
Proof.
  intros Hne. apply getLineContent_of_valid.
  unfold Monaco.getLineCount. destruct (lines e); [congruence | cbn; lia].
Qed.

Lemma bind_assign {B} (f : Simulator -> Simulator) (k : unit -> M B)
      (s : Simulator) :
  bind (assign f) k s = k tt (f s).
Proof. reflexivity. Qed.

Lemma bind_now {B} (k : Q -> M B) (s : Simulator) :
  bind now k s = k (clock (world s)) s.
Proof. reflexivity. Qed.

Lemma command_frame (env : Env) (c : EdCmd) (s : Simulator) (e : Editor) :
  editorFault env (commands (world s)) = false ->
  editor s = Some e ->
  exists s',
    command env c s = (Returned tt, s')
    /\ editor s' = Some (applyCmd c e)
    /\ isRunning s' = isRunning s
    /\ intervalId s' = intervalId s
    /\ startTime s' = startTime s
    /\ stats s' = stats s
    /\ settings s' = settings s
    /\ turnsIn (trace (world s')) = turnsIn (trace (world s)).
Proof.
  intros Hnf He. unfold command. rewrite He, Hnf.
  eexists. split; [reflexivity|]. cbn.
  rewrite turnsIn_app, app_nil_r. repeat split.
Qed.

(** The click that opens a run: the editor is focused and the cursor is
    put at the end of the document. *)
Lemma simulateEditorClick_effect (env : Env) (s : Simulator) (e : Editor) :
  (forall k, editorFault env k = false) ->
  editor s = Some e ->
  lines e <> [] ->
  exists s',
    simulateEditorClick env s = (Returned tt, s')
    /\ editor s' = Some (mkEditor (lines e) (endOfFile e))
    /\ isRunning s' = isRunning s
    /\ intervalId s' = intervalId s
    /\ startTime s' = startTime s
    /\ stats s' = stats s
    /\ settings s' = settings s
    /\ turnsIn (trace (world s')) = turnsIn (trace (world s)).
Proof.
  intros Hnf He Hne.
  destruct (lastLine_exists e Hne) as [l Hl].
  unfold simulateEditorClick. rewrite bind_this, He.
  destruct (@command_frame env CmdFocus s e (Hnf _) He)
    as (s1 & Hrun1 & He1 & R1 & I1 & T1 & S1 & C1 & U1).
  unfold bind at 1. rewrite Hrun1.
  unfold bind at 1. unfold getLineContent. rewrite He1.
  cbn [applyCmd]. rewrite Hl.
  destruct (@command_frame env
              (CmdSetPosition (mkPosition (Monaco.getLineCount e)
                                          (String.length l + 1)))
              s1 e (Hnf _) He1)
    as (s2 & Hrun2 & He2 & R2 & I2 & T2 & S2 & C2 & U2).
  rewrite Hrun2. exists s2. split; [reflexivity|].
  split.
  - rewrite He2. cbn [applyCmd]. unfold Monaco.setPosition. f_equal. f_equal.
    pose proof (validatePosition_endOfFile e Hne) as Hend.
    unfold endOfFile, Monaco.lineOr in *. rewrite Hl in *. exact Hend.
  - repeat split; congruence.
Qed.

(** X21.  [start()] in the free-running mode (no assistant limit, or a
    limit that is not positive): with an editor that carries out its
    commands, an idle simulator is set running, the start time is the
    current time, one more episode is counted, the cursor is put at the
    end of the document, the timer is armed, and no turn is attempted
    and no action counted before the first tick.  A second [start()]
    changes nothing. *)
Theorem start_free_running (env : Env) (s : Simulator) (e : Editor) :
  (forall k, editorFault env k = false) ->
  editor s = Some e ->
  lines e <> [] ->
  isRunning s = false ->
  (maxAssistantActions (settings s) = None
   \/ exists n, maxAssistantActions (settings s) = Some n /\ (n <= 0)%Z) ->
  exists s',
    start env s = (Returned tt, s')
    /\ isRunning s' = true
    /\ intervalId s' = Some 1
    /\ startTime s' = clock (world s)
    /\ episodesCreated (stats s') = S (episodesCreated (stats s))
    /\ totalActions (stats s') = totalActions (stats s)
    /\ editor s' = Some (mkEditor (lines e) (endOfFile e))
    /\ turnsIn (trace (world s')) = turnsIn (trace (world s))
    /\ start env s' = (Returned tt, s').
Proof.
  intros Hnf He Hne Hr Hmode.
  unfold start. rewrite bind_this, He, Hr.
  rewrite bind_assign, bind_now, bind_assign, bind_assign.
  match goal with
  | |- context [bind (simulateEditorClick env) _ ?s3] =>
      destruct (@simulateEditorClick_effect env s3 e Hnf He Hne)
        as (s4 & Hrun & He4 & R4 & I4 & T4 & S4 & C4 & U4)
  end.
  unfold bind at 1. rewrite Hrun. rewrite bind_this.
  assert (Hfree : match maxAssistantActions (settings s4) with
                  | Some n =>
                      if (0 <? n)%Z then startZeroStyleSequence env
                      else startPeriodicHumanSimulation
                  | None => startPeriodicHumanSimulation
                  end = startPeriodicHumanSimulation).
  { rewrite C4. cbn [settings set_stats set_startTime set_isRunning].
    destruct Hmode as [-> | (n & -> & Hn)]; [reflexivity|].
    destruct (Z.ltb_spec 0 n); [lia | reflexivity]. }
  rewrite Hfree. unfold startPeriodicHumanSimulation, assign.
  eexists. split; [reflexivity|].
  cbn in R4, T4, S4, U4.
  assert (Hrunning : isRunning (set_intervalId s4 (Some 1)) = true)
    by exact R4.
  assert (Hattached : editor (set_intervalId s4 (Some 1))
                      = Some (mkEditor (lines e) (endOfFile e)))
    by exact He4.
  split; [exact Hrunning|]. split; [reflexivity|].
  split; [exact T4|].
  split; [cbn; rewrite S4; reflexivity|].
  split; [cbn; rewrite S4; reflexivity|].
  split; [exact Hattached|].
  split; [exact U4|].
  unfold start. rewrite bind_this, Hattached, Hrunning. reflexivity.
Qed.

Lemma start_free_running_witness :
  exists s',
    start quietHost sampleSimulator = (Returned tt, s')
    /\ isRunning s' = true
    /\ intervalId s' = Some 1
    /\ startTime s' = clock (world sampleSimulator)
    /\ episodesCreated (stats s')
       = S (episodesCreated (stats sampleSimulator))
    /\ totalActions (stats s') = totalActions (stats sampleSimulator)
    /\ editor s' = Some (mkEditor (lines sampleEditor) (endOfFile sampleEditor))
    /\ turnsIn (trace (world s')) = turnsIn (trace (world sampleSimulator))
    /\ start quietHost s' = (Returned tt, s').
Proof.
  apply (@start_free_running quietHost sampleSimulator sampleEditor).
  - intros k. reflexivity.
  - reflexivity.
  - discriminate.
  - reflexivity.
  - left. reflexivity.
Defined.

Lemma simulateEditorClick_fault (env : Env) (s : Simulator) (e : Editor) :
  editor s = Some e ->
  editorFault env (commands (world s)) = true ->
  exists s',
    simulateEditorClick env s = (Raised, s')
    /\ isRunning s' = isRunning s
    /\ intervalId s' = intervalId s
    /\ stats s' = stats s
    /\ editor s' = editor s
    /\ trace (world s') = trace (world s).
Proof.
  intros He Hfault. unfold simulateEditorClick. rewrite bind_this, He.
  unfold bind at 1. unfold command. rewrite He, Hfault.
  eexists. split; [reflexivity|]. cbn. repeat split. exact He.
Qed.

(** X22.  An exception in the click that opens a run is not contained:
    if the editor raises at [focus()], [start()] raises, and it leaves
    the simulator marked as running with the episode counted, although
    no timer is armed and no turn is attempted.  A later [start()] is
    then a no-op; only [stop()] brings the simulator back. *)
Theorem start_fault_leaves_running (env : Env) (s : Simulator) (e : Editor) :
  editor s = Some e ->
  isRunning s = false ->
  editorFault env (commands (world s)) = true ->
  exists s',
    start env s = (Raised, s')
    /\ isRunning s' = true
    /\ intervalId s' = intervalId s
    /\ episodesCreated (stats s') = S (episodesCreated (stats s))
    /\ turnsIn (trace (world s')) = turnsIn (trace (world s))
    /\ start env s' = (Returned tt, s')
    /\ isRunning (snd (stop env s')) = false.
Proof.
  intros He Hr Hfault.
  unfold start. rewrite bind_this, He, Hr.
  rewrite bind_assign, bind_now, bind_assign, bind_assign.
  match goal with
  | |- context [bind (simulateEditorClick env) _ ?s3] =>
      destruct (@simulateEditorClick_fault env s3 e He Hfault)
        as (s4 & Hrun & R4 & I4 & S4 & E4 & U4)
  end.
  unfold bind at 1. rewrite Hrun.
  exists s4. split; [reflexivity|].
  cbn in R4, I4, S4, E4, U4.
  split; [exact R4|]. split; [exact I4|].
  split; [rewrite S4; reflexivity|].
  split; [rewrite U4; reflexivity|].
  split; [|apply stop_leaves_not_running].
  unfold start. rewrite bind_this, E4, He, R4. reflexivity.
Qed.

Lemma start_fault_leaves_running_witness :
  exists s',
    start brokenEditorHost sampleSimulator = (Raised, s')
    /\ isRunning s' = true
    /\ intervalId s' = intervalId sampleSimulator
    /\ episodesCreated (stats s')
       = S (episodesCreated (stats sampleSimulator))
    /\ turnsIn (trace (world s')) = turnsIn (trace (world sampleSimulator))
    /\ start brokenEditorHost s' = (Returned tt, s')
    /\ isRunning (snd (stop brokenEditorHost s')) = false.
Proof.
  apply (@start_fault_leaves_running brokenEditorHost sampleSimulator
           sampleEditor).
  - reflexivity.
  - reflexivity.
  - reflexivity.
Defined.

Lemma executeAction_logs_turn (env : Env) (actor : Actor) (s : Simulator) :
  editor s <> None ->
  turnsIn (trace (world (snd (executeAction env (actionOf actor) s))))
  = turnsIn (trace (world s)) ++ [actor].
Proof.
  intros He.
  assert (Hturn : turnsIn (trace (world
                    (snd (match actor with
                          | Human => generateAndApplyHumanAction env
                          | Assistant => generateAndApplyAssistantAction env
                          end (emit s (EvTurn actor))))))
                  = turnsIn (trace (world s)) ++ [actor]).
  { destruct actor.
    - destruct (generateAndApplyHumanAction_insideTurn env
                  (emit s (EvTurn Human))) as (_ & _ & _ & _ & Ht & _).
      rewrite Ht. cbn. rewrite turnsIn_app. reflexivity.
    - destruct (generateAndApplyAssistantAction_insideTurn env
                  (emit s (EvTurn Assistant))) as (_ & _ & _ & _ & Ht & _).
      rewrite Ht. cbn. rewrite turnsIn_app. reflexivity. }
  destruct (@executeAction_turn_state env actor s He) as [-> | ->];
    exact Hturn.
Qed.

Lemma stop_no_turn (env : Env) (s : Simulator) :
  fst (stop env s) = Returned tt
  /\ isRunning (snd (stop env s)) = false
  /\ turnsIn (trace (world (snd (stop env s)))) = turnsIn (trace (world s)).
Proof.
  split; [apply stop_returns|]. split; [apply stop_leaves_not_running|].
  destruct (stop_effect env s) as (_ & _ & _ & _ & _ & _ & new & Htr & Hnew).
  rewrite Htr, turnsIn_app, (stopEvent_no_turn Hnew), app_nil_r. reflexivity.
Qed.

Lemma bind_stop_ret (env : Env) (count : Z) (s : Simulator) :
  fst ((stop env ;; ret count) s) = Returned count
  /\ isRunning (snd ((stop env ;; ret count) s)) = false
  /\ turnsIn (trace (world (snd ((stop env ;; ret count) s))))
     = turnsIn (trace (world s)).
Proof.
  destruct (stop_no_turn env s) as (Hret & Hr & Ht).
  unfold bind, ret. destruct (stop env s) as [r s1]. cbn in *. subst r.
  cbn. auto.
Qed.

(** X23.  A tick of the free-running timer respects the limits.  With
    [maxActions] read as 50 when it is absent or 0, and [durationMs] as
    300000 when it is absent, 0 or not a number: a tick that finds the
    simulator stopped or without an editor, the count at the limit, or
    the duration used up, attempts no turn, leaves the count as it is
    and leaves the simulator stopped; every other tick attempts exactly
    one human turn and, unless that turn raises, adds one to the
    count. *)
Theorem tick_respects_limits (env : Env) (actionCount : Z) (s : Simulator) :
  let maxActions := countOrElse 50 (Config.maxActions (config (settings s))) in
  let duration := orElse 300000 (Config.durationMs (config (settings s))) in
  let r := periodicTick env actionCount s in
  (isRunning s = false \/ editor s = None
   \/ (maxActions <= actionCount)%Z
   \/ (duration <= clock (world s) - startTime s)%Q ->
   fst r = Returned actionCount
   /\ isRunning (snd r) = false
   /\ turnsIn (trace (world (snd r))) = turnsIn (trace (world s)))
  /\ (isRunning s = true ->
      editor s <> None ->
      (actionCount < maxActions)%Z ->
      (clock (world s) - startTime s < duration)%Q ->
      (fst r = Returned (actionCount + 1)%Z \/ fst r = Raised)
      /\ turnsIn (trace (world (snd r)))
         = turnsIn (trace (world s)) ++ [Human]).
Proof.
  cbv zeta. unfold periodicTick. rewrite bind_this. split.
  - intros Hstop.
    destruct (negb (isRunning s)
              || match editor s with None => true | Some _ => false end)
      eqn:Hguard; [apply bind_stop_ret|].
    apply orb_false_iff in Hguard as [Hr He].
    apply negb_false_iff in Hr.
    destruct Hstop as [Hs | [Hs | Hlimit]];
      [congruence | rewrite Hs in He; discriminate |].
    assert (Hover :
              (countOrElse 50 (Config.maxActions (config (settings s)))
               <=? actionCount)%Z
              || Qle_bool (orElse 300000
                             (Config.durationMs (config (settings s))))
                          (clock (world s) - startTime s) = true).
    { apply orb_true_iff. destruct Hlimit as [Hc | Hd].
      - left. apply Z.leb_le. exact Hc.
      - right. apply Qle_bool_iff. exact Hd. }
    rewrite Hover. apply bind_stop_ret.
  - intros Hr He Hcount Hdur.
    rewrite Hr. cbn [negb orb].
    destruct (editor s) as [e|] eqn:Hed; [|congruence].
    assert (Hunder :
              (countOrElse 50 (Config.maxActions (config (settings s)))
               <=? actionCount)%Z
              || Qle_bool (orElse 300000
                             (Config.durationMs (config (settings s))))
                          (clock (world s) - startTime s) = false).
    { apply orb_false_iff. split.
      - apply Z.leb_gt. exact Hcount.
      - destruct (Qle_bool _ _) eqn:Hle; [|reflexivity].
        apply Qle_bool_iff in Hle. apply Qle_not_lt in Hle. contradiction. }
    rewrite Hunder.
    assert (Hatt : editor s <> None) by congruence.
    pose proof (@executeAction_logs_turn env Human s Hatt) as Hlog.
    cbn [actionOf] in Hlog.
    unfold bind, ret.
    destruct (executeAction env StateServiceHuman s) as [[[]|] s1];
      cbn in *; auto.
Qed.

Lemma tick_respects_limits_witness :
  let s := set_isRunning (setEditor (Some sampleEditor) (create Config.empty))
                         true in
  (fst (periodicTick quietHost 50 s) = Returned 50%Z
   /\ isRunning (snd (periodicTick quietHost 50 s)) = false
   /\ turnsIn (trace (world (snd (periodicTick quietHost 50 s))))
      = turnsIn (trace (world s)))
  /\ ((fst (periodicTick quietHost 49 s) = Returned (49 + 1)%Z
       \/ fst (periodicTick quietHost 49 s) = Raised)
      /\ turnsIn (trace (world (snd (periodicTick quietHost 49 s))))
         = turnsIn (trace (world s)) ++ [Human]).
Proof.
  cbv zeta. split.
  - apply (proj1 (@tick_respects_limits quietHost 50%Z
                    (set_isRunning
                       (setEditor (Some sampleEditor) (create Config.empty))
                       true))).
    right. right. left. cbn. lia.
  - apply (proj2 (@tick_respects_limits quietHost 49%Z
                    (set_isRunning
                       (setEditor (Some sampleEditor) (create Config.empty))
                       true))).
    + reflexivity.
    + discriminate.
    + cbn. lia.
    + reflexivity.
Defined.

Lemma problem_block_round_trip_witness :
  1 <= 2
  /\ adjustTargetLine 33 3 (Z.of_nat (2 + 3)) = Z.of_nat 2.
Proof.
  assert (H : 1 <= 2) by lia.
  split; [exact H|].
  exact (proj1 (proj2 (proj2
           (problem_block_round_trip (Some "Add two numbers"%string)
                                     "def f():"%string))) 2 H).
Defined.

(** X24.  What [stop()] does to a running simulator, under any host: it
    returns normally; the simulator is stopped, the processing lock is
    free and the timer is cleared; the time since [start()] is added to
    [stats.totalDurationMs] and the current time becomes
    [stats.lastRunTime]; the counts of actions and episodes, the
    timestep and the editor are untouched; and after the one handshake
    event the window is closed exactly when [closeOnStop] is set, by
    [window.close()], or by navigating away when that raises. *)
Theorem stop_accounts_for_run (env : Env) (s : Simulator) :
  isRunning s = true ->
  exists s',
    stop env s = (Returned tt, s')
    /\ isRunning s' = false
    /\ isProcessing s' = false
    /\ intervalId s' = None
    /\ totalDurationMs (stats s')
       = (totalDurationMs (stats s) + (clock (world s) - startTime s))%Q
    /\ lastRunTime (stats s') = Some (clock (world s))
    /\ totalActions (stats s') = totalActions (stats s)
    /\ episodesCreated (stats s') = episodesCreated (stats s)
    /\ timestep s' = timestep s
    /\ editor s' = editor s
    /\ trace (world s')
       = trace (world s)
         ++ EvStopping (handshakeOf env s)
            :: (if closeOnStop (settings s)
                then [if closeRaises env then EvNavigateAway else EvClose]
                else []).
Proof.
  intros Hr. unfold stop. rewrite bind_this, Hr. cbn [negb].
  rewrite bind_assign. cbv zeta.
  rewrite (stop_handshake_completes env s).
  unfold log. rewrite bind_assign.
  unfold closeWindow. rewrite bind_this.
  assert (Hsync : isRunning (stopSync s) = false
                  /\ isProcessing (stopSync s) = false
                  /\ intervalId (stopSync s) = None
                  /\ stats (stopSync s)
                     = mkStats (totalActions (stats s))
                               (totalDurationMs (stats s)
                                + (clock (world s) - startTime s))%Q
                               (episodesCreated (stats s))
                               (agentSuggestionsReceived (stats s))
                               (Some (clock (world s)))
                  /\ timestep (stopSync s) = timestep s
                  /\ editor (stopSync s) = editor s
                  /\ world (stopSync s) = world s
                  /\ settings (stopSync s) = settings s).
  { unfold stopSync. destruct (intervalId s) eqn:Hi; cbn; rewrite ?Hi;
      repeat split; exact Hi. }
  destruct Hsync as (H1 & H2 & H3 & H4 & H5 & H6 & H7 & H8).
  change (settings (emit (stopSync s) (EvStopping (handshakeOf env s))))
    with (settings (stopSync s)).
  rewrite H8.
  destruct (closeOnStop (settings s)); cbn [when].
  - unfold tryCatch, log, assign, raise.
    destruct (closeRaises env);
      (eexists; split; [reflexivity|]);
      cbn [isRunning isProcessing intervalId stats timestep editor world
           trace emit set_world];
      rewrite H1, H2, H3, H4, H5, H6, H7; cbn;
      rewrite <- app_assoc; repeat split.
  - eexists. split; [reflexivity|].
    cbn [isRunning isProcessing intervalId stats timestep editor world
         trace emit set_world ret].
    rewrite H1, H2, H3, H4, H5, H6, H7. cbn. repeat split.
Qed.

Lemma stop_accounts_for_run_witness :
  exists s',
    stop (stoppingHost 1) (pairedSimulator 2 1) = (Returned tt, s')
    /\ isRunning s' = false
    /\ isProcessing s' = false
    /\ intervalId s' = None
    /\ totalDurationMs (stats s')
       = (totalDurationMs (stats (pairedSimulator 2 1))
          + (clock (world (pairedSimulator 2 1))
             - startTime (pairedSimulator 2 1)))%Q
    /\ lastRunTime (stats s') = Some (clock (world (pairedSimulator 2 1)))
    /\ totalActions (stats s') = totalActions (stats (pairedSimulator 2 1))
    /\ episodesCreated (stats s')
       = episodesCreated (stats (pairedSimulator 2 1))
    /\ timestep s' = timestep (pairedSimulator 2 1)
    /\ editor s' = editor (pairedSimulator 2 1)
    /\ trace (world s')
       = trace (world (pairedSimulator 2 1))
         ++ EvStopping (handshakeOf (stoppingHost 1) (pairedSimulator 2 1))
            :: (if closeOnStop (settings (pairedSimulator 2 1))
                then [if closeRaises (stoppingHost 1)
                      then EvNavigateAway else EvClose]
                else []).
Proof.
  apply (@stop_accounts_for_run (stoppingHost 1) (pairedSimulator 2 1)).
  reflexivity.
Defined.

(* ===================================================================== *)
(** * Pacing *)
(* ===================================================================== *)

Lemma suspend_clock (env : Env) (ms : Q) (s : Simulator) :
  clock (world (snd (suspend env ms s))) = (clock (world s) + Qmax 0 ms)%Q
  /\ settings (snd (suspend env ms s)) = settings s.
Proof.
  destruct (suspend_effect env ms s) as (_ & _ & _ & Hset & _).
  split; [|exact Hset].
  unfold suspend. destruct (stopRequested env (suspensions (world s))).
  - cbn [snd].
    match goal with
    | |- context [stop env ?s1] =>
        destruct (stop_frame env s1) as (_ & _ & _ & _ & Hc & _)
    end.
    rewrite Hc. reflexivity.
  - reflexivity.
Qed.

Lemma Qmax_nonneg (q : Q) : (0 <= Qmax 0 q)%Q.
Proof. apply Q.le_max_l. Qed.

Lemma Qmax_above (q : Q) : (q <= Qmax 0 q)%Q.
Proof. apply Q.le_max_r. Qed.

Section Pace.

Variable env : Env.

Lemma keepsPace_refl (s : Simulator) : keepsPace s s.
Proof. split; [reflexivity | apply Qle_refl]. Qed.

Lemma keepsPace_trans (s1 s2 s3 : Simulator) :
  keepsPace s1 s2 -> keepsPace s2 s3 -> keepsPace s1 s3.
Proof.
  intros (A1 & A2) (B1 & B2).
  split; [congruence | eapply Qle_trans; eassumption].
Qed.

Lemma command_keepsPace (c : EdCmd) : sound keepsPace (command env c).
Proof.
  intros s. unfold command.
  destruct (editor s); [|apply keepsPace_refl].
  destruct (editorFault env (commands (world s)));
    (split; [reflexivity | apply Qle_refl]).
Qed.

Lemma suspend_keepsPace (ms : Q) : sound keepsPace (suspend env ms).
Proof.
  intros s. destruct (suspend_clock env ms s) as (Hc & Hs).
  split; [exact Hs|]. rewrite Hc.
  pose proof (Qmax_nonneg ms). lra.
Qed.

Lemma nextRandom_keepsPace : sound keepsPace (nextRandom env).
Proof. intros s. split; [reflexivity | apply Qle_refl]. Qed.

Ltac pace_frame := intros; split; [reflexivity | apply Qle_refl].

Lemma typeUnderLock_keepsPace (txt : string) :
  sound keepsPace (typeUnderLock env txt).
Proof.
  apply (@inv_typeUnderLock env keepsPace keepsPace_refl keepsPace_trans
           command_keepsPace suspend_keepsPace nextRandom_keepsPace).
  pace_frame.
Qed.

Lemma applyAction_keepsPace (i n : Z) (txt : string) (p : Position) :
  sound keepsPace (applyAction env i n txt p).
Proof.
  apply (@inv_applyAction env keepsPace keepsPace_refl keepsPace_trans
           command_keepsPace suspend_keepsPace nextRandom_keepsPace).
  pace_frame.
Qed.

Ltac pace_step :=
  first
    [ sound_step keepsPace_refl keepsPace_trans
    | apply suspend_keepsPace
    | apply nextRandom_keepsPace
    | apply applyAction_keepsPace
    | apply typeUnderLock_keepsPace
    | apply sound_assign; solve [pace_frame] ].

Hypothesis random_nonneg : forall k, (0 <= random env k)%Q.

Lemma drawDelay_lower (min max : Q) (s : Simulator) :
  exists d s1,
    drawDelay env min max s = (Returned d, s1)
    /\ (min <= d)%Q
    /\ settings s1 = settings s
    /\ clock (world s1) = clock (world s).
Proof.
  unfold drawDelay. destruct (Qle_bool max min) eqn:Hle.
  - exists min, s. repeat split. apply Qle_refl.
  - unfold bind, nextRandom, ret. eexists. eexists.
    split; [reflexivity|]. cbn. repeat split.
    unfold randomDelay. rewrite Hle.
    assert (Hlt : (min < max)%Q).
    { apply Qnot_le_lt. intros Hc. apply Qle_bool_iff in Hc. congruence. }
    pose proof (random_nonneg (draws (world s))) as Hu.
    assert (Hp : (0 <= random env (draws (world s)) * (max - min))%Q).
    { apply Qmult_le_0_compat; lra. }
    lra.
Qed.

(** The pause before a turn lasts at least the lower bound. *)
Lemma humanlikeDelay_pace (s : Simulator) :
  exists s1,
    humanlikeDelay env s = (Returned tt, s1)
    /\ settings s1 = settings s
    /\ (clock (world s) + minActionDelayMs (settings s)
        <= clock (world s1))%Q.
Proof.
  unfold humanlikeDelay. rewrite bind_this.
  destruct (drawDelay_lower (minActionDelayMs (settings s))
                            (maxActionDelayMs (settings s)) s)
    as (d & s1 & Hdraw & Hd & Hs1 & Hc1).
  unfold bind at 1. rewrite Hdraw. unfold simulateWait.
  destruct (suspend_effect env d s1) as (Hret & _).
  destruct (suspend_clock env d s1) as (Hc2 & Hs2).
  destruct (suspend env d s1) as [r s2]. cbn in *. subst r.
  exists s2. split; [reflexivity|]. split; [congruence|].
  rewrite Hc2, Hc1. pose proof (Qmax_above d). lra.
Qed.

(** The pause after a turn lasts at least [postActionPauseMs]. *)
Lemma turn_finally_pace (s : Simulator) :
  let s' := snd ((assign (fun s => set_isProcessing s false) ;;
                  s <- this ;;
                  simulateWait env (postActionPauseMs (settings s))) s) in
  settings s' = settings s
  /\ (clock (world s) + postActionPauseMs (settings s)
      <= clock (world s'))%Q.
Proof.
  cbv zeta. rewrite bind_assign, bind_this. unfold simulateWait.
  match goal with
  | |- context [suspend env ?d ?s0] =>
      destruct (suspend_clock env d s0) as (Hc & Hs)
  end.
  rewrite Hc, Hs. cbn. split; [reflexivity|].
  pose proof (Qmax_above (postActionPauseMs (settings s))). lra.
Qed.

Lemma human_turn_pace (s : Simulator) (e : Editor) :
  editor s = Some e ->
  isProcessing s = false ->
  (clock (world s) + minActionDelayMs (settings s)
   + postActionPauseMs (settings s)
   <= clock (world (snd (generateAndApplyHumanAction env s))))%Q.
Proof.
  intros He Hp. unfold generateAndApplyHumanAction.
  rewrite bind_this, He, Hp. rewrite snd_tryFinally.
  match goal with
  | |- context [tryCatch ?b ?h s] => set (mid := snd (tryCatch b h s))
  end.
  destruct (turn_finally_pace mid) as (_ & Hfin).
  assert (Hmid : settings mid = settings s
                 /\ (clock (world s) + minActionDelayMs (settings s)
                     <= clock (world mid))%Q).
  { subst mid.
    rewrite (@tryCatch_bind_returns _ _ (assign _) _ _ s
               (set_isProcessing s true) tt eq_refl).
    destruct (humanlikeDelay_pace (set_isProcessing s true))
      as (s1 & Hdelay & Hs1 & Hc1).
    rewrite (@tryCatch_bind_returns _ _ _ _ _ _ _ _ Hdelay).
    match goal with
    | |- context [tryCatch ?m ?h s1] =>
        assert (Hrest : sound keepsPace (tryCatch m h))
    end.
    { unfold callInference, log. repeat pace_step. }
    destruct (Hrest s1) as (Hs2 & Hc2). cbn in Hs1, Hc1.
    split; [congruence|]. lra. }
  destruct Hmid as (Hs & Hc). rewrite Hs in Hfin. lra.
Qed.

Lemma assistant_turn_pace (s : Simulator) (e : Editor) :
  editor s = Some e ->
  isProcessing s = false ->
  (clock (world s) + minActionDelayMs (settings s)
   + postActionPauseMs (settings s)
   <= clock (world (snd (generateAndApplyAssistantAction env s))))%Q.
Proof.
  intros He Hp. unfold generateAndApplyAssistantAction.
  rewrite bind_this, He, Hp. rewrite snd_tryFinally.
  match goal with
  | |- context [tryCatch ?b ?h s] => set (mid := snd (tryCatch b h s))
  end.
  destruct (turn_finally_pace mid) as (_ & Hfin).
  assert (Hmid : settings mid = settings s
                 /\ (clock (world s) + minActionDelayMs (settings s)
                     <= clock (world mid))%Q).
  { subst mid.
    rewrite (@tryCatch_bind_returns _ _ (assign _) _ _ s
               (set_isProcessing s true) tt eq_refl).
    destruct (humanlikeDelay_pace (set_isProcessing s true))
      as (s1 & Hdelay & Hs1 & Hc1).
    rewrite (@tryCatch_bind_returns _ _ _ _ _ _ _ _ Hdelay).
    match goal with
    | |- context [tryCatch ?m ?h s1] =>
        assert (Hrest : sound keepsPace (tryCatch m h))
    end.
    { unfold callInference, shouldInjectAssistantNoise, log.
      repeat pace_step. }
    destruct (Hrest s1) as (Hs2 & Hc2). cbn in Hs1, Hc1.
    split; [congruence|]. lra. }
  destruct Hmid as (Hs & Hc). rewrite Hs in Hfin. lra.
Qed.

End Pace.

(** X25.  A turn that is carried out takes its time: with
    [Math.random()] never negative, the clock after the turn is at
    least the clock before it plus [minActionDelayMs] plus
    [postActionPauseMs], whatever else the host does (inference that
    fails at once, editor commands that raise, [stop()] called
    meanwhile). *)
Theorem turn_takes_time
  (env : Env) (actor : Actor) (s : Simulator) (e : Editor) :
  (forall k, (0 <= random env k)%Q) ->
  editor s = Some e ->
  isProcessing s = false ->
  (clock (world s) + minActionDelayMs (settings s)
   + postActionPauseMs (settings s)
   <= clock (world (snd (executeAction env (actionOf actor) s))))%Q.
Proof.
  intros Hrand He Hp.
  assert (Hatt : editor s <> None) by congruence.
  set (s0 := emit s (EvTurn actor)).
  assert (He0 : editor s0 = Some e) by exact He.
  assert (Hp0 : isProcessing s0 = false) by exact Hp.
  assert (Hturn :
            (clock (world s) + minActionDelayMs (settings s)
             + postActionPauseMs (settings s)
             <= clock (world
                  (snd (match actor with
                        | Human => generateAndApplyHumanAction env
                        | Assistant => generateAndApplyAssistantAction env
                        end s0))))%Q).
  { destruct actor.
    - exact (@human_turn_pace env Hrand s0 e He0 Hp0).
    - exact (@assistant_turn_pace env Hrand s0 e He0 Hp0). }
  destruct (@executeAction_turn_state env actor s Hatt) as [-> | ->];
    exact Hturn.
Qed.

Lemma turn_takes_time_witness :
  (clock (world sampleSimulator)
   + minActionDelayMs (settings sampleSimulator)
   + postActionPauseMs (settings sampleSimulator)
   <= clock (world (snd (executeAction (stoppingHost 0) (actionOf Human)
                           sampleSimulator))))%Q.
Proof.
  apply (@turn_takes_time (stoppingHost 0) Human sampleSimulator sampleEditor).
  - intros k. cbn. apply Qle_refl.
  - reflexivity.
  - reflexivity.
Defined.
